(** * Verification of ohnoplus/utils: treatment efficacy and ROC helpers

    A shallow embedding of [imm_cor.py] (treatment efficacy from a 2x2
    table) and of [roc.py] (single-fit, k-fold and leave-one-out ROC
    computation, 2x2 table statistics), followed by the properties the
    specification states about them.

    Numbers.  [imm_cor.py] divides, takes square roots, logarithms and
    exponentials of numpy [float64] values.  Its model, [NpFloat], keeps the
    special values of IEEE arithmetic (infinities and NaN, which numpy
    produces instead of raising) and computes on finite values with exact
    real arithmetic: rounding, overflow and the sign of zero are left out
    (every zero that [estTECI] divides by comes from an integer count, so it
    is a positive zero).  [roc.py] only adds, divides and compares, so its
    model uses the kernel's binary64 numbers, which are numpy's [float64].

    Division.  [imm_cor.py] imports [division] from [__future__], and the
    docstring of [rocStats] in [roc.py] promises floats for its ratios of
    counts: [/] on two counts is true division in both models.  The counts
    are numpy integers (the [sum] of a boolean column), whose true division
    returns an infinity or a NaN on a zero divisor, with a warning, where a
    Python integer would raise. *)

From Stdlib Require Import String List ZArith Bool Lia.
From Stdlib Require Import Reals Lra Psatz.
From Stdlib Require Import PrimFloat Uint63.
Import ListNotations.

(* ================================================================= *)
(** ** numpy [float64] with exact arithmetic on finite values *)

Module NpFloat.

Local Open Scope R_scope.

Inductive t : Type :=
| Fin (x : R)
| PInf
| NInf
| NaN.

Definition of_Z (z : Z) : t := Fin (IZR z).

Definition is_finite (v : t) : bool :=
  match v with Fin _ => true | _ => false end.

Definition neg (v : t) : t :=
  match v with
  | Fin x => Fin (- x)
  | PInf => NInf
  | NInf => PInf
  | NaN => NaN
  end.

Definition add (u v : t) : t :=
  match u, v with
  | NaN, _ | _, NaN => NaN
  | Fin x, Fin y => Fin (x + y)
  | PInf, NInf | NInf, PInf => NaN
  | PInf, _ | _, PInf => PInf
  | NInf, _ | _, NInf => NInf
  end.

Definition sub (u v : t) : t := add u (neg v).

(** An infinity of sign [pos] times the finite [x]. *)
Definition scale_inf (pos : bool) (x : R) : t :=
  if Rlt_dec 0 x then (if pos then PInf else NInf)
  else if Rlt_dec x 0 then (if pos then NInf else PInf)
  else NaN.

Definition mul (u v : t) : t :=
  match u, v with
  | NaN, _ | _, NaN => NaN
  | Fin x, Fin y => Fin (x * y)
  | PInf, Fin y | Fin y, PInf => scale_inf true y
  | NInf, Fin y | Fin y, NInf => scale_inf false y
  | PInf, PInf | NInf, NInf => PInf
  | PInf, NInf | NInf, PInf => NInf
  end.

(** numpy does not raise on a zero divisor: it warns and returns an
    infinity, or NaN for [0/0]. *)
Definition div (u v : t) : t :=
  match u, v with
  | NaN, _ | _, NaN => NaN
  | Fin x, Fin y =>
      if Req_dec_T y 0 then
        if Rlt_dec 0 x then PInf
        else if Rlt_dec x 0 then NInf
        else NaN
      else Fin (x / y)
  | Fin _, PInf | Fin _, NInf => Fin 0
  | PInf, Fin y => if Rlt_dec y 0 then NInf else PInf
  | NInf, Fin y => if Rlt_dec y 0 then PInf else NInf
  | PInf, PInf | PInf, NInf | NInf, PInf | NInf, NInf => NaN
  end.

Definition sqrt (v : t) : t :=
  match v with
  | Fin x => if Rlt_dec x 0 then NaN else Fin (R_sqrt.sqrt x)
  | PInf => PInf
  | NInf | NaN => NaN
  end.

Definition exp (v : t) : t :=
  match v with
  | Fin x => Fin (Rtrigo_def.exp x)
  | PInf => PInf
  | NInf => Fin 0
  | NaN => NaN
  end.

Definition log (v : t) : t :=
  match v with
  | Fin x =>
      if Rlt_dec x 0 then NaN
      else if Req_dec_T x 0 then NInf
      else Fin (ln x)
  | PInf => PInf
  | NInf | NaN => NaN
  end.

End NpFloat.

(* ================================================================= *)
(** ** [imm_cor.py]: treatment efficacy from cumulative incidence *)

Module ImmCor.

Import NpFloat.

(** A data frame is read column by column; a row gives the value of each
    named column.  The treatment and event columns hold integers: a value
    other than 0 and 1 (a missing one included) is counted in no cell. *)
Definition Row : Type := string -> Z.
Definition DataFrame : Type := list Row.

Definition column (df : DataFrame) (c : string) : list Z :=
  map (fun r => r c) df.

(** [df[c] == k], [u & v] and [v.sum()] on columns. *)
Definition eq_scalar (v : list Z) (k : Z) : list bool :=
  map (fun x => Z.eqb x k) v.

Definition and_vec (u v : list bool) : list bool :=
  map (fun p => andb (fst p) (snd p)) (combine u v).

Definition sum_vec (v : list bool) : Z :=
  fold_right (fun (b : bool) (acc : Z) => ((if b then 1 else 0) + acc)%Z) 0%Z v.

Definition cell (df : DataFrame) (treatment_col event_col : string)
    (tv ev : Z) : Z :=
  sum_vec (and_vec (eq_scalar (column df treatment_col) tv)
                   (eq_scalar (column df event_col) ev)).

(** The exact-test provider [fisherTest] of module [myfisher]: from the
    table [[a,b],[c,d]] it returns the odds ratio and the two-sided
    p-value. *)
Definition FisherTest : Type := Z -> Z -> Z -> Z -> t * t.

Definition rel_risk (a b c d : Z) : t :=
  div (div (of_Z a) (of_Z (a + b))) (div (of_Z c) (of_Z (c + d))).

Definition std_err (a b c d : Z) : t :=
  sqrt (add (div (of_Z b) (of_Z (a * (a + b))))
            (div (of_Z d) (of_Z (c * (c + d))))).

Section EstTECI.

Variable fisherTest : FisherTest.

(** The four counts are numpy integers: [a + b] and [a * (a + b)] are
    integer operations and every [/] is a true division, which does not
    raise. *)
Definition estTECI (df : DataFrame) (treatment_col event_col : string)
    : t * (t * t) * t :=
  let a := cell df treatment_col event_col 1 1 in
  let b := cell df treatment_col event_col 1 0 in
  let c := cell df treatment_col event_col 0 1 in
  let d := cell df treatment_col event_col 0 0 in
  let rr := div (div (of_Z a) (of_Z (a + b))) (div (of_Z c) (of_Z (c + d))) in
  let te := sub (Fin 1) rr in
  let se := sqrt (add (div (of_Z b) (of_Z (a * (a + b))))
                      (div (of_Z d) (of_Z (c * (c + d))))) in
  let ci := (sub (Fin 1) (exp (add (log rr) (mul se (Fin 1.96)))),
             sub (Fin 1) (exp (sub (log rr) (mul se (Fin 1.96))))) in
  let pvalue := snd (fisherTest a b c d) in
  (te, ci, pvalue).

End EstTECI.

(** The default column names of [estTECI]. *)
Definition default_treatment_col : string := "treated".
Definition default_event_col : string := "disease2".

(** A data frame with the given number of rows in each cell of the table. *)
Definition mk_row (tv ev : Z) : Row :=
  fun c => if String.eqb c default_treatment_col then tv
           else if String.eqb c default_event_col then ev
           else 0%Z.

Definition table_frame (a b c d : nat) : DataFrame :=
  repeat (mk_row 1 1) a ++ repeat (mk_row 1 0) b ++
  repeat (mk_row 0 1) c ++ repeat (mk_row 0 0) d.


(** *** The table and the formulas in the words of the specification *)

(** The count of a cell in the words of the specification: the number of
    rows whose treatment and event values are the cell's. *)
Definition rows_in_cell (df : DataFrame) (treatment_col event_col : string)
    (tv ev : Z) : nat :=
  length (filter (fun r => andb (Z.eqb (r treatment_col) tv)
                                (Z.eqb (r event_col) ev)) df).

(** The relative risk and the standard error of its logarithm as real
    numbers, in the words of the specification. *)
Definition RR (a b c d : Z) : R :=
  ((IZR a / (IZR a + IZR b)) / (IZR c / (IZR c + IZR d)))%R.

Definition SE (a b c d : Z) : R :=
  R_sqrt.sqrt (IZR b / (IZR a * (IZR a + IZR b)) +
               IZR d / (IZR c * (IZR c + IZR d)))%R.

(** Values that are an infinity of positive sign or a NaN. *)
Definition inf_or_nan (v : t) : Prop := v = PInf \/ v = NaN.

(** A stand-in for the exact test where its p-value does not matter. *)
Definition no_test : FisherTest := fun _ _ _ _ => (NaN, NaN).

End ImmCor.

(* ================================================================= *)
(** ** [roc.py]: data, exceptions and effects *)

Module Roc.

Definition vector : Type := list float.
Definition matrix : Type := list (list float).
Definition label : Type := Z.

(** What a prediction method returns: numpy arrays of one or two
    dimensions.  A two-dimensional array is the list of its rows. *)
Inductive ndarray : Type :=
| Arr1 (v : vector)
| Arr2 (rows : matrix).

(** The exceptions that travel through the functions of [roc.py]. *)
Inductive exn : Type :=
| PerfectSeparationError
| IndexError
| ValueError
| AssertionError
| AttributeError
| ZeroDivisionError
| OtherError (what : string).

Definition result (A : Type) : Type := exn + A.

(** The diagnostic lines the module prints, with the values formatted into
    them. *)
Inductive message : Type :=
| MsgPerfectSeparation (outcomeVar : string) (N : nat) (predictors : nat)
| MsgPerfectSeparationComplete (outcomeVar : string) (N : nat) (predictors : nat)
| MsgNotAllFolds (counter nFolds : nat)
| MsgNoCV.

(** Observable effects, in program order: a printed line, or a call of the
    classifier's [fit] on a predictor matrix and an outcome vector. *)
Inductive event : Type :=
| Print (m : message)
| Fit (X : matrix) (y : vector).

Definition trace : Type := list event.

(** Computations that print, call [fit] and may raise. *)
Definition M (A : Type) : Type := trace -> result A * trace.

Definition ret {A} (a : A) : M A := fun s => (inr a, s).

Definition raise {A} (e : exn) : M A := fun s => (inl e, s).

Definition bind {A B} (c : M A) (k : A -> M B) : M B :=
  fun s =>
    match c s with
    | (inr a, s') => k a s'
    | (inl e, s') => (inl e, s')
    end.

Definition lift {A} (r : result A) : M A := fun s => (r, s).

(** A call of a library function. *)
Definition lib {A} (r : option A) : M A :=
  fun s =>
    match r with
    | Some a => (inr a, s)
    | None => (inl ValueError, s)
    end.

Definition print (m : message) : M unit := fun s => (inr tt, s ++ [Print m]).

(** [try: body except PerfectSeparationError: handler]; any other exception
    goes on to the caller. *)
Definition try_except {A} (body handler : M A) : M A :=
  fun s =>
    match body s with
    | (inl PerfectSeparationError, s') => handler s'
    | r => r
    end.

Definition assert_ (b : bool) : M unit :=
  if b then ret tt else raise AssertionError.

Declare Scope monad_scope.
Delimit Scope monad_scope with monad.
Notation "x <- c ;; k" := (bind c (fun x => k))
  (at level 61, c at next level, right associativity) : monad_scope.
Notation "' p <- c ;; k" := (bind c (fun x => let 'p := x in k))
  (at level 61, p pattern, c at next level, right associativity) : monad_scope.
Notation "c ;;; k" := (bind c (fun _ => k))
  (at level 61, right associativity) : monad_scope.
Local Open Scope monad_scope.

Definition fit_calls (s : trace) : nat :=
  length (filter (fun e => match e with Fit _ _ => true | Print _ => false end) s).

(* ----------------------------------------------------------------- *)
(** *** Data frames, series and arrays *)

(** A row of a data frame: its identifier in the index and the value of
    each named column; a missing value is a NaN.  The functions require the
    frame to contain the outcome and predictor columns, so a row answers for
    every column name. *)
Record Row : Type := mkRow { rid : label; cells : string -> float }.

Definition DataFrame : Type := list Row.

Record Series : Type := mkSeries {
  s_index : list label;
  s_values : vector;
  s_name : option string
}.

Definition complete (cols : list string) (r : Row) : bool :=
  forallb (fun c => negb (PrimFloat.is_nan (cells r c))) cols.

(** [df[cols].dropna()] *)
Definition dropna (cols : list string) (df : DataFrame) : DataFrame :=
  filter (complete cols) df.

(** [tmp[predVars].astype(float)], [tmp[outcomeVar]] and [tmp.index] *)
Definition X_of (predVars : list string) (df : DataFrame) : matrix :=
  map (fun r => map (cells r) predVars) df.

Definition y_of (outcomeVar : string) (df : DataFrame) : vector :=
  map (fun r => cells r outcomeVar) df.

Definition index_of (df : DataFrame) : list label := map rid df.

Definition nth_item {A} (l : list A) (i : nat) : result A :=
  match nth_error l i with
  | Some a => inr a
  | None => inl IndexError
  end.

(** [tmp.iloc[ind]]: rows by position. *)
Fixpoint iloc (df : DataFrame) (ind : list nat) : result DataFrame :=
  match ind with
  | [] => inr []
  | i :: rest =>
      match nth_item df i with
      | inl e => inl e
      | inr r =>
          match iloc df rest with
          | inl e => inl e
          | inr rs => inr (r :: rs)
          end
      end
  end.

(** [a[:, 1]]: one index too many for a one-dimensional array. *)
Fixpoint column1_rows (rows : matrix) : result vector :=
  match rows with
  | [] => inr []
  | r :: rest =>
      match nth_item r 1 with
      | inl e => inl e
      | inr x =>
          match column1_rows rest with
          | inl e => inl e
          | inr xs => inr (x :: xs)
          end
      end
  end.

Definition column1 (a : ndarray) : result vector :=
  match a with
  | Arr1 _ => inl IndexError
  | Arr2 rows => column1_rows rows
  end.

(** [a[0, 1]] *)
Definition item01 (a : ndarray) : result float :=
  match a with
  | Arr1 _ => inl IndexError
  | Arr2 rows =>
      match nth_item rows 0 with
      | inl e => inl e
      | inr r => nth_item r 1
      end
  end.

(** [a[i] = x] on an array. *)
Fixpoint set_item (a : vector) (i : nat) (x : float) : result vector :=
  match a, i with
  | [], _ => inl IndexError
  | _ :: rest, O => inr (x :: rest)
  | y :: rest, S j =>
      match set_item rest j x with
      | inl e => inl e
      | inr rest' => inr (y :: rest')
      end
  end.

(** [a[-1] = x] *)
Definition set_last (a : vector) (x : float) : result vector :=
  match a with
  | [] => inl IndexError
  | _ => inr (removelast a ++ [x])
  end.

(** [tpr[0], tpr[-1] = 0, 1] *)
Definition clamp (tpr : vector) : result vector :=
  match set_item tpr 0 0%float with
  | inl e => inl e
  | inr tpr' => set_last tpr' 1%float
  end.

(** [pd.Series(data, index=index, name=name)]: the data must have one
    dimension and as many values as the index has labels. *)
Definition new_series (data : ndarray) (index : list label)
    (name : option string) : result Series :=
  match data with
  | Arr1 v =>
      if Nat.eqb (length v) (length index)
      then inr (mkSeries index v name)
      else inl ValueError
  | Arr2 _ => inl ValueError
  end.

(** The [float64] of a count. *)
Definition of_nat (n : nat) : float :=
  PrimFloat.of_uint63 (Uint63.of_Z (Z.of_nat n)).

Definition zeros (n : nat) : vector := repeat 0%float n.
Definition ones (n : nat) : vector := repeat 1%float n.
Definition nans (n : nat) : vector := repeat PrimFloat.nan n.

(** [np.linspace(start, stop, num)] for [num >= 2]: evenly spaced values, the
    last one set to [stop]. *)
Definition linspace (start stop : float) (num : nat) : vector :=
  let step := ((stop - start) / of_nat (num - 1))%float in
  map (fun i => (of_nat i * step + start)%float) (seq 0 (num - 1)) ++ [stop].

(* ----------------------------------------------------------------- *)
(** *** The classifier and the libraries *)

(** The object [model.fit] returns: it always has [predict] and may have
    [predict_proba]. *)
Record Fitted : Type := mkFitted {
  predict_proba : option (matrix -> ndarray);
  predict : matrix -> ndarray
}.

(** [model.fit(X=..., y=...)] returns the fitted object or raises.  The
    [Fitted] value is that object as it is when [fit] returns: an estimator
    whose [fit] returns [self] refitted in place hands the same object out
    at every call, and a later [fit] changes what an earlier result
    predicts. *)
Record Classifier : Type := mkClassifier {
  fit : matrix -> vector -> result Fitted
}.

(** [results.predict_proba = results.predict] *)
Definition patch (f : Fitted) : Fitted :=
  mkFitted (Some (predict f)) (predict f).

(** Reading the attribute [res.predict_proba]. *)
Definition get_predict_proba (f : Fitted) : result (matrix -> ndarray) :=
  match predict_proba f with
  | Some pp => inr pp
  | None => inl AttributeError
  end.

(** A fold: the positions of its training rows and of its test rows. *)
Definition fold : Type := (list nat * list nat)%type.

(** The functions of scikit-learn, numpy and pandas that [roc.py] calls and
    whose results it does not inspect.  Those that reject some inputs do so
    with a [ValueError]: they answer [None] there. *)
Record Libs : Type := mkLibs {
  (** [sklearn.metrics.roc_curve(y_true, y_score)]: fpr, tpr, thresholds *)
  roc_curve : vector -> ndarray -> option (vector * vector * vector);
  (** [sklearn.metrics.auc(x, y)] *)
  auc : vector -> vector -> option float;
  (** [sklearn.metrics.accuracy_score(y_true, y_pred, normalize=True)] *)
  accuracy_score : vector -> ndarray -> option float;
  (** [np.round] *)
  np_round : ndarray -> ndarray;
  (** the value of [np.interp] at one abscissa, from the sample points *)
  interp_at : vector -> vector -> float -> float;
  (** [np.nanmean] of one row *)
  nanmean : vector -> float;
  (** [sklearn.cross_validation.KFold(n, n_folds, shuffle=True,
      random_state=110820)], iterated *)
  KFold : nat -> nat -> option (list fold);
  (** [pd.concat(prob).groupby(level=0).agg(np.mean)] *)
  concat_group_mean : list Series -> option Series
}.

(** [np.interp(x, xp, fp)]: one value for each element of [x]; the sample
    arrays must be non-empty and of the same length. *)
Definition np_interp (L : Libs) (x xp fp : vector) : result vector :=
  match xp with
  | [] => inl ValueError
  | _ =>
      if Nat.eqb (length xp) (length fp)
      then inr (map (interp_at L xp fp) x)
      else inl ValueError
  end.

(** [sklearn.cross_validation.LeaveOneOut(n)], iterated: fold [i] tests
    row [i] and trains on the others. *)
Definition LeaveOneOut (n : nat) : list fold :=
  map (fun i => (filter (fun j => negb (Nat.eqb j i)) (seq 0 n), [i])) (seq 0 n).

(** [tpr[:, i] = col] on the array [tpr] kept as the list of its columns,
    each of [rows] elements; a right side of one element is broadcast. *)
Fixpoint set_column (rows : nat) (tpr : list vector) (i : nat) (col : vector)
    : result (list vector) :=
  match tpr, i with
  | [], _ => inl IndexError
  | _ :: rest, O =>
      if Nat.eqb (length col) rows then inr (col :: rest)
      else match col with
           | [x] => inr (repeat x rows :: rest)
           | _ => inl ValueError
           end
  | c :: rest, S j =>
      match set_column rows rest j col with
      | inl e => inl e
      | inr rest' => inr (c :: rest')
      end
  end.

(** [np.nanmean(tpr, axis=1)] *)
Definition nanmean_axis1 (L : Libs) (rows : nat) (tpr : list vector) : vector :=
  map (fun j => nanmean L (map (fun col => nth j col PrimFloat.nan) tpr))
      (seq 0 rows).

(** What [computeROC] returns: fpr, tpr, auc, acc, results, prob. *)
Record ROCResult : Type := mkROC {
  r_fpr : vector;
  r_tpr : vector;
  r_auc : float;
  r_acc : float;
  r_results : option Fitted;
  r_prob : Series
}.

(** What [computeCVROC] and [computeLOOROC] return: fpr, tpr, auc, acc,
    results, prob, success. *)
Record CVResult : Type := mkCV {
  cv_fpr : vector;
  cv_tpr : vector;
  cv_auc : float;
  cv_acc : float;
  cv_results : list (option Fitted);
  cv_prob : Series;
  cv_success : bool
}.

Definition call_fit (model : Classifier) (X : matrix) (y : vector) : M Fitted :=
  fun s => (fit model X y, s ++ [Fit X y]).

Definition Prob : string := "Prob".

(* ----------------------------------------------------------------- *)
(** *** [computeROC], [computeCVROC], [computeLOOROC] *)

Section Functions.

Variable L : Libs.

Definition computeROC (df : DataFrame) (model : Classifier)
    (outcomeVar : string) (predVars : list string) : M ROCResult :=
  let tmp := dropna (outcomeVar :: predVars) df in
  let X := X_of predVars tmp in
  let y := y_of outcomeVar tmp in
  '(fpr, tpr, auc_, acc, results, prob) <-
    try_except
      (results <- call_fit model X y ;;
       '(prob, results) <-
         match predict_proba results with
         | Some pp => p <- lift (column1 (pp X)) ;; ret (Arr1 p, results)
         | None => ret (predict results X, patch results)
         end ;;
       '(fpr, tpr, thresholds) <- lib (roc_curve L y prob) ;;
       acc <- lib (accuracy_score L y (np_round L prob)) ;;
       auc_ <- lib (auc L fpr tpr) ;;
       tpr <- lift (clamp tpr) ;;
       ret (fpr, tpr, auc_, acc, Some results, prob))
      (print (MsgPerfectSeparation outcomeVar (length tmp) (length predVars)) ;;;
       tpr <- lift (clamp (ones 5)) ;;
       ret (zeros 5, tpr, 1%float, 1%float, None, Arr1 (y_of outcomeVar df))) ;;
  assert_ (acc <=? 1)%float ;;;
  prob <- lift (new_series prob (index_of tmp) (Some Prob)) ;;
  ret (mkROC fpr tpr auc_ acc results prob).

(** The variables the fold loop of [computeCVROC] updates. *)
Record CVState : Type := mkCVState {
  st_tpr : list vector;
  st_acc : float;
  st_counter : nat;
  st_results : list (option Fitted);
  st_prob : list Series
}.

Definition grid : vector := linspace 0 1 100.

Section CVLoop.

Variables (tmp : DataFrame) (model : Classifier)
          (outcomeVar : string) (predVars : list string).

Definition cv_fold (i : nat) (f : fold) (st : CVState) : M CVState :=
  let '(trainInd, testInd) := f in
  trainDf <- lift (iloc tmp trainInd) ;;
  testDf <- lift (iloc tmp testInd) ;;
  r <- computeROC trainDf model outcomeVar predVars ;;
  match r_results r with
  | Some res =>
      let counter := S (st_counter st) in
      pp <- lift (get_predict_proba res) ;;
      testProb <- lift (column1 (pp (X_of predVars testDf))) ;;
      '(testFPR, testTPR, _) <-
        lib (roc_curve L (y_of outcomeVar testDf) (Arr1 testProb)) ;;
      col <- lift (np_interp L grid testFPR testTPR) ;;
      tpr <- lift (set_column (length grid) (st_tpr st) i col) ;;
      a <- lib (accuracy_score L (y_of outcomeVar testDf)
                                (np_round L (Arr1 testProb))) ;;
      let acc := (st_acc st + a)%float in
      let results := st_results st ++ [Some res] in
      s <- lift (new_series (Arr1 testProb) (index_of testDf) None) ;;
      ret (mkCVState tpr acc counter results (st_prob st ++ [s]))
  | None => ret st
  end.

Fixpoint cv_loop (i : nat) (cv : list fold) (st : CVState) : M CVState :=
  match cv with
  | [] => ret st
  | f :: rest => st' <- cv_fold i f st ;; cv_loop (S i) rest st'
  end.

End CVLoop.

Definition computeCVROC (df : DataFrame) (model : Classifier)
    (outcomeVar : string) (predVars : list string) (nFolds : nat)
    : M CVResult :=
  let tmp := dropna (outcomeVar :: predVars) df in
  cv <- lib (KFold L (length tmp) nFolds) ;;
  let fpr := grid in
  let tpr := repeat (nans (length fpr)) nFolds in
  st <- cv_loop tmp model outcomeVar predVars 0 cv
          (mkCVState tpr 0%float 0 [] []) ;;
  '(meanTPR, meanAUC, meanACC, results, probS, success) <-
    (if Nat.eqb (st_counter st) nFolds then
       meanTPR <- lift (clamp (nanmean_axis1 L (length fpr) (st_tpr st))) ;;
       meanACC <- (if Nat.eqb (st_counter st) 0 then raise ZeroDivisionError
                   else ret (st_acc st / of_nat (st_counter st))%float) ;;
       meanAUC <- lib (auc L fpr meanTPR) ;;
       probS <- lib (concat_group_mean L (st_prob st)) ;;
       let probS := mkSeries (s_index probS) (s_values probS) (Some Prob) in
       assert_ (Nat.eqb (length (s_values probS)) (length tmp)) ;;;
       ret (meanTPR, meanAUC, meanACC, st_results st, probS, true)
     else
       print (MsgNotAllFolds (st_counter st) nFolds) ;;;
       print MsgNoCV ;;;
       r <- computeROC tmp model outcomeVar predVars ;;
       meanTPR <- lift (np_interp L fpr (r_fpr r) (r_tpr r)) ;;
       meanTPR <- lift (clamp meanTPR) ;;
       ret (meanTPR, r_auc r, r_acc r, [r_results r], r_prob r, false)) ;;
  assert_ (meanACC <=? 1)%float ;;;
  ret (mkCV fpr meanTPR meanAUC meanACC results probS success).

(** The variables the loop of [computeLOOROC] updates. *)
Record LOOState : Type := mkLOOState {
  lo_outcome : vector;
  lo_prob : vector;
  lo_ids : list label;
  lo_results : list (option Fitted)
}.

Section LOOLoop.

Variables (tmp : DataFrame) (model : Classifier)
          (outcomeVar : string) (predVars : list string)
          (wholeProb : vector).

(** In the [try] block only [fit] can raise the perfect-separation error,
    and it does so before [results.append(res)]: the handler appends to the
    list as it was before the block. *)
Definition loo_fold (i : nat) (f : fold) (st : LOOState) : M LOOState :=
  let '(trainInd, testInd) := f in
  trainDf <- lift (iloc tmp trainInd) ;;
  testDf <- lift (iloc tmp testInd) ;;
  o <- lift (nth_item (y_of outcomeVar testDf) 0) ;;
  outcome <- lift (set_item (lo_outcome st) i o) ;;
  t0 <- lift (nth_item testInd 0) ;;
  id <- lift (nth_item (index_of tmp) t0) ;;
  let ids := lo_ids st ++ [id] in
  '(results, prob) <-
    try_except
      (res <- call_fit model (X_of predVars trainDf) (y_of outcomeVar trainDf) ;;
       let res :=
         match predict_proba res with
         | Some _ => res
         | None => patch res
         end in
       let results := lo_results st ++ [Some res] in
       pp <- lift (get_predict_proba res) ;;
       p <- lift (item01 (pp (X_of predVars testDf))) ;;
       prob <- lift (set_item (lo_prob st) i p) ;;
       ret (results, prob))
      (print (MsgPerfectSeparation outcomeVar (length tmp) (length predVars)) ;;;
       w <- lift (nth_item wholeProb i) ;;
       prob <- lift (set_item (lo_prob st) i w) ;;
       ret (lo_results st ++ [None], prob)) ;;
  ret (mkLOOState outcome prob ids results).

Fixpoint loo_loop (i : nat) (cv : list fold) (st : LOOState) : M LOOState :=
  match cv with
  | [] => ret st
  | f :: rest => st' <- loo_fold i f st ;; loo_loop (S i) rest st'
  end.

End LOOLoop.

Definition computeLOOROC (df : DataFrame) (model : Classifier)
    (outcomeVar : string) (predVars : list string) : M CVResult :=
  let tmp := dropna (outcomeVar :: predVars) df in
  let cv := LeaveOneOut (length tmp) in
  let fpr := grid in
  let prob := nans (length tmp) in
  let outcome := nans (length tmp) in
  let X := X_of predVars tmp in
  let y := y_of outcomeVar tmp in
  (* the early [return] of the handler is the left injection *)
  whole <-
    try_except
      (wholeRes <- call_fit model X y ;;
       let wholeRes :=
         match predict_proba wholeRes with
         | Some _ => wholeRes
         | None => patch wholeRes
         end in
       pp <- lift (get_predict_proba wholeRes) ;;
       wholeProb <- lift (column1 (pp X)) ;;
       ret (inr wholeProb))
      (print (MsgPerfectSeparationComplete outcomeVar (length tmp)
                                           (length predVars)) ;;;
       let outcome := y in
       let prob := outcome in
       let results := repeat None (length tmp) in
       '(testFPR, testTPR, thresholds) <- lib (roc_curve L outcome (Arr1 prob)) ;;
       tpr <- lift (np_interp L fpr testFPR testTPR) ;;
       tpr <- lift (clamp tpr) ;;
       probS <- lift (new_series (Arr1 prob) (index_of tmp) (Some Prob)) ;;
       assert_ (Nat.eqb (length (s_values probS)) (length tmp)) ;;;
       ret (inl (mkCV fpr tpr 1%float 1%float results probS false))) ;;
  match whole with
  | inl early => ret early
  | inr wholeProb =>
      st <- loo_loop tmp model outcomeVar predVars wholeProb 0 cv
              (mkLOOState outcome prob [] []) ;;
      '(testFPR, testTPR, thresholds) <-
        lib (roc_curve L (lo_outcome st) (Arr1 (lo_prob st))) ;;
      tpr <- lift (np_interp L fpr testFPR testTPR) ;;
      acc <- lib (accuracy_score L (lo_outcome st)
                                  (np_round L (Arr1 (lo_prob st)))) ;;
      auc_ <- lib (auc L testFPR testTPR) ;;
      tpr <- lift (clamp tpr) ;;
      probS <- lift (new_series (Arr1 (lo_prob st)) (lo_ids st) (Some Prob)) ;;
      assert_ (Nat.eqb (length (s_values probS)) (length tmp)) ;;;
      ret (mkCV fpr tpr auc_ acc (lo_results st) probS true)
  end.

End Functions.

(* ----------------------------------------------------------------- *)
(** *** [rocStats] *)

(** [v.astype(bool)]: every non-zero value, a NaN included, is true. *)
Definition astype_bool (v : vector) : list bool :=
  map (fun x => negb (x =? 0)%float) v.

Definition and_vec (u v : list bool) : list bool :=
  map (fun p => andb (fst p) (snd p)) (combine u v).

Definition not_vec (v : list bool) : list bool := map negb v.

Definition sum_vec (v : list bool) : nat :=
  fold_right (fun (b : bool) (acc : nat) => (if b then 1 else 0) + acc) 0 v.

(** The eight statistics, in the order [rocStats] lists them. *)
Record Stats : Type := mkStats {
  sens : float;
  spec : float;
  ppv : float;
  npv : float;
  nnt : float;
  acc : float;
  rr : float;
  OR : float
}.

Inductive StatsOut : Type :=
| AsSeries (s : list (string * float)) (name : string)
| AsTuple (t : Stats).

Definition stats_labels : list string :=
  ["Sensitivity"; "Specificity"; "PPV"; "NPV"; "NNT"; "ACC"; "RR"; "OR"]%string.

Definition stats_vec (t : Stats) : vector :=
  [sens t; spec t; ppv t; npv t; nnt t; acc t; rr t; OR t].

(** The counts are numpy integers: dividing them gives a [float64], an
    infinity or a NaN when the divisor is zero, and never raises. *)
Definition rocStats (obs pred : vector) (returnSeries : bool)
    : result StatsOut :=
  if negb (Nat.eqb (length obs) (length pred)) then inl AssertionError
  else
    let n := length obs in
    let a := sum_vec (and_vec (astype_bool obs) (astype_bool pred)) in
    let b := sum_vec (and_vec (astype_bool obs) (not_vec (astype_bool pred))) in
    let c := sum_vec (and_vec (not_vec (astype_bool obs)) (astype_bool pred)) in
    let d := sum_vec (and_vec (not_vec (astype_bool obs))
                              (not_vec (astype_bool pred))) in
    (let sens := of_nat a / of_nat (a + b) in
     let spec := of_nat d / of_nat (c + d) in
     let ppv := of_nat a / of_nat (a + c) in
     let npv := of_nat d / of_nat (b + d) in
     let nnt := 1 / (of_nat a / of_nat (a + c) - of_nat b / of_nat (b + d)) in
     let acc := of_nat (a + d) / of_nat n in
     let rr := (of_nat a / of_nat (a + c)) / (of_nat b / of_nat (b + d)) in
     let OR := (of_nat a / of_nat b) / (of_nat c / of_nat d) in
     let t := mkStats sens spec ppv npv nnt acc rr OR in
     if returnSeries
     then inr (AsSeries (combine stats_labels (stats_vec t)) "ROC")
     else inr (AsTuple t))%float.

(* ----------------------------------------------------------------- *)
(** *** Notions the properties are stated with *)

(** The state of the fold loop of [computeCVROC] before the first fold. *)
Definition cv_init (nFolds : nat) : CVState :=
  mkCVState (repeat (nans (length grid)) nFolds) 0%float 0 [] [].

(** A fold fails when [fit] raises the perfect-separation error on its
    training rows. *)
Definition fold_fails (tmp : DataFrame) (model : Classifier) (ov : string)
    (pv : list string) (f : fold) : Prop :=
  exists trainDf,
    iloc tmp (fst f) = inr trainDf /\
    fit model (X_of pv trainDf) (y_of ov trainDf) = inl PerfectSeparationError.

Definition KFold_contract (L : Libs) : Prop :=
  forall n k cv, KFold L n k = Some cv -> length cv = k.

Definition roc_curve_contract (L : Libs) : Prop :=
  forall y p fpr tpr th,
    roc_curve L y p = Some (fpr, tpr, th) -> length fpr = length tpr.

(** What the handler of the whole-dataset fit of [computeLOOROC] computes
    after printing. *)
Definition loo_degenerate (L : Libs) (tmp : DataFrame) (ov : string)
    : result CVResult :=
  let y := y_of ov tmp in
  match roc_curve L y (Arr1 y) with
  | None => inl ValueError
  | Some (testFPR, testTPR, _) =>
      match np_interp L grid testFPR testTPR with
      | inl e => inl e
      | inr t0 =>
          match clamp t0 with
          | inl e => inl e
          | inr tpr =>
              inr (mkCV grid tpr 1%float 1%float (repeat None (length tmp))
                        (mkSeries (index_of tmp) y (Some Prob)) false)
          end
      end
  end.

(** The ends of the curve a resampling function returns. *)
Definition first_point (r : CVResult) : float * float :=
  (hd PrimFloat.nan (cv_fpr r), hd PrimFloat.nan (cv_tpr r)).

Definition last_point (r : CVResult) : float * float :=
  (last (cv_fpr r) PrimFloat.nan, last (cv_tpr r) PrimFloat.nan).

(** A classifier whose fitted object has [predict] only, returning a
    vector, and whose [fit] always succeeds. *)
Definition predict_only_model (model : Classifier) : Prop :=
  forall X y, exists f,
    fit model X y = inr f /\ predict_proba f = None /\
    forall X', exists v, predict f X' = Arr1 v.

(** A value that [astype(bool)] makes true. *)
Definition nonzero (v : float) : bool := negb (v =? 0)%float.

(** The number of positions where the observed value is true or not, as
    [o] says, and the predicted one as [p] says. *)
Definition table_count (o p : bool) (obs pred : vector) : nat :=
  length (filter (fun xy => andb (Bool.eqb (nonzero (fst xy)) o)
                                 (Bool.eqb (nonzero (snd xy)) p))
                 (combine obs pred)).

End Roc.

(* ================================================================= *)
(** ** A small instance on which the functions run *)

Module Sample.

Import Roc.

(** Rows with an outcome column [y] and one predictor column [x]. *)
Definition row (i : label) (y x : float) : Row :=
  mkRow i (fun c => if String.eqb c "y" then y
                    else if String.eqb c "x" then x
                    else PrimFloat.nan).

Definition frame : DataFrame :=
  [row 10%Z 0%float 1%float; row 11%Z 1%float 2%float;
   row 12%Z 0%float 3%float; row 13%Z 1%float 4%float].

(** The same rows and one whose outcome is missing. *)
Definition frame_missing : DataFrame :=
  frame ++ [row 14%Z PrimFloat.nan 5%float].

(** A classifier that never converges. *)
Definition separated : Classifier :=
  mkClassifier (fun _ _ => inl PerfectSeparationError).

(** A classifier with a probability interface: a row's probabilities are a
    half each. *)
Definition with_proba : Fitted :=
  mkFitted (Some (fun X => Arr2 (map (fun _ => [0.5; 0.5]%float) X)))
           (fun X => Arr1 (map (fun _ => 1%float) X)).

Definition logistic : Classifier := mkClassifier (fun _ _ => inr with_proba).

(** A classifier with [predict] only, which returns a vector. *)
Definition predict_only : Fitted :=
  mkFitted None (fun X => Arr1 (map (fun _ => 0.5%float) X)).

Definition regressor : Classifier := mkClassifier (fun _ _ => inr predict_only).

(** A classifier that converges on three rows or more. *)
Definition fragile : Classifier :=
  mkClassifier (fun X _ => if Nat.ltb (length X) 3
                           then inl PerfectSeparationError
                           else inr with_proba).

(** Fold [i] of [k] tests the rows whose position is [i] modulo [k]. *)
Definition kfold (n k : nat) : option (list fold) :=
  if andb (Nat.leb 2 k) (Nat.leb k n) then
    Some (map (fun i =>
                 (filter (fun j => negb (Nat.eqb (Nat.modulo j k) i)) (seq 0 n),
                  filter (fun j => Nat.eqb (Nat.modulo j k) i) (seq 0 n)))
              (seq 0 k))
  else None.

(** Library functions that answer with fixed, well-formed values. *)
Definition libs : Libs :=
  mkLibs
    (fun _ _ => Some ([0; 0.5; 1], [0; 1; 1], [2; 1; 0])%float)
    (fun _ _ => Some 0.75%float)
    (fun _ _ => Some 0.5%float)
    (fun a => a)
    (fun _ _ x => x)
    (fun v => hd PrimFloat.nan v)
    kfold
    (fun ss => Some (mkSeries (flat_map s_index ss) (flat_map s_values ss) None)).

Definition outcome : string := "y".
Definition predictors : list string := ["x"%string].

End Sample.

(* ================================================================= *)
(** ** The grouped mean of pandas *)

Module Pandas.

Import Roc Sample.

(** The values of the series with their labels, one after the other, as
    [pd.concat] puts them. *)
Definition concat (ss : list Series) : list (label * float) :=
  flat_map (fun s => combine (s_index s) (s_values s)) ss.

(** The labels in ascending order, each once: the groups of
    [groupby(level=0)]. *)
Fixpoint insert_label (i : label) (l : list label) : list label :=
  match l with
  | [] => [i]
  | j :: rest =>
      if (i <? j)%Z then i :: l
      else if (i =? j)%Z then l
      else j :: insert_label i rest
  end.

Definition groups (ps : list (label * float)) : list label :=
  fold_right insert_label [] (map fst ps).

Definition mean (v : vector) : float :=
  (fold_left PrimFloat.add v 0 / of_nat (length v))%float.

(** [pd.concat(prob).groupby(level=0).agg(np.mean)]: one value for each
    label; there must be a series to concatenate. *)
Definition group_mean (ss : list Series) : option Series :=
  match ss with
  | [] => None
  | _ =>
      let ps := concat ss in
      Some (mkSeries (groups ps)
              (map (fun i => mean (map snd (filter (fun p => (fst p =? i)%Z) ps)))
                   (groups ps))
              None)
  end.

(** The sample libraries with this grouped mean. *)
Definition grouping_libs : Libs :=
  mkLibs (roc_curve Sample.libs) (auc Sample.libs) (accuracy_score Sample.libs)
         (np_round Sample.libs) (interp_at Sample.libs) (nanmean Sample.libs)
         (KFold Sample.libs) group_mean.

(** The sample rows, the first two under one identifier. *)
Definition repeated_ids : DataFrame :=
  [row 10%Z 0%float 1%float; row 10%Z 1%float 2%float;
   row 12%Z 0%float 3%float; row 13%Z 1%float 4%float].

End Pandas.

(* ================================================================= *)
(** ** [imm_cor.py]: treatment efficacy from proportional hazards *)

Module ImmCorPH.

Import NpFloat.

(** What [estTEPH] reads of a fitted [CoxPHFitter]: the row [coef] of
    [hazards_], the rows [lower-bound] and [upper-bound] of
    [confidence_intervals_], each by covariate name, and the array
    [_compute_p_values()] returns. *)
Record CoxFit : Type := mkCoxFit {
  hazards_coef : string -> t;
  lower_bound : string -> t;
  upper_bound : string -> t;
  p_values : list t
}.

(** A call either returns or raises; an exception is kept by its name. *)
Definition outcome (A : Type) : Type := (string + A)%type.

Section EstTEPH.

(** The frame is only handed to the fitter: any type of frames will do. *)
Variable Frame : Type.

(** [CoxPHFitter().fit(df[columns], duration_col=..., event_col=...)] *)
Variable coxph_fit : Frame -> list string -> string -> string -> outcome CoxFit.

Definition estTEPH (df : Frame)
    (treatment_col duration_col event_col : string) (covars : list string)
    : outcome (t * (t * t) * t) :=
  match coxph_fit df ([treatment_col; duration_col; event_col] ++ covars)
                  duration_col event_col with
  | inl e => inl e
  | inr coxphf =>
      let te := sub (Fin 1) (exp (hazards_coef coxphf treatment_col)) in
      let ci := (sub (Fin 1) (exp (upper_bound coxphf treatment_col)),
                 sub (Fin 1) (exp (lower_bound coxphf treatment_col))) in
      match p_values coxphf with
      | [] => inl "IndexError"%string
      | pvalue :: _ => inr (te, ci, pvalue)
      end
  end.

End EstTEPH.

(** A fitter that answers with the same fit on every frame. *)
Definition constant_fit (c : CoxFit)
    : unit -> list string -> string -> string -> outcome CoxFit :=
  fun _ _ _ _ => inr c.

Definition sample_fit : CoxFit :=
  mkCoxFit (fun _ => Fin (-1)) (fun _ => Fin (-2)) (fun _ => Fin 0)
           [Fin 0.04].

End ImmCorPH.

(* ================================================================= *)
(** ** [roc.py]: the parts of the functions, named *)

Module RocParts.

Import Roc.
Local Open Scope monad_scope.

(** The [try] block of [computeROC] on the rows without missing values. *)
Definition roc_try (L : Libs) (tmp : DataFrame) (model : Classifier)
    (outcomeVar : string) (predVars : list string)
    : M (vector * vector * float * float * option Fitted * ndarray) :=
  let X := X_of predVars tmp in
  let y := y_of outcomeVar tmp in
  results <- call_fit model X y ;;
  '(prob, results) <-
    match predict_proba results with
    | Some pp => p <- lift (column1 (pp X)) ;; ret (Arr1 p, results)
    | None => ret (predict results X, patch results)
    end ;;
  '(fpr, tpr, thresholds) <- lib (roc_curve L y prob) ;;
  acc <- lib (accuracy_score L y (np_round L prob)) ;;
  auc_ <- lib (auc L fpr tpr) ;;
  tpr <- lift (clamp tpr) ;;
  ret (fpr, tpr, auc_, acc, Some results, prob).

(** Its [except] block; the probabilities come from the frame as given. *)
Definition roc_except (df tmp : DataFrame) (outcomeVar : string)
    (predVars : list string)
    : M (vector * vector * float * float * option Fitted * ndarray) :=
  print (MsgPerfectSeparation outcomeVar (length tmp) (length predVars)) ;;;
  tpr <- lift (clamp (ones 5)) ;;
  ret (zeros 5, tpr, 1%float, 1%float, None, Arr1 (y_of outcomeVar df)).

(** What follows the [try] statement. *)
Definition roc_finish (tmp : DataFrame)
    (v : vector * vector * float * float * option Fitted * ndarray)
    : M ROCResult :=
  let '(fpr, tpr, auc_, acc, results, prob) := v in
  assert_ (acc <=? 1)%float ;;;
  prob <- lift (new_series prob (index_of tmp) (Some Prob)) ;;
  ret (mkROC fpr tpr auc_ acc results prob).

(** A classifier whose [fit] fails for a reason other than perfect
    separation. *)
Definition broken : Classifier :=
  mkClassifier (fun _ _ => inl (OtherError "LinAlgError")).

End RocParts.

(* ================================================================= *)
(** ** [roc.py]: what the folds of [computeLOOROC] leave behind *)

Module RocLOOParts.

Import Roc.

(** The probability interface of a fitted object after
    [if not hasattr(res, 'predict_proba'): res.predict_proba = res.predict]. *)
Definition proba_of (res : Fitted) : matrix -> ndarray :=
  match predict_proba res with
  | Some pp => pp
  | None => predict res
  end.

Section Folds.

Variables (tmp : DataFrame) (model : Classifier)
          (ov : string) (pv : list string) (wholeProb : vector).

(** What the loop of [computeLOOROC] does with fold [f] at position [i].
    The probability of a fold that did not fail is read from the object as
    [fit] returned it for this fold, before any later call of [fit]: a
    classifier whose [fit] returns [self] refitted in place leaves the same
    object at every position of the results, so nothing is said of the
    entry of the list beyond its being [None] or not. *)
Definition fold_outcome (i : nat) (f : fold) (st st' : LOOState)
    (res : option Fitted) : Prop :=
  lo_results st' = lo_results st ++ [res] /\
  (res = None <-> fold_fails tmp model ov pv f) /\
  (res = None -> nth_error (lo_prob st') i = nth_error wholeProb i) /\
  (res <> None ->
     exists trainDf fitted testDf p,
       iloc tmp (fst f) = inr trainDf /\
       fit model (X_of pv trainDf) (y_of ov trainDf) = inr fitted /\
       iloc tmp (snd f) = inr testDf /\
       item01 (proba_of fitted (X_of pv testDf)) = inr p /\
       nth_error (lo_prob st') i = Some p).

(** What the loop knows of the fold at position [i + j] when it ends. *)
Definition fold_record (i : nat) (st' : LOOState) (j : nat) (f : fold)
    (res : option Fitted) : Prop :=
  (res = None <-> fold_fails tmp model ov pv f) /\
  (res = None -> nth_error (lo_prob st') (i + j) = nth_error wholeProb (i + j)) /\
  (res <> None ->
     exists trainDf fitted testDf p,
       iloc tmp (fst f) = inr trainDf /\
       fit model (X_of pv trainDf) (y_of ov trainDf) = inr fitted /\
       iloc tmp (snd f) = inr testDf /\
       item01 (proba_of fitted (X_of pv testDf)) = inr p /\
       nth_error (lo_prob st') (i + j) = Some p).

End Folds.

(** Three rows: the classifier that needs three rows converges on all of
    them and on no two of them. *)
Definition three_rows : DataFrame := firstn 3 Sample.frame.

End RocLOOParts.

(* ================================================================= *)
(** ** [roc.py]: [plotROC] and [plotCVROC] *)

Module RocPlot.

Import Roc.
Local Open Scope monad_scope.

(** The texts the plotting functions build with the [%] operator, with the
    values formatted into them. *)
Inductive text : Type :=
| Str (s : string)
(** ['Model %d' % i] *)
| ModelLabel (i : nat)
(** ['%s (AUC = %0.2f; ACC = %0.2f)' % (label, auc, acc)], and with [AUC*]
    and [ACC*] when [starred] *)
| Scored (starred : bool) (label : text) (auc_ acc_ : float)
(** ['ROC for %s' % outcomeVar] *)
| RocFor (outcomeVar : string).

(** The calls of [matplotlib.pyplot], in program order.  A curve is drawn
    in the colour at a position of the palette. *)
Inductive draw : Type :=
| Clf
| AspectEqual
| PlotCurve (fpr tpr : vector) (color : nat) (label : text)
| PlotChance
| XLim
| YLim
| XLabel
| YLabel
| Title (t : text)
| Legend
| Show.

Definition canvas : Type := list draw.

(** Iterating over [None] *)
Definition TypeError : exn := OtherError "TypeError".

(** [palettable.colorbrewer.qualitative.Set1_8.mpl_colors] has eight
    colours. *)
Definition colors : list nat := seq 0 8.

(** [zip] of three lists stops at the shortest. *)
Fixpoint zip3 {A B C} (a : list A) (b : list B) (c : list C)
    : list (A * B * C) :=
  match a, b, c with
  | x :: a', y :: b', z :: c' => (x, y, z) :: zip3 a' b' c'
  | _, _, _ => []
  end.

(** The labels of [plotROC]: the default ones when no label, AUC or
    accuracy is given, else the [zip] of the three, which must all be
    lists. *)
Definition curve_labels (n : nat) (labelL : option (list text))
    (aucL accL : option (list float)) : result (list text) :=
  match labelL, aucL, accL with
  | None, None, None => inr (map ModelLabel (seq 0 n))
  | Some labelL, Some aucL, Some accL =>
      inr (map (fun '(label, auc_, acc_) => Scored false label auc_ acc_)
               (zip3 labelL aucL accL))
  | _, _, _ => inl TypeError
  end.

(** The loop of [plotROC]: [colors[i]] is read before [plt.plot] is
    called, which rejects arrays of different lengths. *)
Fixpoint plot_curves (i : nat) (curves : list (vector * vector * text))
    (cv : canvas) : result unit * canvas :=
  match curves with
  | [] => (inr tt, cv)
  | (fpr, tpr, label) :: rest =>
      match nth_item colors i with
      | inl e => (inl e, cv)
      | inr color =>
          if Nat.eqb (length fpr) (length tpr)
          then plot_curves (S i) rest (cv ++ [PlotCurve fpr tpr color label])
          else (inl ValueError, cv)
      end
  end.

Definition plotROC (fprL tprL : list vector) (aucL accL : option (list float))
    (labelL : option (list text)) (outcomeVar : string) (cv : canvas)
    : result unit * canvas :=
  match curve_labels (length fprL) labelL aucL accL with
  | inl e => (inl e, cv)
  | inr labelL =>
      match plot_curves 0 (zip3 fprL tprL labelL) (cv ++ [Clf; AspectEqual]) with
      | (inl e, cv') => (inl e, cv')
      | (inr _, cv') =>
          (inr tt,
           cv' ++ [PlotChance; XLim; YLim; XLabel; YLabel;
                   Title (if String.eqb outcomeVar "" then Str "ROC"
                          else RocFor outcomeVar);
                   Legend; Show])
      end
  end.

(** What a function given as [rocFunc] returns: the six values of
    [computeROC] or the seven of the resampling functions. *)
Inductive roc_out : Type :=
| Six (r : ROCResult)
| Seven (r : CVResult).

(** [rocFunc] with its keyword arguments. *)
Definition RocFunc : Type :=
  DataFrame -> Classifier -> string -> list string -> M roc_out.

Section PlotCVROC.

Variables (rocFunc : RocFunc) (df : DataFrame) (model : Classifier)
          (outcomeVar : string) (predictorLabels : list string).

(** The loop of [plotCVROC] over the sets of predictors; unpacking six
    values into seven names raises [ValueError]. *)
Fixpoint roc_loop (predVarsi : nat) (predictorsList : list (list string))
    (lists : list vector * list vector * list text)
    : M (list vector * list vector * list text) :=
  match predictorsList with
  | [] => ret lists
  | predVars :: rest =>
      let '(fprList, tprList, labelList) := lists in
      out <- rocFunc df model outcomeVar predVars ;;
      r <- match out with
           | Seven r => ret r
           | Six _ => raise ValueError
           end ;;
      name <- lift (nth_item predictorLabels predVarsi) ;;
      let label := Scored (negb (cv_success r)) (Str name) (cv_auc r) (cv_acc r) in
      roc_loop (S predVarsi) rest
        (fprList ++ [cv_fpr r], tprList ++ [cv_tpr r], labelList ++ [label])
  end.

End PlotCVROC.

Definition plotCVROC (df : DataFrame) (model : Classifier)
    (outcomeVar : string) (predictorsList : list (list string))
    (predictorLabels : option (list string)) (rocFunc : RocFunc)
    (s : trace) (cv : canvas) : result unit * trace * canvas :=
  let predictorLabels :=
    match predictorLabels with
    | None => map (String.concat " + ") predictorsList
    | Some labels => labels
    end in
  match roc_loop rocFunc df model outcomeVar predictorLabels 0 predictorsList
                 ([], [], []) s with
  | (inl e, s') => (inl e, s', cv)
  | (inr (fprList, tprList, labelList), s') =>
      let '(r, cv') := plotROC fprList tprList None None (Some labelList) "" cv in
      (r, s', cv')
  end.

(** The resampling functions as [rocFunc]. *)
Definition loo_func (L : Libs) : RocFunc :=
  fun df model ov pv => r <- computeLOOROC L df model ov pv ;; ret (Seven r).

Definition cv_func (L : Libs) (nFolds : nat) : RocFunc :=
  fun df model ov pv => r <- computeCVROC L df model ov pv nFolds ;; ret (Seven r).

Definition roc_func (L : Libs) : RocFunc :=
  fun df model ov pv => r <- computeROC L df model ov pv ;; ret (Six r).

(** The calls that draw the curves [l], the first one in the colour at
    position [i]. *)
Definition curve_calls (i : nat) (l : list (vector * vector * text)) : canvas :=
  map (fun '(k, (fpr, tpr, label)) => PlotCurve fpr tpr k label)
      (combine (seq i (length l)) l).

(** The calls of [plotROC] after its loop. *)
Definition decorations (outcomeVar : string) : canvas :=
  [PlotChance; XLim; YLim; XLabel; YLabel;
   Title (if String.eqb outcomeVar "" then Str "ROC" else RocFor outcomeVar);
   Legend; Show].

(** A curve whose arrays have one length. *)
Definition well_formed (c : vector * vector * text) : Prop :=
  length (fst (fst c)) = length (snd (fst c)).

(** The number of curves on a canvas. *)
Definition curves (cv : canvas) : nat :=
  length (filter (fun d => match d with PlotCurve _ _ _ _ => true | _ => false end) cv).

End RocPlot.

(* ================================================================= *)
(** ** [roc.py]: [smLogisticRegression] *)

Module RocSM.

Import Roc.

(** What [sm.GLM(endog, exog, family=Binomial()).fit()] returns: a fitted
    model, whose [predict(exog)] is the mean it gives to each row of
    [exog]. *)
Record GLMResults : Type := mkGLM { mu : list float -> float }.

Definition glm_predict (res : GLMResults) (exog : matrix) : vector :=
  map (mu res) exog.

(** [sm.GLM(endog=y, exog=exog, family=sm.families.Binomial()).fit()]
    returns the results or raises. *)
Definition GLM : Type := vector -> matrix -> result GLMResults.

(** [sm.add_constant(X, has_constant='add')]: a column of ones before the
    others, whether or not there is a constant column already. *)
Definition add_constant (X : matrix) : matrix :=
  map (fun row => 1%float :: row) X.

Definition exog_of (fit_intercept : bool) (X : matrix) : matrix :=
  if fit_intercept then add_constant X else X.

(** [a[:, j] = col] on an array kept as the list of its rows; [col] has one
    value for each row. *)
Definition assign_column (j : nat) (a : matrix) (col : vector) : matrix :=
  map (fun '(row, x) => firstn j row ++ x :: skipn (S j) row) (combine a col).

Section Fitted.

(** The object after [fit]: [self.fit_intercept] and [self.res]. *)
Variables (fit_intercept : bool) (res : GLMResults).

Definition sm_predict (X : matrix) : vector :=
  let exog := exog_of fit_intercept X in
  glm_predict res exog.

Definition sm_predict_proba (X : matrix) : matrix :=
  let prob := repeat [0; 0]%float (length X) in
  let prob := assign_column 0 prob (map (fun p => (1 - p)%float) (sm_predict X)) in
  let prob := assign_column 1 prob (sm_predict X) in
  prob.

Definition fitted : Fitted :=
  mkFitted (Some (fun X => Arr2 (sm_predict_proba X)))
           (fun X => Arr1 (sm_predict X)).

End Fitted.

(** The class as a classifier: [fit] returns the object itself, fitted. *)
Definition smLogisticRegression (glm : GLM) (fit_intercept : bool) : Classifier :=
  mkClassifier
    (fun X y =>
       let exog := exog_of fit_intercept X in
       match glm y exog with
       | inl e => inl e
       | inr res => inr (fitted fit_intercept res)
       end).

(** A model whose mean is a half for every row, and one that does not
    converge on fewer than three rows. *)
Definition half : GLMResults := mkGLM (fun _ => 0.5%float).

Definition sample_glm : GLM :=
  fun y exog => if Nat.ltb (length exog) 3 then inl PerfectSeparationError
                else inr half.

End RocSM.

(* ================================================================= *)
(** ** [roc.py]: libraries that answer with a NaN *)

Module RocNaN.

Import Roc Sample.

(** The sample libraries with an accuracy score that is not a number. *)
Definition nan_libs : Libs :=
  mkLibs (roc_curve libs) (auc libs) (fun _ _ => Some PrimFloat.nan)
         (np_round libs) (interp_at libs) (nanmean libs) (KFold libs)
         (concat_group_mean libs).

End RocNaN.

(* ================================================================= *)
(** ** [roc.py]: what a call of [computeROC] leaves on the trace *)

Module RocTrace.

Import Roc.

(** The events of [computeROC] on a frame without missing values: the
    fit, and the diagnostic line when it raises the perfect-separation
    error. *)
Definition roc_events (model : Classifier) (ov : string) (pv : list string)
    (tmp : DataFrame) : trace :=
  Fit (X_of pv tmp) (y_of ov tmp) ::
  match fit model (X_of pv tmp) (y_of ov tmp) with
  | inl PerfectSeparationError =>
      [Print (MsgPerfectSeparation ov (length tmp) (length pv))]
  | _ => []
  end.

(** The events of a fold of [computeCVROC]: those of [computeROC] on its
    training rows. *)
Definition fold_events (tmp : DataFrame) (model : Classifier) (ov : string)
    (pv : list string) (f : fold) : trace :=
  match iloc tmp (fst f) with
  | inr trainDf => roc_events model ov pv trainDf
  | inl _ => []
  end.

(** The fits of a cross-validation in which no fold fails. *)
Definition training_fits (tmp : DataFrame) (ov : string) (pv : list string)
    (cv : list fold) : trace :=
  flat_map (fun f => match iloc tmp (fst f) with
                     | inr trainDf => [Fit (X_of pv trainDf) (y_of ov trainDf)]
                     | inl _ => []
                     end) cv.

End RocTrace.

(* ================================================================= *)
(** ** [roc.py]: [lassoVarSelect] *)

Module RocLasso.

Import Roc.
Local Open Scope monad_scope.

(** A fitted [Lasso] or [LassoCV]: its coefficients and [predict]. *)
Record LassoFit : Type := mkLassoFit {
  coef_ : vector;
  lasso_predict : matrix -> ndarray
}.

(** The argument [cv] of [LassoCV]: a number of folds, or the folds of
    [LeaveOneOut]. *)
Inductive CVArg : Type :=
| Folds (nFolds : nat)
| Splits (cv : list fold).

(** The functions of scikit-learn and numpy that [lassoVarSelect] calls. *)
Record LassoLibs : Type := mkLassoLibs {
  (** [Lasso(alpha=alpha).fit(y=y, X=X)] *)
  Lasso_fit : float -> matrix -> vector -> result LassoFit;
  (** [LassoCV(cv=cv).fit(y=y, X=X)], with the [alpha_] it selects *)
  LassoCV_fit : CVArg -> matrix -> vector -> result (LassoFit * float);
  (** [np.abs(X.T.dot(y)).max()] on the frame and the series of pandas *)
  abs_dot_max : matrix -> vector -> float
}.

(** What [lassoVarSelect] returns: fpr, tpr, auc, acc, results, prob,
    varList, alpha. *)
Record LassoResult : Type := mkLassoResult {
  l_fpr : vector;
  l_tpr : vector;
  l_auc : float;
  l_acc : float;
  l_results : LassoFit;
  l_prob : Series;
  l_varList : list string;
  l_alpha : float
}.

(** [np.array(predVars)[coef != 0].tolist()]: the mask must be as long as
    the array. *)
Definition select (predVars : list string) (coef : vector)
    : result (list string) :=
  if Nat.eqb (length coef) (length predVars)
  then inr (map fst (filter (fun nc => nonzero (snd nc)) (combine predVars coef)))
  else inl IndexError.

Section LassoVarSelect.

Variables (L : Libs) (K : LassoLibs).

(** The fitted model and [model.alpha_] or, for want of it,
    [model.alpha]. *)
Definition lasso_model (tmp : DataFrame) (outcomeVar : string)
    (predVars : list string) (nFolds : nat) (LOO : bool) (alpha : option float)
    : result (LassoFit * float) :=
  let X := X_of predVars tmp in
  let y := y_of outcomeVar tmp in
  if orb (Nat.eqb nFolds 1)
         (match alpha with Some _ => true | None => false end)
  then
    let alpha :=
      match alpha with
      | Some a => a
      | None => (abs_dot_max K X y / of_nat (length tmp))%float
      end in
    match Lasso_fit K alpha X y with
    | inl e => inl e
    | inr results => inr (results, alpha)
    end
  else
    let cv := if LOO then Splits (LeaveOneOut (length tmp)) else Folds nFolds in
    LassoCV_fit K cv X y.

Definition lassoVarSelect (df : DataFrame) (outcomeVar : string)
    (predVars : list string) (nFolds : nat) (LOO : bool) (alpha : option float)
    : result LassoResult :=
  let tmp := dropna (outcomeVar :: predVars) df in
  let X := X_of predVars tmp in
  let y := y_of outcomeVar tmp in
  match lasso_model tmp outcomeVar predVars nFolds LOO alpha with
  | inl e => inl e
  | inr (results, optimalAlpha) =>
      let prob := lasso_predict results X in
      match roc_curve L y prob with
      | None => inl ValueError
      | Some (fpr, tpr, thresholds) =>
          match accuracy_score L y (np_round L prob) with
          | None => inl ValueError
          | Some acc =>
              match auc L fpr tpr with
              | None => inl ValueError
              | Some auc_ =>
                  match select predVars (coef_ results) with
                  | inl e => inl e
                  | inr varList =>
                      match new_series prob (index_of tmp) (Some Prob) with
                      | inl e => inl e
                      | inr probS =>
                          inr (mkLassoResult fpr tpr auc_ acc results probS
                                             varList optimalAlpha)
                      end
                  end
              end
          end
      end
  end.

End LassoVarSelect.

(** A lasso that keeps the first of two predictors. *)
Definition first_only : LassoFit :=
  mkLassoFit [0.25; 0]%float (fun X => Arr1 (map (fun _ => 0.5%float) X)).

Definition sample_lasso : LassoLibs :=
  mkLassoLibs (fun _ _ _ => inr first_only)
              (fun _ _ _ => inr (first_only, 0.125%float))
              (fun _ _ => 1%float).

(** The sample rows carry the predictor [x] and no other: a frame with a
    second predictor [z]. *)
Definition row2 (i : label) (y x z : float) : Row :=
  mkRow i (fun c => if String.eqb c "y" then y
                    else if String.eqb c "x" then x
                    else if String.eqb c "z" then z
                    else PrimFloat.nan).

Definition frame2 : DataFrame :=
  [row2 1%Z 0%float 1%float 5%float; row2 2%Z 1%float 2%float 6%float;
   row2 3%Z 0%float 3%float PrimFloat.nan].

End RocLasso.

(* ================================================================= *)
(** ** Facts about [imm_cor.py] *)

Module ImmCorFacts.

Import NpFloat ImmCor.
Local Open Scope R_scope.

Local Abbreviation tcol := default_treatment_col.
Local Abbreviation ecol := default_event_col.

(** *** The cells of the table *)

Lemma cell_rows_in_cell df tc ec tv ev :
  cell df tc ec tv ev = Z.of_nat (rows_in_cell df tc ec tv ev).
Proof.
  unfold cell, rows_in_cell, column, eq_scalar, and_vec, sum_vec.
  induction df as [|r df IH]; [reflexivity|].
  cbn [map combine fold_right filter fst snd].
  rewrite IH.
  destruct ((r tc =? tv)%Z && (r ec =? ev)%Z); cbn [length]; lia.
Qed.

Lemma cell_nonneg df tc ec tv ev : (0 <= cell df tc ec tv ev)%Z.
Proof. rewrite cell_rows_in_cell. lia. Qed.

Lemma rows_in_cell_app df1 df2 tc ec tv ev :
  rows_in_cell (df1 ++ df2) tc ec tv ev =
  (rows_in_cell df1 tc ec tv ev + rows_in_cell df2 tc ec tv ev)%nat.
Proof. unfold rows_in_cell. now rewrite filter_app, length_app. Qed.

Lemma rows_in_cell_repeat tv' ev' n tv ev :
  rows_in_cell (repeat (mk_row tv' ev') n)
               default_treatment_col default_event_col tv ev =
  if andb (Z.eqb tv' tv) (Z.eqb ev' ev) then n else 0%nat.
Proof.
  unfold rows_in_cell.
  induction n as [|n IH]; cbn [repeat filter].
  - now destruct (_ && _).
  - change (mk_row tv' ev' default_treatment_col) with tv' in *.
    change (mk_row tv' ev' default_event_col) with ev' in *.
    destruct ((tv' =? tv)%Z && (ev' =? ev)%Z); cbn [length]; now rewrite IH.
Qed.

Lemma cell_table_frame a b c d :
  let df := table_frame a b c d in
  cell df default_treatment_col default_event_col 1 1 = Z.of_nat a /\
  cell df default_treatment_col default_event_col 1 0 = Z.of_nat b /\
  cell df default_treatment_col default_event_col 0 1 = Z.of_nat c /\
  cell df default_treatment_col default_event_col 0 0 = Z.of_nat d.
Proof.
  cbv zeta. unfold table_frame.
  rewrite !cell_rows_in_cell, !rows_in_cell_app, !rows_in_cell_repeat.
  cbn [Z.eqb Pos.eqb andb]. repeat split; f_equal; lia.
Qed.

(** *** Arithmetic on finite values *)

Lemma div_fin (x y : R) : y <> 0 -> div (Fin x) (Fin y) = Fin (x / y).
Proof. intros H. unfold div. now destruct (Req_dec_T y 0). Qed.

Lemma div_zero (x : R) :
  0 <= x -> div (Fin x) (Fin 0) = PInf \/ div (Fin x) (Fin 0) = NaN.
Proof.
  intros H. unfold div. destruct (Req_dec_T 0 0) as [_|N]; [|now elim N].
  destruct (Rlt_dec 0 x); [now left|].
  destruct (Rlt_dec x 0); [lra|now right].
Qed.

Lemma sqrt_fin (x : R) : 0 <= x -> sqrt (Fin x) = Fin (R_sqrt.sqrt x).
Proof. intros H. unfold sqrt. destruct (Rlt_dec x 0); [lra|reflexivity]. Qed.

Lemma log_fin (x : R) : 0 < x -> log (Fin x) = Fin (ln x).
Proof.
  intros H. unfold log. destruct (Rlt_dec x 0); [lra|].
  destruct (Req_dec_T x 0); [lra|reflexivity].
Qed.

Lemma RR_pos a b c d :
  (0 < a)%Z -> (0 <= b)%Z -> (0 < c)%Z -> (0 <= d)%Z -> 0 < RR a b c d.
Proof.
  intros Ha Hb Hc Hd. unfold RR.
  apply IZR_lt in Ha, Hc. apply IZR_le in Hb, Hd.
  apply Rdiv_lt_0_compat; apply Rdiv_lt_0_compat; lra.
Qed.

Lemma radicand_nonneg a b c d :
  (0 < a)%Z -> (0 <= b)%Z -> (0 < c)%Z -> (0 <= d)%Z ->
  0 <= IZR b / (IZR a * (IZR a + IZR b)) + IZR d / (IZR c * (IZR c + IZR d)).
Proof.
  intros Ha Hb Hc Hd.
  apply IZR_lt in Ha, Hc. apply IZR_le in Hb, Hd.
  apply Rplus_le_le_0_compat; apply Rmult_le_pos; try lra;
    left; apply Rinv_0_lt_compat; nra.
Qed.

(** The value of [estTECI] on a table whose event cells are not empty. *)
Lemma estTECI_positive ft df tc ec :
  let a := cell df tc ec 1 1 in
  let b := cell df tc ec 1 0 in
  let c := cell df tc ec 0 1 in
  let d := cell df tc ec 0 0 in
  (0 < a)%Z -> (0 < c)%Z ->
  estTECI ft df tc ec =
  (Fin (1 - RR a b c d),
   (Fin (1 - Rtrigo_def.exp (ln (RR a b c d) + SE a b c d * 1.96)),
    Fin (1 - Rtrigo_def.exp (ln (RR a b c d) - SE a b c d * 1.96))),
   snd (ft a b c d)).
Proof.
  intros a b c d Ha Hc.
  assert (Hb : (0 <= b)%Z) by apply cell_nonneg.
  assert (Hd : (0 <= d)%Z) by apply cell_nonneg.
  pose proof (RR_pos a b c d Ha Hb Hc Hd) as Hrr.
  pose proof (radicand_nonneg a b c d Ha Hb Hc Hd) as Hrad.
  unfold estTECI. fold a b c d. cbv zeta. unfold of_Z.
  assert (Ha' := IZR_lt _ _ Ha). assert (Hc' := IZR_lt _ _ Hc).
  assert (Hb' := IZR_le _ _ Hb). assert (Hd' := IZR_le _ _ Hd).
  rewrite !plus_IZR, !mult_IZR, !plus_IZR.
  rewrite (div_fin (IZR a)) by lra.
  rewrite (div_fin (IZR c)) by lra.
  rewrite (div_fin (IZR b)) by nra.
  rewrite (div_fin (IZR d)) by nra.
  rewrite div_fin.
  2:{ apply Rgt_not_eq. apply Rdiv_lt_0_compat; lra. }
  fold (RR a b c d).
  cbn [add]. rewrite sqrt_fin by exact Hrad. fold (SE a b c d).
  rewrite log_fin by exact Hrr.
  cbn [mul add sub neg exp].
  repeat f_equal; lra.
Qed.

(** *** Bounds on the exponential *)

(** Squaring a lower bound of [exp y] gives one of [exp (2 y)]. *)
Lemma exp_square_lower (y l l' : R) :
  0 <= l -> l <= Rtrigo_def.exp y -> l' <= l * l -> l' <= Rtrigo_def.exp (2 * y).
Proof.
  intros Hl Hle Hsq.
  replace (2 * y) with (y + y) by lra. rewrite exp_plus.
  apply Rle_trans with (l * l); [exact Hsq|].
  apply Rmult_le_compat; assumption.
Qed.

(** [square H l'] turns the bound [H : l <= exp y] into [H : l' <= exp (2 y)]
    for a rational [l'] below the square of [l]; [finish H] closes a goal
    [l <= exp z] with [H : l <= exp (2 (2 (... (z / 2^k))))]. *)
Ltac square H l' :=
  match type of H with
  | ?l <= Rtrigo_def.exp ?y =>
      let H' := fresh in
      assert (H' : l' <= Rtrigo_def.exp (2 * y))
        by (apply (exp_square_lower y l); [lra | exact H | lra]);
      clear H; rename H' into H
  end.

Ltac finish H :=
  match type of H with
  | _ <= Rtrigo_def.exp ?e =>
      match goal with
      | |- _ <= Rtrigo_def.exp ?z => replace z with e by lra; exact H
      end
  end.

(** From [1 + z / 4096 <= exp (z / 4096)], squared twelve times. *)
Lemma exp_lower_at_xl : 2.270147354440 <= Rtrigo_def.exp (0.8199268).
Proof.
  pose proof (exp_ineq1_le ((0.8199268) / 4096)) as H.
  square H 1.000400394953. square H 1.000800950222. square H 1.001602541965.
  square H 1.003207652070. square H 1.006425593171. square H 1.012892474589.
  square H 1.025951165079. square H 1.052575793126. square H 1.107915800274.
  square H 1.227477420496. square H 1.506700817827. square H 2.270147354440.
  finish H.
Qed.

(** The same below zero, for an upper bound of [exp 0.8199464]. *)
Lemma exp_lower_at_neg_xh : 0.440419109801 <= Rtrigo_def.exp (- 0.8199464).
Proof.
  pose proof (exp_ineq1_le ((- 0.8199464) / 4096)) as H.
  square H 0.999599675619. square H 0.999199511497. square H 0.998399663775.
  square H 0.996801888626. square H 0.993614005168. square H 0.987268791265.
  square H 0.974699666205. square H 0.950039439300. square H 0.902574936225.
  square H 0.814641515501. square H 0.663640798777. square H 0.440419109801.
  finish H.
Qed.

(** *** The table 8, 2, 4, 6 *)

Lemma SE_example : 0.41833 < SE 8 2 4 6 < 0.41834.
Proof.
  unfold SE.
  replace (2 / (8 * (8 + 2)) + 6 / (4 * (4 + 6))) with 0.175 by lra.
  split.
  - rewrite <- (sqrt_square 0.41833) by lra.
    apply sqrt_lt_1_alt. lra.
  - rewrite <- (sqrt_square 0.41834) by lra.
    apply sqrt_lt_1_alt. lra.
Qed.

Lemma RR_example : RR 8 2 4 6 = 2.
Proof. unfold RR. lra. Qed.

Lemma exp_le (x y : R) : x <= y -> Rtrigo_def.exp x <= Rtrigo_def.exp y.
Proof.
  intros [H|H]; [left; now apply exp_increasing | subst; apply Rle_refl].
Qed.

(** The interval of the example. *)
Lemma ci_example :
  let lo := 1 - Rtrigo_def.exp (ln (RR 8 2 4 6) + SE 8 2 4 6 * 1.96) in
  let hi := 1 - Rtrigo_def.exp (ln (RR 8 2 4 6) - SE 8 2 4 6 * 1.96) in
  -3.542 < lo < -3.540 /\ 0.1189 < hi < 0.1192.
Proof.
  cbv zeta. rewrite RR_example.
  pose proof SE_example as [Hs1 Hs2].
  replace (ln 2 - SE 8 2 4 6 * 1.96) with (ln 2 + - (SE 8 2 4 6 * 1.96)) by lra.
  rewrite !exp_plus, exp_ln by lra.
  set (x := SE 8 2 4 6 * 1.96) in *.
  assert (Hx1 : 0.8199268 <= x) by (unfold x; lra).
  assert (Hx2 : x <= 0.8199464) by (unfold x; lra).
  pose proof (Rle_trans _ _ _ exp_lower_at_xl (exp_le _ _ Hx1)) as HA.
  assert (Hx3 : - 0.8199464 <= - x) by lra.
  pose proof (Rle_trans _ _ _ exp_lower_at_neg_xh (exp_le _ _ Hx3)) as HB.
  assert (Hinv : Rtrigo_def.exp x * Rtrigo_def.exp (- x) = 1).
  { rewrite <- exp_plus. replace (x + - x) with 0 by lra. apply exp_0. }
  set (u := Rtrigo_def.exp x) in *. set (v := Rtrigo_def.exp (- x)) in *.
  assert (Hu : u < 2.2706) by nra.
  assert (Hv : v < 0.44055) by nra.
  lra.
Qed.

(** *** Tables with an empty cell *)

Lemma div_count_zero (z : Z) :
  (0 <= z)%Z -> inf_or_nan (div (of_Z z) (of_Z 0)).
Proof. intros H. apply div_zero. now apply IZR_le. Qed.

Lemma div_counts (z m : Z) :
  (0 <= z)%Z -> (0 <= m)%Z ->
  (exists x, div (of_Z z) (of_Z m) = Fin x) \/ inf_or_nan (div (of_Z z) (of_Z m)).
Proof.
  intros Hz Hm. destruct (Z.eq_dec m 0) as [->|Hne].
  - right. now apply div_count_zero.
  - left. exists (IZR z / IZR m). apply div_fin.
    intros H. apply eq_IZR in H. contradiction.
Qed.

Lemma add_inf_or_nan_l (u v : t) :
  inf_or_nan u -> ((exists x, v = Fin x) \/ inf_or_nan v) -> inf_or_nan (add u v).
Proof.
  intros [->| ->] [[x ->]|[->| ->]]; cbn; unfold inf_or_nan; auto.
Qed.

Lemma add_inf_or_nan_r (u v : t) :
  ((exists x, u = Fin x) \/ inf_or_nan u) -> inf_or_nan v -> inf_or_nan (add u v).
Proof.
  intros [[x ->]|[->| ->]] [->| ->]; cbn; unfold inf_or_nan; auto.
Qed.

Lemma sqrt_inf_or_nan (v : t) : inf_or_nan v -> inf_or_nan (sqrt v).
Proof. intros [->| ->]; cbn; unfold inf_or_nan; auto. Qed.

Lemma mul_inf_or_nan (v : t) : inf_or_nan v -> inf_or_nan (mul v (Fin 1.96)).
Proof.
  intros [->| ->]; cbn; unfold inf_or_nan, scale_inf; auto.
  destruct (Rlt_dec 0 1.96); [auto|lra].
Qed.

Lemma add_any_inf_or_nan (w v : t) : inf_or_nan v -> inf_or_nan (add w v).
Proof.
  intros [->| ->]; destruct w; cbn; unfold inf_or_nan; auto.
Qed.

Lemma lower_bound_not_finite (w v : t) :
  inf_or_nan v -> is_finite (sub (Fin 1) (exp (add w v))) = false.
Proof.
  intros H. destruct (add_any_inf_or_nan w v H) as [->| ->]; reflexivity.
Qed.

Lemma std_err_degenerate (a b c d : Z) :
  (0 <= a)%Z -> (0 <= b)%Z -> (0 <= c)%Z -> (0 <= d)%Z ->
  (a = 0 \/ a + b = 0 \/ c = 0 \/ c + d = 0)%Z ->
  inf_or_nan (sqrt (add (div (of_Z b) (of_Z (a * (a + b))))
                        (div (of_Z d) (of_Z (c * (c + d)))))).
Proof.
  intros Ha Hb Hc Hd H. apply sqrt_inf_or_nan.
  assert (Hab : (a * (a + b) = 0 \/ c * (c + d) = 0)%Z) by nia.
  destruct Hab as [E|E]; rewrite E.
  - apply add_inf_or_nan_l; [now apply div_count_zero|].
    apply div_counts; nia.
  - apply add_inf_or_nan_r; [|now apply div_count_zero].
    apply div_counts; nia.
Qed.

(** The value of [estTECI] on the table 8, 2, 4, 6. *)
Lemma estTECI_example ft :
  estTECI ft (table_frame 8 2 4 6) tcol ecol =
  (Fin (-1),
   (Fin (1 - Rtrigo_def.exp (ln (RR 8 2 4 6) + SE 8 2 4 6 * 1.96)),
    Fin (1 - Rtrigo_def.exp (ln (RR 8 2 4 6) - SE 8 2 4 6 * 1.96))),
   snd (ft 8 2 4 6)%Z).
Proof.
  destruct (cell_table_frame 8 2 4 6) as (Ea & Eb & Ec & Ed).
  cbn [Z.of_nat Pos.of_succ_nat Pos.succ] in Ea, Eb, Ec, Ed.
  pose proof (estTECI_positive ft (table_frame 8 2 4 6) tcol ecol) as H.
  cbv zeta in H. rewrite Ea, Eb, Ec, Ed in H.
  rewrite (H eq_refl eq_refl). rewrite RR_example at 1.
  replace (1 - 2) with (-1) by lra. reflexivity.
Qed.

(** C4 (as amended).  On every table [estTECI] returns one minus the relative
    risk and one minus the exponential of [log RR + 1.96 SE] and of
    [log RR - 1.96 SE], in numpy's arithmetic; when the event cells [a] and
    [c] are not empty these are the real numbers [1 - RR] and
    [1 - exp (ln RR +/- 1.96 SE)] with [RR = (a/(a+b))/(c/(c+d))] and
    [SE = sqrt (b/(a(a+b)) + d/(c(c+d)))]; on the table 8, 2, 4, 6 the
    estimate is -1 and the interval is [-3.54, 0.119] to three digits. *)
Theorem estTECI_formula :
  (forall ft df tc ec,
     let a := cell df tc ec 1 1 in
     let b := cell df tc ec 1 0 in
     let c := cell df tc ec 0 1 in
     let d := cell df tc ec 0 0 in
     estTECI ft df tc ec =
     (sub (Fin 1) (rel_risk a b c d),
      (sub (Fin 1) (exp (add (log (rel_risk a b c d))
                             (mul (std_err a b c d) (Fin 1.96)))),
       sub (Fin 1) (exp (sub (log (rel_risk a b c d))
                             (mul (std_err a b c d) (Fin 1.96))))),
      snd (ft a b c d)) /\
     ((0 < a)%Z -> (0 < c)%Z ->
      estTECI ft df tc ec =
      (Fin (1 - RR a b c d),
       (Fin (1 - Rtrigo_def.exp (ln (RR a b c d) + SE a b c d * 1.96)),
        Fin (1 - Rtrigo_def.exp (ln (RR a b c d) - SE a b c d * 1.96))),
       snd (ft a b c d)))) /\
  (forall ft, exists lo hi,
     estTECI ft (table_frame 8 2 4 6) tcol ecol =
     (Fin (-1), (Fin lo, Fin hi), snd (ft 8 2 4 6)%Z) /\
     -3.542 < lo < -3.540 /\ 0.1189 < hi < 0.1192).
Proof.
  split.
  - intros ft df tc ec a b c d. split; [reflexivity|].
    apply estTECI_positive.
  - intros ft. eexists _, _. split; [apply estTECI_example|exact ci_example].
Qed.

(** The table with one row in each cell. *)
Lemma estTECI_formula_witness :
  (0 < cell (table_frame 1 1 1 1) tcol ecol 1 1)%Z /\
  (0 < cell (table_frame 1 1 1 1) tcol ecol 0 1)%Z /\
  estTECI no_test (table_frame 1 1 1 1) tcol ecol =
  (Fin (1 - RR 1 1 1 1),
   (Fin (1 - Rtrigo_def.exp (ln (RR 1 1 1 1) + SE 1 1 1 1 * 1.96)),
    Fin (1 - Rtrigo_def.exp (ln (RR 1 1 1 1) - SE 1 1 1 1 * 1.96))),
   NaN).
Proof.
  split; [reflexivity|]. split; [reflexivity|].
  exact (proj2 (proj1 estTECI_formula no_test (table_frame 1 1 1 1) tcol ecol)
               eq_refl eq_refl).
Defined.

(** C4, as the specification states its example: the interval of the table
    8, 2, 4, 6 is not [-2.37, 0.696]; both of its bounds lie below those. *)
Lemma estTECI_example_interval :
  exists lo hi,
    (forall ft, snd (fst (estTECI ft (table_frame 8 2 4 6) tcol ecol)) =
                (Fin lo, Fin hi)) /\
    lo < -3.5 /\ hi < 0.12.
Proof.
  eexists _, _. split.
  - intros ft. rewrite estTECI_example. reflexivity.
  - pose proof ci_example as H. cbv zeta in H. lra.
Qed.

(** C7.  On a table with four positive counts the interval [estTECI]
    returns is made of two finite numbers in ascending order. *)
Theorem estTECI_interval_ordered ft df tc ec :
  (0 < cell df tc ec 1 1)%Z -> (0 < cell df tc ec 1 0)%Z ->
  (0 < cell df tc ec 0 1)%Z -> (0 < cell df tc ec 0 0)%Z ->
  exists lo hi,
    snd (fst (estTECI ft df tc ec)) = (Fin lo, Fin hi) /\ lo <= hi.
Proof.
  intros Ha Hb Hc Hd.
  rewrite (estTECI_positive ft df tc ec Ha Hc). cbn [fst snd].
  eexists _, _. split; [reflexivity|].
  set (a := cell df tc ec 1 1). set (b := cell df tc ec 1 0).
  set (c := cell df tc ec 0 1). set (d := cell df tc ec 0 0).
  assert (Hse : 0 <= SE a b c d) by apply sqrt_pos.
  assert (Hle : Rtrigo_def.exp (ln (RR a b c d) - SE a b c d * 1.96) <=
                Rtrigo_def.exp (ln (RR a b c d) + SE a b c d * 1.96))
    by (apply exp_le; lra).
  lra.
Qed.

(** The interval of the table with one row in each cell. *)
Lemma estTECI_interval_ordered_witness :
  exists lo hi,
    snd (fst (estTECI no_test (table_frame 1 1 1 1) tcol ecol)) =
    (Fin lo, Fin hi) /\ lo <= hi.
Proof.
  apply (estTECI_interval_ordered no_test (table_frame 1 1 1 1) tcol ecol);
    reflexivity.
Defined.

(** C9, as the specification states it: on a table with an empty cell [c]
    [estTECI] does not fail; it returns minus infinity as the estimate and
    minus infinity and NaN as the interval. *)
Lemma estTECI_empty_cell_returns :
  exists te ci,
    (forall ft, estTECI ft (table_frame 1 1 0 1) tcol ecol =
                (te, ci, snd (ft 1 1 0 1)%Z)) /\
    te = NInf /\ ci = (NInf, NaN).
Proof.
  exists NInf, (NInf, NaN). split; [|split; reflexivity].
  intros ft. unfold estTECI.
  destruct (cell_table_frame 1 1 0 1) as (-> & -> & -> & ->).
  cbn [Z.of_nat Pos.of_succ_nat Z.add Z.mul Pos.add Pos.mul Pos.succ].
  unfold of_Z, div, log, sqrt, mul, scale_inf.
  repeat match goal with
         | |- context [Req_dec_T ?x ?y] => destruct (Req_dec_T x y); try lra
         | |- context [Rlt_dec ?x ?y] => destruct (Rlt_dec x y); try lra
         | |- _ => progress cbn [add sub neg exp mul sqrt log]
         | |- _ => progress unfold div, log, sqrt, mul, scale_inf
         end.
  reflexivity.
Qed.

(** C9 (as amended).  When one of [a], [a+b], [c], [c+d] is zero [estTECI]
    returns all the same, and the lower bound of the interval it returns
    is an infinity or a NaN. *)
Theorem estTECI_degenerate_table ft df tc ec :
  let a := cell df tc ec 1 1 in
  let b := cell df tc ec 1 0 in
  let c := cell df tc ec 0 1 in
  let d := cell df tc ec 0 0 in
  (a = 0 \/ a + b = 0 \/ c = 0 \/ c + d = 0)%Z ->
  exists te lo hi,
    estTECI ft df tc ec = (te, (lo, hi), snd (ft a b c d)) /\
    is_finite lo = false.
Proof.
  intros a b c d H. eexists _, _, _. split; [reflexivity|].
  apply lower_bound_not_finite, mul_inf_or_nan.
  apply std_err_degenerate; try apply cell_nonneg. exact H.
Qed.

(** The table 1, 1, 0, 1. *)
Lemma estTECI_degenerate_table_witness :
  exists te lo hi,
    estTECI no_test (table_frame 1 1 0 1) tcol ecol =
    (te, (lo, hi), NaN) /\ is_finite lo = false.
Proof.
  apply (estTECI_degenerate_table no_test (table_frame 1 1 0 1) tcol ecol).
  right. right. left. reflexivity.
Defined.

End ImmCorFacts.

(* ================================================================= *)
(** ** Facts about [roc.py] *)

Module RocFacts.

Import Roc Sample.
Local Open Scope monad_scope.

(** *** Inversion of computations that return *)

Lemma bind_inr {A B} (c : M A) (k : A -> M B) s b s' :
  bind c k s = (inr b, s') ->
  exists a s1, c s = (inr a, s1) /\ k a s1 = (inr b, s').
Proof.
  unfold bind. destruct (c s) as [[e|a] s1]; [discriminate|].
  intros H. now exists a, s1.
Qed.

Lemma lift_inr {A} (r : result A) s a s' :
  lift r s = (inr a, s') -> r = inr a /\ s' = s.
Proof. unfold lift. intros H. injection H as -> ->. now split. Qed.

Lemma lib_inr {A} (r : option A) s a s' :
  lib r s = (inr a, s') -> r = Some a /\ s' = s.
Proof.
  unfold lib. destruct r; intros H; [|discriminate].
  injection H as -> ->. now split.
Qed.

Lemma ret_inr {A} (a b : A) s s' : ret a s = (inr b, s') -> a = b /\ s' = s.
Proof. unfold ret. intros H. injection H as -> ->. now split. Qed.

Lemma assert_inr b s u s' : assert_ b s = (inr u, s') -> b = true /\ s' = s.
Proof.
  unfold assert_. destruct b; cbn; intros H; [|discriminate].
  injection H as _ ->. now split.
Qed.

Lemma print_inr m s u s' : print m s = (inr u, s') -> s' = s ++ [Print m].
Proof. unfold print. intros H. now injection H as _ <-. Qed.

Lemma try_except_inr {A} (body handler : M A) s a s' :
  try_except body handler s = (inr a, s') ->
  body s = (inr a, s') \/
  exists s1, body s = (inl PerfectSeparationError, s1) /\
             handler s1 = (inr a, s').
Proof.
  unfold try_except. destruct (body s) as [[e|b] s1].
  - destruct e; try discriminate. intros H. right. eauto.
  - intros H. now left.
Qed.

(** [leaf H E] inverts a primitive computation that returned; [step H as x E]
    splits the first computation off the bind in [H], naming its value [x]
    and what is known of it [E]. *)
Ltac leaf H E :=
  match type of H with
  | lift _ _ = (inr _, _) => apply lift_inr in H; destruct H as (E & ->)
  | lib _ _ = (inr _, _) => apply lib_inr in H; destruct H as (E & ->)
  | ret _ _ = (inr _, _) => apply ret_inr in H; destruct H as (E & ->)
  | assert_ _ _ = (inr _, _) => apply assert_inr in H; destruct H as (E & ->)
  | print _ _ = (inr _, _) => apply print_inr in H; rename H into E
  | _ => rename H into E
  end.

Tactic Notation "step" hyp(H) "as" simple_intropattern(x) ident(E) :=
  apply bind_inr in H;
  let s1 := fresh "s" in
  let Hx := fresh "Hx" in
  destruct H as (x & s1 & Hx & H);
  leaf Hx E.

(** *** Arrays and frames *)

Lemma clamp_ends tpr tpr' :
  clamp tpr = inr tpr' -> 2 <= length tpr ->
  hd PrimFloat.nan tpr' = 0%float /\ last tpr' PrimFloat.nan = 1%float.
Proof.
  unfold clamp. destruct tpr as [|x [|y rest]]; cbn [length]; try lia.
  intros H _. cbn in H. injection H as <-.
  split.
  - reflexivity.
  - rewrite app_comm_cons. apply last_last.
Qed.

Lemma set_last_length a x a' : set_last a x = inr a' -> length a' = length a.
Proof.
  unfold set_last. destruct a as [|y a]; [discriminate|].
  intros H. injection H as <-.
  rewrite length_app, removelast_firstn_len.
  destruct a as [|z a]; cbn [length]; [lia|].
  rewrite length_firstn. cbn [length Nat.pred]. lia.
Qed.

Lemma clamp_length tpr tpr' : clamp tpr = inr tpr' -> length tpr' = length tpr.
Proof.
  unfold clamp. destruct tpr as [|x rest]; [discriminate|].
  cbn [set_item]. intros H. apply set_last_length in H. exact H.
Qed.

Lemma clamp_inr tpr : tpr <> [] -> exists tpr', clamp tpr = inr tpr'.
Proof.
  destruct tpr as [|x rest]; [congruence|]. intros _.
  unfold clamp. cbn [set_item set_last]. eauto.
Qed.

Lemma np_interp_length L x xp fp v :
  np_interp L x xp fp = inr v -> length v = length x.
Proof.
  unfold np_interp. destruct xp; [discriminate|].
  destruct (Nat.eqb _ _); [|discriminate].
  intros H. injection H as <-. apply length_map.
Qed.

Lemma nanmean_axis1_length L rows tpr : length (nanmean_axis1 L rows tpr) = rows.
Proof. unfold nanmean_axis1. now rewrite length_map, length_seq. Qed.

Lemma grid_length : length grid = 100.
Proof. reflexivity. Qed.

Lemma grid_ends :
  hd PrimFloat.nan grid = 0%float /\ last grid PrimFloat.nan = 1%float.
Proof. split; reflexivity. Qed.

(** The indexing operations raise nothing but [IndexError]. *)
Lemma nth_item_error {A} (l : list A) i e : nth_item l i = inl e -> e = IndexError.
Proof. unfold nth_item. destruct (nth_error l i); congruence. Qed.

Lemma column1_error a e : column1 a = inl e -> e = IndexError.
Proof.
  destruct a as [v|rows]; cbn; [congruence|].
  induction rows as [|r rows IH]; cbn; [discriminate|].
  destruct (nth_item r 1) eqn:E1.
  - intros H. injection H as <-. now apply nth_item_error in E1.
  - destruct (column1_rows rows); [|discriminate].
    intros H. injection H as <-. now apply IH.
Qed.

Lemma iloc_In df ind rows :
  iloc df ind = inr rows -> forall r, In r rows -> In r df.
Proof.
  revert rows. induction ind as [|i ind IH]; intros rows; cbn.
  - intros H. injection H as <-. intros r [].
  - unfold nth_item. destruct (nth_error df i) as [r0|] eqn:E; [|discriminate].
    destruct (iloc df ind) as [e|rs]; [discriminate|].
    intros H. injection H as <-. intros r [<-|Hr].
    + eapply nth_error_In; eauto.
    + now apply (IH rs).
Qed.

Lemma dropna_id cols df : length (dropna cols df) = length df -> dropna cols df = df.
Proof.
  intros H. apply forallb_filter_id. now apply filter_length_forallb.
Qed.

Lemma dropna_shorter cols df :
  dropna cols df <> df -> length (dropna cols df) < length df.
Proof.
  intros H. pose proof (filter_length_le (complete cols) df) as Hle.
  destruct (Nat.eq_dec (length (dropna cols df)) (length df)) as [E|E].
  - elim H. now apply dropna_id.
  - unfold dropna in *. lia.
Qed.

Lemma dropna_iloc cols df ind rows :
  iloc (dropna cols df) ind = inr rows -> dropna cols rows = rows.
Proof.
  intros H. unfold dropna at 1. apply forallb_filter_id, forallb_forall.
  intros r Hr. apply (iloc_In _ _ _ H) in Hr.
  now apply filter_In in Hr.
Qed.

Lemma y_of_length ov df : length (y_of ov df) = length df.
Proof. apply length_map. Qed.

Lemma index_of_length df : length (index_of df) = length df.
Proof. apply length_map. Qed.

Lemma fit_calls_app s1 s2 : fit_calls (s1 ++ s2) = fit_calls s1 + fit_calls s2.
Proof. unfold fit_calls. now rewrite filter_app, length_app. Qed.

(** *** The sample instance *)

(** The sample [kfold] makes as many folds as asked. *)
Lemma kfold_contract : KFold_contract libs.
Proof.
  intros n k cv. cbn [KFold libs]. unfold kfold.
  destruct (_ && _); [|discriminate].
  intros H. injection H as <-. now rewrite length_map, length_seq.
Defined.

(** The sample [roc_curve] answers with arrays of one length. *)
Lemma sample_roc_curve_contract : roc_curve_contract libs.
Proof.
  intros ? ? fpr tpr th H. cbn in H. injection H as <- <- <-. reflexivity.
Defined.

(** The sample regressor has [predict] only. *)
Lemma regressor_predict_only : predict_only_model regressor.
Proof.
  intros X y. exists predict_only. repeat split. intros X'. eexists. reflexivity.
Defined.

(** *** The perfect-separation branch of [computeROC] *)

Lemma computeROC_separated L df model ov pv s :
  let tmp := dropna (ov :: pv) df in
  fit model (X_of pv tmp) (y_of ov tmp) = inl PerfectSeparationError ->
  computeROC L df model ov pv s =
  (match new_series (Arr1 (y_of ov df)) (index_of tmp) (Some Prob) with
   | inr p => inr (mkROC (zeros 5) [0; 1; 1; 1; 1]%float 1%float 1%float None p)
   | inl e => inl e
   end,
   s ++ [Fit (X_of pv tmp) (y_of ov tmp)] ++
        [Print (MsgPerfectSeparation ov (length tmp) (length pv))]).
Proof.
  intros tmp H.
  unfold computeROC. fold tmp.
  unfold bind at 1. unfold try_except. unfold bind at 1. unfold call_fit at 1.
  rewrite H. 
  unfold bind, print, lift, ret, assert_. cbn -[new_series].
  rewrite <- app_assoc.
  destruct (new_series _ _ _); reflexivity.
Qed.

(** The recovery branch on a frame without missing values. *)
Lemma computeROC_recovery L df model ov pv s :
  dropna (ov :: pv) df = df ->
  fit model (X_of pv df) (y_of ov df) = inl PerfectSeparationError ->
  computeROC L df model ov pv s =
  (inr (mkROC [0; 0; 0; 0; 0]%float [0; 1; 1; 1; 1]%float 1%float 1%float None
              (mkSeries (index_of df) (y_of ov df) (Some Prob))),
   s ++ [Fit (X_of pv df) (y_of ov df);
         Print (MsgPerfectSeparation ov (length df) (length pv))]).
Proof.
  intros Hd Hfit.
  pose proof (computeROC_separated L df model ov pv s) as H.
  cbv zeta in H. rewrite Hd in H. rewrite (H Hfit).
  unfold new_series. rewrite y_of_length, index_of_length, Nat.eqb_refl.
  reflexivity.
Qed.

(** C2 (as amended).  When [fit] raises the perfect-separation error and no
    row of the input has a missing value, [computeROC] returns: it prints
    one diagnostic line and answers accuracy 1, AUC 1, the five-point curve
    with fpr [0,0,0,0,0] and tpr [0,1,1,1,1] (from (0,0) to (0,1)), the
    observed outcomes as probabilities, and no fitted model. *)
Theorem computeROC_recovers L df model ov pv s :
  dropna (ov :: pv) df = df ->
  fit model (X_of pv df) (y_of ov df) = inl PerfectSeparationError ->
  computeROC L df model ov pv s =
  (inr (mkROC [0; 0; 0; 0; 0]%float [0; 1; 1; 1; 1]%float 1%float 1%float None
              (mkSeries (index_of df) (y_of ov df) (Some Prob))),
   s ++ [Fit (X_of pv df) (y_of ov df);
         Print (MsgPerfectSeparation ov (length df) (length pv))]).
Proof. apply computeROC_recovery. Qed.

(** The recovery on the sample frame and the classifier that never
    converges. *)
Lemma computeROC_recovers_witness :
  computeROC libs frame separated outcome predictors [] =
  (inr (mkROC [0; 0; 0; 0; 0]%float [0; 1; 1; 1; 1]%float 1%float 1%float None
              (mkSeries (index_of frame) (y_of outcome frame) (Some Prob))),
   [] ++ [Fit (X_of predictors frame) (y_of outcome frame);
          Print (MsgPerfectSeparation outcome (length frame) (length predictors))]).
Proof.
  apply (computeROC_recovers libs frame separated outcome predictors []); reflexivity.
Defined.

(** C2, as the specification states it: the last point of the curve of
    the recovery branch is (0, 1) and not (1, 1), whatever the libraries;
    and on a frame with a missing value nothing is recovered. *)
Lemma computeROC_last_point :
  exists r,
    (forall L s, fst (computeROC L frame separated outcome predictors s) = inr r) /\
    last (r_fpr r) PrimFloat.nan = 0%float /\
    last (r_tpr r) PrimFloat.nan = 1%float /\
    (last (r_fpr r) PrimFloat.nan =? 1)%float = false /\
    (forall L s, fst (computeROC L frame_missing separated outcome predictors s) =
                 inl ValueError).
Proof.
  eexists. split.
  - intros L s.
    rewrite (computeROC_recovery L frame separated outcome predictors s);
      reflexivity.
  - do 3 (split; [reflexivity|]). intros L s.
    rewrite (computeROC_separated L frame_missing separated outcome predictors s);
      reflexivity.
Qed.

(** C10.  In the recovery branch the probabilities are the outcome column of
    the input frame and the index is that of the rows without missing
    values: when no row was dropped the result is the series of the observed
    outcomes, and when a row was dropped building the series raises
    [ValueError] and nothing is recovered. *)
Theorem computeROC_recovery_needs_complete_rows L df model ov pv s :
  let tmp := dropna (ov :: pv) df in
  fit model (X_of pv tmp) (y_of ov tmp) = inl PerfectSeparationError ->
  (tmp = df ->
   exists r s', computeROC L df model ov pv s = (inr r, s') /\
                r_prob r = mkSeries (index_of df) (y_of ov df) (Some Prob)) /\
  (tmp <> df ->
   exists s', computeROC L df model ov pv s = (inl ValueError, s')).
Proof.
  intros tmp Hfit. split.
  - intros E. unfold tmp in *. rewrite E in Hfit.
    eexists _, _. split.
    + now apply computeROC_recovery.
    + reflexivity.
  - intros N. eexists.
    rewrite (computeROC_separated L df model ov pv s Hfit).
    unfold new_series. rewrite y_of_length, index_of_length.
    apply dropna_shorter in N.
    destruct (Nat.eqb_spec (length df) (length (dropna (ov :: pv) df)));
      [lia | reflexivity].
Qed.

(** The sample frame recovers; with one outcome missing it raises. *)
Lemma computeROC_recovery_needs_complete_rows_witness :
  (exists r s',
     computeROC libs frame separated outcome predictors [] = (inr r, s') /\
     r_prob r = mkSeries (index_of frame) (y_of outcome frame) (Some Prob)) /\
  (exists s', computeROC libs frame_missing separated outcome predictors [] =
              (inl ValueError, s')).
Proof.
  split.
  - apply (proj1 (computeROC_recovery_needs_complete_rows
                    libs frame separated outcome predictors [] eq_refl)).
    reflexivity.
  - apply (proj2 (computeROC_recovery_needs_complete_rows
                    libs frame_missing separated outcome predictors [] eq_refl)).
    intros H. apply (f_equal (@length _)) in H. vm_compute in H. discriminate.
Defined.

(** *** What [computeROC] returns *)

Lemma computeROC_inr L df model ov pv s r s' :
  computeROC L df model ov pv s = (inr r, s') ->
  let tmp := dropna (ov :: pv) df in
  let X := X_of pv tmp in
  let y := y_of ov tmp in
  (r_acc r <=? 1)%float = true /\
  fit_calls s' = S (fit_calls s) /\
  ((fit model X y = inl PerfectSeparationError /\ r_results r = None /\
    r_fpr r = zeros 5 /\ r_tpr r = [0; 1; 1; 1; 1]%float) \/
   (exists f prob tpr th,
      fit model X y = inr f /\
      r_results r = Some (match predict_proba f with
                          | Some _ => f
                          | None => patch f
                          end) /\
      roc_curve L y prob = Some (r_fpr r, tpr, th) /\
      clamp tpr = inr (r_tpr r))).
Proof.
  intros H tmp X y.
  destruct (fit model X y) as [e|f] eqn:Hfit.
  - destruct e;
      try (exfalso; revert H; unfold computeROC; fold tmp; fold X; fold y;
           unfold bind at 1; unfold try_except; unfold bind at 1;
           unfold call_fit at 1; rewrite Hfit; discriminate).
    pose proof (computeROC_separated L df model ov pv s Hfit) as E.
    rewrite E in H. clear E.
    destruct (new_series _ _ _) as [e|p]; [discriminate|].
    injection H as <- <-. cbn [r_acc r_results r_fpr r_tpr].
    split; [reflexivity|]. split.
    + rewrite fit_calls_app. cbn. lia.
    + left. repeat split; reflexivity.
  - revert H. unfold computeROC. fold tmp; fold X; fold y.
    unfold bind at 1. unfold try_except. unfold bind at 1.
    unfold call_fit at 1. rewrite Hfit.
    unfold bind, lift, lib, ret, assert_.
    destruct (predict_proba f) as [pp|] eqn:Hpp.
    + destruct (column1 (pp X)) as [e|p] eqn:Hc;
        [apply column1_error in Hc; subst e; discriminate|].
      destruct (roc_curve L y (Arr1 p)) as [[[fpr tpr] th]|] eqn:Hroc;
        [|discriminate].
      destruct (accuracy_score L y _) as [a|]; [|discriminate].
      destruct (auc L fpr tpr) as [u|]; [|discriminate].
      destruct (clamp tpr) as [e|tpr'] eqn:Hcl.
      { unfold clamp in Hcl. destruct tpr; cbn in Hcl; [|discriminate].
        injection Hcl as <-. discriminate. }
      destruct (a <=? 1)%float eqn:Ha; [|discriminate].
      cbn -[new_series]. destruct (new_series _ _ _) as [e|ps]; [discriminate|].
      intros H. injection H as <- <-. cbn.
      split; [exact Ha|]. split.
      * rewrite fit_calls_app. cbn. lia.
      * right. exists f, (Arr1 p), tpr, th. rewrite Hpp. auto.
    + destruct (roc_curve L y (predict f X)) as [[[fpr tpr] th]|] eqn:Hroc;
        [|discriminate].
      destruct (accuracy_score L y _) as [a|]; [|discriminate].
      destruct (auc L fpr tpr) as [u|]; [|discriminate].
      destruct (clamp tpr) as [e|tpr'] eqn:Hcl.
      { unfold clamp in Hcl. destruct tpr; cbn in Hcl; [|discriminate].
        injection Hcl as <-. discriminate. }
      destruct (a <=? 1)%float eqn:Ha; [|discriminate].
      cbn -[new_series]. destruct (new_series _ _ _) as [e|ps]; [discriminate|].
      intros H. injection H as <- <-. cbn.
      split; [exact Ha|]. split.
      * rewrite fit_calls_app. cbn. lia.
      * right. exists f, (predict f X), tpr, th. rewrite Hpp. auto.
Qed.

(** *** The fold loop of [computeCVROC] *)

Section CVFacts.

Variables (L : Libs) (df : DataFrame) (model : Classifier)
          (ov : string) (pv : list string).

Let tmp := dropna (ov :: pv) df.

Lemma cv_fold_inr i f st s st' s' :
  cv_fold L tmp model ov pv i f st s = (inr st', s') ->
  (fold_fails tmp model ov pv f /\ st' = st) \/
  (~ fold_fails tmp model ov pv f /\ st_counter st' = S (st_counter st)).
Proof.
  destruct f as [trainInd testInd]. unfold cv_fold.
  intros H. step H as trainDf E. step H as testDf E'. step H as r Hroc.
  pose proof (computeROC_inr _ _ _ _ _ _ _ _ Hroc) as (_ & _ & Hr).
  cbv zeta in Hr. rewrite (dropna_iloc _ _ _ _ E) in Hr.
  destruct Hr as [(Hfit & Hres & _)|(g & prob & tpr & th & Hfit & Hres & _)].
  - left. rewrite Hres in H. leaf H Hst. subst st'.
    split; [|reflexivity]. exists trainDf. now split.
  - right. rewrite Hres in H. split.
    + intros (trainDf' & E2 & Hfit'). cbn [fst] in E2.
      rewrite E in E2. injection E2 as <-. congruence.
    + step H as pp Epp. step H as testProb Etp.
      step H as [[testFPR testTPR] th'] Ecurve.
      step H as col Ecol. step H as tpr' Eset. step H as a Ea.
      step H as sr Esr. leaf H Hst. now subst st'.
Qed.

Lemma cv_loop_counter cv : forall i st s st' s',
  cv_loop L tmp model ov pv i cv st s = (inr st', s') ->
  st_counter st' <= st_counter st + length cv /\
  (st_counter st' = st_counter st + length cv <->
   forall f, In f cv -> ~ fold_fails tmp model ov pv f).
Proof.
  induction cv as [|f cv IH]; intros i st s st' s' H.
  - cbn in H. leaf H E. subst. cbn. split; [lia|]. split; [tauto|lia].
  - cbn [cv_loop] in H. step H as st1 Hc.
    apply IH in H. destruct H as (Hle & Hiff).
    apply cv_fold_inr in Hc. cbn [length].
    destruct Hc as [(Hf & ->)|(Hnf & Hcnt)].
    + split; [lia|]. split.
      * intros Heq. lia.
      * intros Hall. elim (Hall f (or_introl eq_refl)). exact Hf.
    + rewrite Hcnt in *. split; [lia|]. split.
      * intros Heq g [<-|Hg]; [exact Hnf|]. apply Hiff; [lia|exact Hg].
      * intros Hall. 
        assert (st_counter st' = S (st_counter st) + length cv).
        { apply Hiff. intros g Hg. apply Hall. now right. }
        lia.
Qed.

(** The two ways [computeCVROC] returns. *)
Lemma computeCVROC_inr nFolds s r s' :
  computeCVROC L df model ov pv nFolds s = (inr r, s') ->
  exists cv st s1,
    KFold L (length tmp) nFolds = Some cv /\
    cv_loop L tmp model ov pv 0 cv (cv_init nFolds) s = (inr st, s1) /\
    cv_fpr r = grid /\
    (exists t0, length t0 = 100 /\ clamp t0 = inr (cv_tpr r)) /\
    ((st_counter st = nFolds /\ cv_success r = true) \/
     (st_counter st <> nFolds /\ cv_success r = false /\
      exists single t0,
        computeROC L tmp model ov pv
          (s1 ++ [Print (MsgNotAllFolds (st_counter st) nFolds)]
              ++ [Print MsgNoCV]) = (inr single, s') /\
        np_interp L grid (r_fpr single) (r_tpr single) = inr t0 /\
        clamp t0 = inr (cv_tpr r) /\
        r = mkCV grid (cv_tpr r) (r_auc single) (r_acc single)
                 [r_results single] (r_prob single) false)).
Proof.
  unfold computeCVROC. fold tmp. intros H.
  step H as cv Ecv. step H as st Hloop.
  fold (cv_init nFolds) in Hloop.
  exists cv, st, s0. split; [exact Ecv|]. split; [exact Hloop|].
  step H as [[[[[meanTPR meanAUC] meanACC] results] probS] success] Hbr.
  step H as u Hacc. leaf H Hr. subst r. cbn [cv_fpr cv_tpr cv_success].
  split; [reflexivity|].
  destruct (Nat.eqb_spec (st_counter st) nFolds) as [Heq|Hne].
  - step Hbr as m Em. step Hbr as ma Hma. step Hbr as mu Emu.
    step Hbr as ps Eps. step Hbr as u' Eas. leaf Hbr Ebr.
    injection Ebr as <- <- <- <- <- <-.
    split.
    + eexists. split; [|exact Em]. apply nanmean_axis1_length.
    + left. now split.
  - step Hbr as u1 Ep1. step Hbr as u2 Ep2. subst.
    step Hbr as single Hsingle. step Hbr as t0 Et0. step Hbr as m Em.
    leaf Hbr Ebr. injection Ebr as <- <- <- <- <- <-.
    split.
    + exists t0. split; [|exact Em].
      now rewrite (np_interp_length _ _ _ _ _ Et0).
    + right. split; [exact Hne|]. split; [reflexivity|].
      exists single, t0. rewrite <- app_assoc in Hsingle.
      repeat split; assumption.
Qed.

(** C1 (as amended).  When [computeCVROC] returns, [success] is true
    exactly when no fold failed with perfect separation; when it is false
    the result is that of one [computeROC] on the complete rows, its curve
    interpolated on the grid of 100 points, with the fold results
    discarded.  When a fold failed and that single fit returns,
    [computeCVROC] returns.  When no fold failed, [computeCVROC] returns
    with success, and nothing more on the trace, provided that there is a
    fold, that the AUC and the grouped mean of the test probabilities are
    computed, that this mean has one value for each complete row, and that
    the mean accuracy is at most 1. *)
Theorem computeCVROC_success :
  KFold_contract L -> roc_curve_contract L ->
  forall nFolds s,
    (forall r s',
       computeCVROC L df model ov pv nFolds s = (inr r, s') ->
       exists cv,
         KFold L (length tmp) nFolds = Some cv /\
         (cv_success r = true <->
          forall f, In f cv -> ~ fold_fails tmp model ov pv f) /\
         (cv_success r = false ->
          exists s0 single t0,
            computeROC L tmp model ov pv s0 = (inr single, s') /\
            fit_calls s' = S (fit_calls s0) /\
            np_interp L grid (r_fpr single) (r_tpr single) = inr t0 /\
            clamp t0 = inr (cv_tpr r) /\
            r = mkCV grid (cv_tpr r) (r_auc single) (r_acc single)
                     [r_results single] (r_prob single) false)) /\
    (forall cv st s1 single s2,
       KFold L (length tmp) nFolds = Some cv ->
       cv_loop L tmp model ov pv 0 cv (cv_init nFolds) s = (inr st, s1) ->
       st_counter st <> nFolds ->
       computeROC L tmp model ov pv
         (s1 ++ [Print (MsgNotAllFolds (st_counter st) nFolds); Print MsgNoCV])
       = (inr single, s2) ->
       exists r, computeCVROC L df model ov pv nFolds s = (inr r, s2) /\
                 cv_success r = false) /\
    (forall cv st s1,
       KFold L (length tmp) nFolds = Some cv ->
       cv_loop L tmp model ov pv 0 cv (cv_init nFolds) s = (inr st, s1) ->
       (forall f, In f cv -> ~ fold_fails tmp model ov pv f) ->
       0 < nFolds ->
       exists meanTPR,
         clamp (nanmean_axis1 L (length grid) (st_tpr st)) = inr meanTPR /\
         forall meanAUC probS,
           auc L grid meanTPR = Some meanAUC ->
           concat_group_mean L (st_prob st) = Some probS ->
           length (s_values probS) = length tmp ->
           (st_acc st / of_nat nFolds <=? 1)%float = true ->
           computeCVROC L df model ov pv nFolds s =
           (inr (mkCV grid meanTPR meanAUC (st_acc st / of_nat nFolds)%float
                      (st_results st)
                      (mkSeries (s_index probS) (s_values probS) (Some Prob))
                      true),
            s1)).
Proof.
  intros HK HR nFolds s. split; [|split].
  - intros r s' H.
    destruct (computeCVROC_inr _ _ _ _ H)
      as (cv & st & s1 & Ecv & Hloop & _ & _ & Hcase).
    exists cv. split; [exact Ecv|].
    pose proof (cv_loop_counter _ _ _ _ _ _ Hloop) as (Hle & Hiff).
    cbn [cv_init st_counter] in Hle, Hiff.
    rewrite (HK _ _ _ Ecv) in Hle, Hiff. cbn [Nat.add] in Hiff.
    destruct Hcase as [(Hcnt & Hs)|(Hcnt & Hs & single & t0 & Hsingle & Ei & Ec & Er)].
    + rewrite Hs. split.
      * split; [intros _; now apply Hiff | reflexivity].
      * discriminate.
    + rewrite Hs. split.
      * split; [discriminate|]. intros Hall. elim Hcnt. now apply Hiff.
      * intros _. eexists _, single, t0. split; [exact Hsingle|].
        split; [|now repeat split].
        now destruct (computeROC_inr _ _ _ _ _ _ _ _ Hsingle) as (_ & Hf & _).
  - intros cv st s1 single s2 Ecv Hloop Hcnt Hsingle.
    unfold computeCVROC. fold tmp. fold (cv_init nFolds).
    unfold bind at 1. unfold lib at 1. rewrite Ecv.
    unfold bind at 1. rewrite Hloop.
    destruct (Nat.eqb_spec (st_counter st) nFolds) as [Heq|_]; [contradiction|].
    unfold bind at 1. unfold bind at 1. unfold print at 1.
    unfold bind at 1. unfold print at 1.
    unfold bind at 1. rewrite <- app_assoc. cbn [app]. rewrite Hsingle.
    destruct (computeROC_inr _ _ _ _ _ _ _ _ Hsingle) as (Hacc & _ & Hshape).
    assert (Hi : exists t0, np_interp L grid (r_fpr single) (r_tpr single) = inr t0).
    { unfold np_interp.
      destruct Hshape as [(_ & _ & -> & ->)|(g & prob & tpr & th & _ & _ & Hroc & Hcl)].
      - cbn. eauto.
      - pose proof (HR _ _ _ _ _ Hroc) as Hlen.
        rewrite <- (clamp_length _ _ Hcl) in Hlen.
        destruct (r_fpr single) as [|x fpr'] eqn:Ef.
        + destruct (r_tpr single); [|discriminate].
          unfold clamp in Hcl. destruct tpr; cbn in Hcl; [discriminate|].
          destruct tpr; discriminate.
        + rewrite <- Hlen, Nat.eqb_refl. eauto. }
    destruct Hi as (t0 & Et0).
    unfold bind at 1. unfold lift at 1. rewrite Et0.
    destruct (clamp_inr t0) as (m & Em).
    { pose proof (np_interp_length _ _ _ _ _ Et0) as Hl.
      intros ->. rewrite grid_length in Hl. discriminate. }
    unfold bind at 1. unfold lift at 1. rewrite Em.
    unfold ret at 1. unfold bind at 1. unfold assert_. rewrite Hacc.
    unfold ret at 1. unfold ret.
    eexists. split; reflexivity.
  - intros cv st s1 Ecv Hloop Hall Hpos.
    pose proof (cv_loop_counter _ _ _ _ _ _ Hloop) as (_ & Hiff).
    cbn [cv_init st_counter] in Hiff.
    rewrite (HK _ _ _ Ecv) in Hiff. cbn [Nat.add] in Hiff.
    assert (Hcnt : st_counter st = nFolds) by now apply Hiff.
    destruct (clamp_inr (nanmean_axis1 L (length grid) (st_tpr st)))
      as (meanTPR & Em).
    { intros E. apply (f_equal (@length _)) in E.
      rewrite nanmean_axis1_length, grid_length in E. discriminate. }
    exists meanTPR. split; [exact Em|].
    intros meanAUC probS Hauc Hcat Hlen Hacc.
    unfold computeCVROC. fold tmp. fold (cv_init nFolds).
    unfold bind at 1. unfold lib at 1. rewrite Ecv.
    unfold bind at 1. rewrite Hloop.
    rewrite Hcnt, Nat.eqb_refl.
    unfold bind at 1. unfold bind at 1. unfold lift at 1. rewrite Em.
    destruct (Nat.eqb_spec nFolds 0) as [E0|_]; [lia|].
    unfold bind at 1. unfold ret at 1.
    unfold bind at 1. unfold lib at 1. rewrite Hauc.
    unfold bind at 1. unfold lib at 1. rewrite Hcat.
    unfold bind at 1. unfold assert_ at 1. cbn [s_values].
    rewrite Hlen, Nat.eqb_refl.
    unfold ret at 1. unfold ret at 1.
    unfold bind at 1. unfold assert_. rewrite Hacc.
    reflexivity.
Qed.

End CVFacts.

(** The libraries with the grouped mean of pandas keep the contracts of
    the sample ones. *)
Lemma pandas_kfold_contract : KFold_contract Pandas.grouping_libs.
Proof. exact kfold_contract. Defined.

Lemma pandas_roc_curve_contract : roc_curve_contract Pandas.grouping_libs.
Proof. exact sample_roc_curve_contract. Defined.

(** Two folds of the sample frame.  With the classifier that needs three
    rows both folds fail and the whole frame is fitted; with the one that
    converges both folds are fitted and the result is the cross-validated
    one. *)
Lemma computeCVROC_success_witness :
  (exists r s',
     computeCVROC libs frame fragile outcome predictors 2 [] = (inr r, s') /\
     exists cv,
       KFold libs (length (dropna (outcome :: predictors) frame)) 2 = Some cv /\
       (cv_success r = true <->
        forall f, In f cv -> ~ fold_fails (dropna (outcome :: predictors) frame) fragile outcome predictors f) /\
       (cv_success r = false ->
        exists s0 single t0,
          computeROC libs (dropna (outcome :: predictors) frame) fragile outcome predictors s0 = (inr single, s') /\
          fit_calls s' = S (fit_calls s0) /\
          np_interp libs grid (r_fpr single) (r_tpr single) = inr t0 /\
          clamp t0 = inr (cv_tpr r) /\
          r = mkCV grid (cv_tpr r) (r_auc single) (r_acc single)
                   [r_results single] (r_prob single) false)) /\
  (exists r s',
     computeCVROC Pandas.grouping_libs frame logistic outcome predictors 2 [] =
       (inr r, s') /\
     cv_success r = true /\ length (cv_results r) = 2 /\
     s_index (cv_prob r) = [10; 11; 12; 13]%Z /\ fit_calls s' = 2).
Proof.
  split.
  - eexists _, _. split; [vm_compute; reflexivity|].
    eapply (proj1 (computeCVROC_success libs frame fragile outcome predictors
                     kfold_contract sample_roc_curve_contract 2 [])).
    vm_compute; reflexivity.
  - edestruct (proj2 (proj2 (computeCVROC_success Pandas.grouping_libs frame logistic
                               outcome predictors pandas_kfold_contract
                               pandas_roc_curve_contract 2 [])))
      as (meanTPR & Em & Hret).
    + vm_compute; reflexivity.
    + vm_compute; reflexivity.
    + intros f _ (trainDf & _ & Hfit). discriminate.
    + lia.
    + eexists _, _. split.
      * apply Hret; vm_compute; reflexivity.
      * repeat split; vm_compute; reflexivity.
Defined.

(** C1, as the specification states it: on rows of which two have one
    identifier no fold fails, and [computeCVROC] does not return with
    success: the grouped mean of the test probabilities has one value for
    each identifier, one less than there are rows, and the assertion on its
    length fails. *)
Lemma computeCVROC_repeated_ids :
  exists cv,
    KFold Pandas.grouping_libs (length (dropna (outcome :: predictors) Pandas.repeated_ids)) 2
      = Some cv /\
    Forall (fun f => ~ fold_fails (dropna (outcome :: predictors) Pandas.repeated_ids)
                        logistic outcome predictors f) cv /\
    length cv = 2 /\
    fst (computeCVROC Pandas.grouping_libs Pandas.repeated_ids logistic outcome predictors 2 [])
      = inl AssertionError.
Proof.
  eexists. split; [vm_compute; reflexivity|]. split; [|split].
  - repeat constructor; intros (trainDf & _ & Hfit); discriminate.
  - reflexivity.
  - vm_compute; reflexivity.
Qed.

(** *** [computeLOOROC] *)

Section LOOFacts.

Variables (L : Libs) (df : DataFrame) (model : Classifier)
          (ov : string) (pv : list string).

Let tmp := dropna (ov :: pv) df.
Let X := X_of pv tmp.
Let y := y_of ov tmp.

Lemma computeLOOROC_separated s :
  fit model X y = inl PerfectSeparationError ->
  computeLOOROC L df model ov pv s =
  (loo_degenerate L tmp ov,
   s ++ [Fit X y; Print (MsgPerfectSeparationComplete ov (length tmp) (length pv))]).
Proof.
  intros Hfit. unfold computeLOOROC, loo_degenerate. fold tmp. fold X. fold y.
  cbv zeta. fold y.
  unfold bind at 1. unfold try_except. unfold bind at 1. unfold call_fit at 1.
  rewrite Hfit.
  unfold bind at 1. unfold print at 1. rewrite <- app_assoc. cbn [app].
  unfold bind at 1. unfold lib at 1.
  destruct (roc_curve L y (Arr1 y)) as [[[f t] th]|]; [|reflexivity].
  unfold bind at 1. unfold lift at 1.
  destruct (np_interp L grid f t) as [e|t0]; [reflexivity|].
  unfold bind at 1. unfold lift at 1.
  destruct (clamp t0) as [e|tpr]; [reflexivity|].
  assert (Hy : length y = length tmp) by apply y_of_length.
  unfold bind at 1. unfold lift at 1. unfold new_series.
  rewrite Hy, index_of_length, Nat.eqb_refl.
  unfold bind at 1. cbn [s_values]. rewrite Hy, Nat.eqb_refl.
  reflexivity.
Qed.

(** C3.  When the fit on the whole dataset raises the perfect-separation
    error [computeLOOROC] calls [fit] that one time and prints one line; a
    result it returns has success false, accuracy 1 and AUC 1, and it does
    return one when [roc_curve] answers with a well-formed curve. *)
Theorem computeLOOROC_short_circuit s :
  fit model X y = inl PerfectSeparationError ->
  snd (computeLOOROC L df model ov pv s) =
    s ++ [Fit X y;
          Print (MsgPerfectSeparationComplete ov (length tmp) (length pv))] /\
  (forall r, fst (computeLOOROC L df model ov pv s) = inr r ->
             cv_success r = false /\ cv_acc r = 1%float /\ cv_auc r = 1%float /\
             cv_results r = repeat None (length tmp)) /\
  (forall testFPR testTPR th,
     roc_curve L y (Arr1 y) = Some (testFPR, testTPR, th) ->
     testFPR <> [] -> length testFPR = length testTPR ->
     exists r, fst (computeLOOROC L df model ov pv s) = inr r).
Proof.
  intros Hfit. rewrite (computeLOOROC_separated s Hfit). cbn [fst snd].
  split; [reflexivity|]. split.
  - intros r. unfold loo_degenerate. cbv zeta. fold y.
    destruct (roc_curve L y (Arr1 y)) as [[[f t] th]|]; [|discriminate].
    destruct (np_interp L grid f t) as [e|t0]; [discriminate|].
    destruct (clamp t0) as [e|tpr]; [discriminate|].
    intros H. injection H as <-. repeat split.
  - intros f t th Hroc Hne Hlen. unfold loo_degenerate. cbv zeta. fold y.
    rewrite Hroc.
    unfold np_interp. destruct f as [|x0 f]; [congruence|].
    rewrite Hlen, Nat.eqb_refl.
    destruct (clamp_inr (map (interp_at L (x0 :: f) t) grid)) as (tpr & ->).
    { intros E. apply (f_equal (@length _)) in E.
      rewrite length_map, grid_length in E. discriminate. }
    eauto.
Qed.

Lemma computeLOOROC_inr s r s' :
  computeLOOROC L df model ov pv s = (inr r, s') ->
  cv_fpr r = grid /\
  exists t0, length t0 = 100 /\ clamp t0 = inr (cv_tpr r).
Proof.
  unfold computeLOOROC. fold tmp. fold X. fold y. intros H.
  apply bind_inr in H. destruct H as (whole & s1 & Hw & H).
  apply try_except_inr in Hw. destruct Hw as [Hw|(s2 & _ & Hw)].
  - step Hw as wholeRes Hfit. step Hw as pp Epp. step Hw as wholeProb Ewp.
    leaf Hw Ew. subst whole.
    step H as st Hloop. step H as [[testFPR testTPR] th] Ecurve.
    step H as t0 Et0. step H as a Ea. step H as u Eu. step H as tpr Etpr.
    step H as ps Eps. step H as ua Eas. leaf H Er. subst r.
    cbn [cv_fpr cv_tpr]. split; [reflexivity|].
    exists t0. split; [|exact Etpr].
    now rewrite (np_interp_length _ _ _ _ _ Et0).
  - step Hw as u0 Ep. step Hw as [[testFPR testTPR] th] Ecurve.
    step Hw as t0 Et0. step Hw as tpr Etpr. step Hw as ps Eps.
    step Hw as ua Eas. leaf Hw Ew. subst whole.
    leaf H Er. subst r. cbn [cv_fpr cv_tpr]. split; [reflexivity|].
    exists t0. split; [|exact Etpr].
    now rewrite (np_interp_length _ _ _ _ _ Et0).
Qed.

(** With a classifier that has [predict] only, the fit on the whole
    dataset is followed by [wholeRes.predict_proba(X)[:, 1]] on a vector. *)
Lemma computeLOOROC_predict_only s f v :
  fit model X y = inr f -> predict_proba f = None -> predict f X = Arr1 v ->
  computeLOOROC L df model ov pv s = (inl IndexError, s ++ [Fit X y]).
Proof.
  intros Hfit Hpp Hv. unfold computeLOOROC. fold tmp. fold X. fold y.
  unfold bind at 1. unfold try_except. unfold bind at 1. unfold call_fit at 1.
  rewrite Hfit, Hpp. unfold bind at 1. unfold lift at 1.
  cbn [get_predict_proba patch predict_proba predict].
  unfold bind at 1. unfold lift at 1. rewrite Hv. reflexivity.
Qed.

End LOOFacts.

(** Leave-one-out on the sample frame with the classifier that never
    converges. *)
Lemma computeLOOROC_short_circuit_witness :
  snd (computeLOOROC libs frame separated outcome predictors []) =
    [] ++ [Fit (X_of predictors (dropna (outcome :: predictors) frame)) (y_of outcome (dropna (outcome :: predictors) frame));
           Print (MsgPerfectSeparationComplete outcome
                    (length (dropna (outcome :: predictors) frame)) (length predictors))] /\
  (forall r, fst (computeLOOROC libs frame separated outcome predictors []) = inr r ->
             cv_success r = false /\ cv_acc r = 1%float /\ cv_auc r = 1%float /\
             cv_results r = repeat None (length (dropna (outcome :: predictors) frame))) /\
  (forall testFPR testTPR th,
     roc_curve libs (y_of outcome (dropna (outcome :: predictors) frame))
                    (Arr1 (y_of outcome (dropna (outcome :: predictors) frame))) =
       Some (testFPR, testTPR, th) ->
     testFPR <> [] -> length testFPR = length testTPR ->
     exists r, fst (computeLOOROC libs frame separated outcome predictors []) = inr r).
Proof.
  apply (computeLOOROC_short_circuit libs frame separated outcome predictors []).
  reflexivity.
Defined.

(** *** The ends of the aggregate curve *)

Lemma pinned_curve (r : CVResult) :
  cv_fpr r = grid ->
  (exists t0, length t0 = 100 /\ clamp t0 = inr (cv_tpr r)) ->
  first_point r = (0, 0)%float /\ last_point r = (1, 1)%float.
Proof.
  intros Hf (t0 & Hl & Hc). unfold first_point, last_point. rewrite Hf.
  destruct (clamp_ends _ _ Hc) as (-> & ->); [lia|].
  now destruct grid_ends as (-> & ->).
Qed.

(** C5.  Whenever [computeCVROC] or [computeLOOROC] returns a curve, on
    the cross-validated path or on the degraded one, its first point is
    (0, 0) and its last point is (1, 1). *)
Theorem aggregate_curve_endpoints L df model ov pv :
  (forall nFolds s r s',
     computeCVROC L df model ov pv nFolds s = (inr r, s') ->
     first_point r = (0, 0)%float /\ last_point r = (1, 1)%float) /\
  (forall s r s',
     computeLOOROC L df model ov pv s = (inr r, s') ->
     first_point r = (0, 0)%float /\ last_point r = (1, 1)%float).
Proof.
  split.
  - intros nFolds s r s' H.
    destruct (computeCVROC_inr _ _ _ _ _ _ _ _ _ H)
      as (cv & st & s1 & _ & _ & Hf & Ht & _).
    now apply pinned_curve.
  - intros s r s' H.
    destruct (computeLOOROC_inr _ _ _ _ _ _ _ _ H) as (Hf & Ht).
    now apply pinned_curve.
Qed.

(** Runs of the two functions on the sample frame, on each path. *)
Lemma aggregate_curve_endpoints_witness :
  (exists r s',
     computeCVROC libs frame logistic outcome predictors 2 [] = (inr r, s') /\
     cv_success r = true /\
     first_point r = (0, 0)%float /\ last_point r = (1, 1)%float) /\
  (exists r s',
     computeCVROC libs frame fragile outcome predictors 2 [] = (inr r, s') /\
     cv_success r = false /\
     first_point r = (0, 0)%float /\ last_point r = (1, 1)%float) /\
  (exists r s',
     computeLOOROC libs frame logistic outcome predictors [] = (inr r, s') /\
     cv_success r = true /\
     first_point r = (0, 0)%float /\ last_point r = (1, 1)%float) /\
  (exists r s',
     computeLOOROC libs frame separated outcome predictors [] = (inr r, s') /\
     cv_success r = false /\
     first_point r = (0, 0)%float /\ last_point r = (1, 1)%float).
Proof.
  repeat split.
  - eexists _, _. split; [vm_compute; reflexivity|]. split; [reflexivity|].
    eapply (proj1 (aggregate_curve_endpoints libs frame logistic outcome predictors) 2 []).
    vm_compute; reflexivity.
  - eexists _, _. split; [vm_compute; reflexivity|]. split; [reflexivity|].
    eapply (proj1 (aggregate_curve_endpoints libs frame fragile outcome predictors) 2 []).
    vm_compute; reflexivity.
  - eexists _, _. split; [vm_compute; reflexivity|]. split; [reflexivity|].
    eapply (proj2 (aggregate_curve_endpoints libs frame logistic outcome predictors) []).
    vm_compute; reflexivity.
  - eexists _, _. split; [vm_compute; reflexivity|]. split; [reflexivity|].
    eapply (proj2 (aggregate_curve_endpoints libs frame separated outcome predictors) []).
    vm_compute; reflexivity.
Defined.

(** *** Classifiers without a probability interface *)

Section PredictOnly.

Variables (L : Libs) (df : DataFrame) (model : Classifier)
          (ov : string) (pv : list string).

Hypothesis Hmodel : predict_only_model model.

Let tmp := dropna (ov :: pv) df.

Lemma cv_fold_predict_only i f st s st' s' :
  cv_fold L tmp model ov pv i f st s = (inr st', s') -> False.
Proof.
  destruct f as [trainInd testInd]. unfold cv_fold. intros H.
  step H as trainDf E. step H as testDf E'. step H as r Hroc.
  pose proof (computeROC_inr _ _ _ _ _ _ _ _ Hroc) as (_ & _ & Hr).
  cbv zeta in Hr.
  destruct (Hmodel (X_of pv (dropna (ov :: pv) trainDf))
                   (y_of ov (dropna (ov :: pv) trainDf)))
    as (g & Hfit & Hpp & Hvec).
  destruct Hr as [(Hsep & _)|(g' & prob & tpr & th & Hfit' & Hres & _)];
    [congruence|].
  rewrite Hfit in Hfit'. injection Hfit' as <-.
  rewrite Hpp in Hres. rewrite Hres in H.
  step H as pp Epp. cbn in Epp. injection Epp as <-.
  step H as testProb Etp.
  destruct (Hvec (X_of pv testDf)) as (v & Hv). rewrite Hv in Etp.
  discriminate.
Qed.

Lemma cv_loop_predict_only cv i st s st' s' :
  cv_loop L tmp model ov pv i cv st s = (inr st', s') -> cv = [].
Proof.
  destruct cv as [|f cv]; [reflexivity|]. cbn [cv_loop]. intros H.
  step H as st1 Hf. now apply cv_fold_predict_only in Hf.
Qed.

(** C6, as the code has it.  With a classifier that has [predict] only
    [computeLOOROC] raises [IndexError] after the fit on the whole dataset,
    and [computeCVROC] never returns a result: both index the vector of
    predictions as a two-column array. *)
Theorem predict_only_classifier_fails :
  KFold_contract L ->
  (forall s, exists s',
     computeLOOROC L df model ov pv s = (inl IndexError, s')) /\
  (forall nFolds s r s',
     computeCVROC L df model ov pv nFolds s <> (inr r, s')).
Proof.
  intros HK. split.
  - intros s.
    destruct (Hmodel (X_of pv tmp) (y_of ov tmp)) as (f & Hfit & Hpp & Hvec).
    destruct (Hvec (X_of pv tmp)) as (v & Hv).
    eexists. now apply (computeLOOROC_predict_only L df model ov pv s f v).
  - intros nFolds s r s' H.
    unfold computeCVROC in H. fold tmp in H.
    step H as cv Ecv. step H as st Hloop.
    pose proof (cv_loop_predict_only _ _ _ _ _ _ Hloop) as ->.
    apply HK in Ecv. cbn in Ecv. subst nFolds.
    cbn in Hloop. leaf Hloop Est. subst st. cbn [st_counter Nat.eqb] in H.
    step H as t Hbr. step Hbr as m Em. step Hbr as a Ha. discriminate.
Qed.

End PredictOnly.

(** The sample regressor on the sample frame. *)
Lemma predict_only_classifier_fails_witness :
  (forall s, exists s',
     computeLOOROC libs frame regressor outcome predictors s = (inl IndexError, s')) /\
  (forall nFolds s r s',
     computeCVROC libs frame regressor outcome predictors nFolds s <> (inr r, s')).
Proof.
  exact (predict_only_classifier_fails libs frame regressor outcome predictors
           regressor_predict_only kfold_contract).
Defined.

(** On the sample frame the classifier with [predict] only is handled by
    [computeROC] and makes the two resampling functions raise. *)
Lemma predict_only_sample :
  (exists r, fst (computeROC libs frame regressor outcome predictors []) = inr r /\
             s_values (r_prob r) = [0.5; 0.5; 0.5; 0.5]%float) /\
  fst (computeCVROC libs frame regressor outcome predictors 2 []) = inl IndexError /\
  fst (computeLOOROC libs frame regressor outcome predictors []) = inl IndexError.
Proof.
  split; [|split]; [|vm_compute; reflexivity..].
  eexists. split; vm_compute; reflexivity.
Qed.

(** *** [rocStats] *)

Lemma sum_and_vec {A B} (F : A -> bool) (G : B -> bool) u v :
  sum_vec (and_vec (map F u) (map G v)) =
  length (filter (fun xy => andb (F (fst xy)) (G (snd xy))) (combine u v)).
Proof.
  unfold and_vec, sum_vec. revert v.
  induction u as [|a u IH]; intros [|b v]; try reflexivity.
  cbn [map combine fold_right filter fst snd]. rewrite IH.
  destruct (F a && G b); reflexivity.
Qed.

Lemma table_counts obs pred :
  sum_vec (and_vec (astype_bool obs) (astype_bool pred)) =
    table_count true true obs pred /\
  sum_vec (and_vec (astype_bool obs) (not_vec (astype_bool pred))) =
    table_count true false obs pred /\
  sum_vec (and_vec (not_vec (astype_bool obs)) (astype_bool pred)) =
    table_count false true obs pred /\
  sum_vec (and_vec (not_vec (astype_bool obs)) (not_vec (astype_bool pred))) =
    table_count false false obs pred.
Proof.
  unfold astype_bool, not_vec, table_count. rewrite !map_map.
  repeat split; rewrite sum_and_vec; f_equal; apply filter_ext;
    intros [a b]; unfold nonzero; cbn [fst snd];
    destruct (a =? 0)%float, (b =? 0)%float; reflexivity.
Qed.

(** C8.  On two vectors of the same length [rocStats] returns the eight
    ratios of the counts [a], [b], [c], [d] of its 2x2 table, as a tuple
    and, by default, as a series that holds them under their labels; on
    obs = [1,1,0,0] and pred = [1,0,1,0] the first four and the accuracy are
    0.5. *)
Theorem rocStats_formulas :
  (forall obs pred,
     length obs = length pred ->
     let n := of_nat (length obs) in
     let a := table_count true true obs pred in
     let b := table_count true false obs pred in
     let c := table_count false true obs pred in
     let d := table_count false false obs pred in
     (rocStats obs pred false =
      inr (AsTuple
             (mkStats (of_nat a / of_nat (a + b))
                      (of_nat d / of_nat (c + d))
                      (of_nat a / of_nat (a + c))
                      (of_nat d / of_nat (b + d))
                      (1 / (of_nat a / of_nat (a + c) - of_nat b / of_nat (b + d)))
                      (of_nat (a + d) / n)
                      ((of_nat a / of_nat (a + c)) / (of_nat b / of_nat (b + d)))
                      ((of_nat a / of_nat b) / (of_nat c / of_nat d)))) /\
      rocStats obs pred true =
      inr (AsSeries
             [("Sensitivity"%string, of_nat a / of_nat (a + b));
              ("Specificity"%string, of_nat d / of_nat (c + d));
              ("PPV"%string, of_nat a / of_nat (a + c));
              ("NPV"%string, of_nat d / of_nat (b + d));
              ("NNT"%string,
               1 / (of_nat a / of_nat (a + c) - of_nat b / of_nat (b + d)));
              ("ACC"%string, of_nat (a + d) / n);
              ("RR"%string,
               (of_nat a / of_nat (a + c)) / (of_nat b / of_nat (b + d)));
              ("OR"%string, (of_nat a / of_nat b) / (of_nat c / of_nat d))]
             "ROC"))%float) /\
  rocStats [1; 1; 0; 0]%float [1; 0; 1; 0]%float false =
  inr (AsTuple (mkStats 0.5 0.5 0.5 0.5 infinity 0.5 1 1)%float) /\
  rocStats [1; 1; 0; 0]%float [1; 0; 1; 0]%float true =
  inr (AsSeries [("Sensitivity", 0.5); ("Specificity", 0.5); ("PPV", 0.5);
                 ("NPV", 0.5); ("NNT", infinity); ("ACC", 0.5); ("RR", 1);
                 ("OR", 1)]%float%string "ROC").
Proof.
  split; [|split; vm_compute; reflexivity].
  intros obs pred Hlen n a b c d. unfold rocStats.
  rewrite Hlen, Nat.eqb_refl. cbn [negb].
  destruct (table_counts obs pred) as (-> & -> & -> & ->).
  rewrite <- Hlen. split; reflexivity.
Qed.

(** Two observations, one of them predicted wrongly, in both forms. *)
Lemma rocStats_formulas_witness :
  (exists t, rocStats [1; 0]%float [1; 1]%float false = inr (AsTuple t) /\
             sens t = 1%float /\ acc t = 0.5%float) /\
  (exists s, rocStats [1; 0]%float [1; 1]%float true = inr (AsSeries s "ROC") /\
             nth_error s 0 = Some ("Sensitivity"%string, 1%float) /\
             nth_error s 5 = Some ("ACC"%string, 0.5%float)).
Proof.
  destruct (proj1 rocStats_formulas [1; 0]%float [1; 1]%float eq_refl)
    as (Ht & Hs).
  split.
  - eexists. split; [exact Ht|]. split; vm_compute; reflexivity.
  - eexists. split; [exact Hs|]. split; vm_compute; reflexivity.
Defined.

End RocFacts.

(* ================================================================= *)
(** ** More facts about [imm_cor.py] *)

Module ImmCorMore.

Import NpFloat ImmCor ImmCorFacts ImmCorPH.
Local Open Scope R_scope.

Local Abbreviation tcol := default_treatment_col.
Local Abbreviation ecol := default_event_col.

(** *** The estimate and its interval *)

(** On a table whose event cells are not empty the estimate lies between
    the bounds of the interval, and all three are below 1. *)
Theorem estTECI_estimate_in_interval ft df tc ec :
  (0 < cell df tc ec 1 1)%Z -> (0 < cell df tc ec 0 1)%Z ->
  exists te lo hi p,
    estTECI ft df tc ec = (Fin te, (Fin lo, Fin hi), p) /\
    lo <= te <= hi /\ hi < 1.
Proof.
  intros Ha Hc. rewrite (estTECI_positive ft df tc ec Ha Hc).
  set (a := cell df tc ec 1 1) in *. set (b := cell df tc ec 1 0).
  set (c := cell df tc ec 0 1) in *. set (d := cell df tc ec 0 0).
  eexists _, _, _, _. split; [reflexivity|].
  assert (Hrr : 0 < RR a b c d) by (apply RR_pos; try apply cell_nonneg; assumption).
  assert (Hse : 0 <= SE a b c d) by apply sqrt_pos.
  rewrite <- (exp_ln (RR a b c d)) at 2 3 by exact Hrr.
  pose proof (exp_le (ln (RR a b c d)) (ln (RR a b c d) + SE a b c d * 1.96)).
  pose proof (exp_le (ln (RR a b c d) - SE a b c d * 1.96) (ln (RR a b c d))).
  pose proof (exp_pos (ln (RR a b c d) - SE a b c d * 1.96)).
  lra.
Qed.

(** The table with one row in each cell. *)
Lemma estTECI_estimate_in_interval_witness :
  exists te lo hi p,
    estTECI no_test (table_frame 1 1 1 1) tcol ecol = (Fin te, (Fin lo, Fin hi), p) /\
    lo <= te <= hi /\ hi < 1.
Proof.
  apply (estTECI_estimate_in_interval no_test (table_frame 1 1 1 1) tcol ecol);
    reflexivity.
Defined.

(** On such a table the sign of the estimate never contradicts that of
    [b c - a d]: the estimate is not negative when [a d <= b c], not
    positive when [b c <= a d] and zero when [a d = b c]; a positive
    estimate tells that [a d < b c] and a negative one that [b c < a d].
    The comparisons are the ones that rounding to the nearest double
    keeps: two ratios that differ may round to one double, and the
    estimate is then zero. *)
Theorem estTECI_sign ft df tc ec :
  let a := cell df tc ec 1 1 in
  let b := cell df tc ec 1 0 in
  let c := cell df tc ec 0 1 in
  let d := cell df tc ec 0 0 in
  (0 < a)%Z -> (0 < c)%Z ->
  exists te,
    fst (fst (estTECI ft df tc ec)) = Fin te /\
    ((a * d <= b * c)%Z -> 0 <= te) /\
    ((b * c <= a * d)%Z -> te <= 0) /\
    ((a * d = b * c)%Z -> te = 0) /\
    (0 < te -> (a * d < b * c)%Z) /\
    (te < 0 -> (b * c < a * d)%Z).
Proof.
  intros a b c d Ha Hc. rewrite (estTECI_positive ft df tc ec Ha Hc).
  fold a b c d. cbn [fst]. eexists. split; [reflexivity|].
  assert (Hb : (0 <= b)%Z) by apply cell_nonneg.
  assert (Hd : (0 <= d)%Z) by apply cell_nonneg.
  assert (E : 1 - RR a b c d =
              (IZR (b * c) - IZR (a * d)) / (IZR c * (IZR a + IZR b))).
  { unfold RR. rewrite !mult_IZR.
    apply IZR_lt in Ha, Hc. apply IZR_le in Hb, Hd. field. lra. }
  assert (Hden : 0 < IZR c * (IZR a + IZR b)).
  { apply IZR_lt in Ha, Hc. apply IZR_le in Hb. nra. }
  rewrite E. clear E.
  set (den := IZR c * (IZR a + IZR b)) in *.
  assert (Hinv : 0 < / den) by now apply Rinv_0_lt_compat.
  unfold Rdiv.
  repeat split; intros H.
  - apply IZR_le in H. nra.
  - apply IZR_le in H. nra.
  - apply (f_equal IZR) in H. nra.
  - apply lt_IZR. nra.
  - apply lt_IZR. nra.
Qed.

(** The table 1, 3, 2, 2: one case of four treated, two of four untreated;
    the estimate is one half. *)
Lemma estTECI_sign_witness :
  exists te,
    fst (fst (estTECI no_test (table_frame 1 3 2 2) tcol ecol)) = Fin te /\
    0 <= te /\
    (0 < te -> (cell (table_frame 1 3 2 2) tcol ecol 1 1 *
                cell (table_frame 1 3 2 2) tcol ecol 0 0 <
                cell (table_frame 1 3 2 2) tcol ecol 1 0 *
                cell (table_frame 1 3 2 2) tcol ecol 0 1)%Z).
Proof.
  destruct (estTECI_sign no_test (table_frame 1 3 2 2) tcol ecol)
    as (te & Hte & Hge & _ & _ & Hpos & _); try reflexivity.
  exists te. split; [exact Hte|]. split; [|exact Hpos].
  apply Hge. vm_compute. discriminate.
Defined.


(** *** The table *)

(** The four cells count disjoint sets of rows: their sum is at most the
    number of rows, and it is that number exactly when every row has 0 or 1
    in both columns. *)
Theorem cells_partition_rows df tc ec :
  let total := (cell df tc ec 1 1 + cell df tc ec 1 0 +
                cell df tc ec 0 1 + cell df tc ec 0 0)%Z in
  (total <= Z.of_nat (length df))%Z /\
  (total = Z.of_nat (length df) <->
   Forall (fun r => (r tc = 0 \/ r tc = 1)%Z /\ (r ec = 0 \/ r ec = 1)%Z) df).
Proof.
  cbv zeta. rewrite !cell_rows_in_cell. unfold rows_in_cell.
  induction df as [|r df IH].
  - cbn. split; [lia|]. split; [constructor|reflexivity].
  - destruct IH as (Hle & Hiff).
    cbn [filter length].
    destruct (Z.eqb_spec (r tc) 1) as [T1|T1];
      destruct (Z.eqb_spec (r tc) 0) as [T0|T0];
      destruct (Z.eqb_spec (r ec) 1) as [E1|E1];
      destruct (Z.eqb_spec (r ec) 0) as [E0|E0];
      cbn [andb length]; try lia;
      (split; [lia|]); split; intros H;
      try (apply Forall_cons; [lia|]; apply Hiff; lia);
      try (inversion H as [|? ? Hr Hdf]; subst;
           try (apply Hiff in Hdf); lia).
Qed.

(** *** [estTEPH] *)

(** When the fitted model reports a finite coefficient within its finite
    confidence bounds, the upper one at most 709 so that its exponential
    is a finite double, [estTEPH] returns one minus the exponential of the
    coefficient, between one minus the exponential of the upper bound and
    one minus that of the lower bound, in this order and none above 1,
    with the first p-value. *)
Theorem estTEPH_interval {Frame} (fit : Frame -> _ -> _ -> _ -> outcome CoxFit)
    df treatment_col duration_col event_col covars c k l u p ps :
  fit df ([treatment_col; duration_col; event_col] ++ covars)
      duration_col event_col = inr c ->
  hazards_coef c treatment_col = Fin k ->
  lower_bound c treatment_col = Fin l ->
  upper_bound c treatment_col = Fin u ->
  p_values c = p :: ps ->
  l <= k <= u -> u <= 709 ->
  exists te lo hi,
    estTEPH Frame fit df treatment_col duration_col event_col covars =
    inr (Fin te, (Fin lo, Fin hi), p) /\
    te = 1 - Rtrigo_def.exp k /\ lo <= te <= hi /\ hi <= 1.
Proof.
  intros Hfit Hk Hl Hu Hp Hlku _. unfold estTEPH.
  rewrite Hfit, Hk, Hl, Hu, Hp. cbn [exp sub add neg].
  eexists _, _, _. split; [reflexivity|]. split; [lra|].
  pose proof (exp_le l k). pose proof (exp_le k u). pose proof (exp_pos l).
  lra.
Qed.

(** A coefficient of -1 between the bounds -2 and 0. *)
Lemma estTEPH_interval_witness :
  exists te lo hi,
    estTEPH unit (constant_fit sample_fit) tt "treated" "dx2" "disease2" [] =
    inr (Fin te, (Fin lo, Fin hi), Fin 0.04) /\
    te = 1 - Rtrigo_def.exp (-1) /\ lo <= te <= hi /\ hi <= 1.
Proof.
  apply (estTEPH_interval (constant_fit sample_fit) tt
           "treated" "dx2" "disease2" [] sample_fit (-1) (-2) 0 (Fin 0.04) []);
    try reflexivity; lra.
Defined.

(** A failure of the fitter is the failure of [estTEPH]. *)
Theorem estTEPH_propagates {Frame} (fit : Frame -> _ -> _ -> _ -> outcome CoxFit)
    df treatment_col duration_col event_col covars e :
  fit df ([treatment_col; duration_col; event_col] ++ covars)
      duration_col event_col = inl e ->
  estTEPH Frame fit df treatment_col duration_col event_col covars = inl e.
Proof. intros H. unfold estTEPH. now rewrite H. Qed.

End ImmCorMore.

(* ================================================================= *)
(** ** More facts about [roc.py] *)

Module RocMore.

Import Roc Sample RocFacts RocParts.
Local Open Scope monad_scope.

(** *** [computeROC] in parts *)

Lemma computeROC_parts L df model ov pv :
  computeROC L df model ov pv =
  (let tmp := dropna (ov :: pv) df in
   v <- try_except (roc_try L tmp model ov pv) (roc_except df tmp ov pv) ;;
   roc_finish tmp v).
Proof. reflexivity. Qed.

Lemma dropna_idem cols df : dropna cols (dropna cols df) = dropna cols df.
Proof.
  unfold dropna. apply forallb_filter_id, forallb_forall.
  intros r Hr. now apply filter_In in Hr.
Qed.

(** What the [try] block does: it calls [fit] once and prints nothing; the
    exception it raises is that of [fit], an [IndexError] or a
    [ValueError]. *)
Lemma roc_try_cases L tmp model ov pv s :
  let X := X_of pv tmp in
  let y := y_of ov tmp in
  exists res,
    roc_try L tmp model ov pv s = (res, s ++ [Fit X y]) /\
    match res with
    | inl e => fit model X y = inl e \/
               ((exists f, fit model X y = inr f) /\
                (e = IndexError \/ e = ValueError))
    | inr (fpr, tpr, auc_, acc, results, prob) =>
        exists f pp tpr0 th,
          fit model X y = inr f /\
          results = Some (mkFitted (Some pp) (predict f)) /\
          (predict_proba f = Some pp \/
           (predict_proba f = None /\ pp = predict f)) /\
          (predict_proba f = Some pp ->
           exists p, column1 (pp X) = inr p /\ prob = Arr1 p) /\
          (predict_proba f = None -> prob = predict f X) /\
          roc_curve L y prob = Some (fpr, tpr0, th) /\
          accuracy_score L y (np_round L prob) = Some acc /\
          auc L fpr tpr0 = Some auc_ /\
          clamp tpr0 = inr tpr
    end.
Proof.
  unfold roc_try. cbv zeta.
  set (X := X_of pv tmp). set (y := y_of ov tmp).
  unfold bind at 1. unfold call_fit at 1.
  destruct (fit model X y) as [e|f] eqn:Hfit.
  { eexists. split; [reflexivity|]. now left. }
  unfold bind, lift, lib, ret.
  assert (Hclamp : forall t e, clamp t = inl e -> e = IndexError).
  { intros t e Hcl. unfold clamp in Hcl.
    destruct t; cbn in Hcl; [congruence|discriminate]. }
  destruct (predict_proba f) as [pp|] eqn:Hpp.
  - destruct (column1 (pp X)) as [e|p] eqn:Hc.
    { apply column1_error in Hc. subst e.
      eexists. split; [reflexivity|]. right. split; [eauto|]. now left. }
    destruct (roc_curve L y (Arr1 p)) as [[[fpr tpr0] th]|] eqn:Hroc;
      [|eexists; split; [reflexivity|]; right; split; [eauto|]; now right].
    destruct (accuracy_score L y _) as [a|] eqn:Ha;
      [|eexists; split; [reflexivity|]; right; split; [eauto|]; now right].
    destruct (auc L fpr tpr0) as [u|] eqn:Hu;
      [|eexists; split; [reflexivity|]; right; split; [eauto|]; now right].
    destruct (clamp tpr0) as [e|tpr] eqn:Hcl.
    { apply Hclamp in Hcl. subst e.
      eexists. split; [reflexivity|]. right. split; [eauto|]. now left. }
    eexists. split; [reflexivity|].
    exists f, pp, tpr0, th. destruct f as [fp fq]. cbn in Hpp. subst fp. cbn.
    repeat match goal with |- _ /\ _ => split end;
      try solve [eauto]; try (intros; congruence).
  - destruct (roc_curve L y (predict f X)) as [[[fpr tpr0] th]|] eqn:Hroc;
      [|eexists; split; [reflexivity|]; right; split; [eauto|]; now right].
    destruct (accuracy_score L y _) as [a|] eqn:Ha;
      [|eexists; split; [reflexivity|]; right; split; [eauto|]; now right].
    destruct (auc L fpr tpr0) as [u|] eqn:Hu;
      [|eexists; split; [reflexivity|]; right; split; [eauto|]; now right].
    destruct (clamp tpr0) as [e|tpr] eqn:Hcl.
    { apply Hclamp in Hcl. subst e.
      eexists. split; [reflexivity|]. right. split; [eauto|]. now left. }
    eexists. split; [reflexivity|].
    exists f, (predict f), tpr0, th. unfold patch.
    repeat match goal with |- _ /\ _ => split end;
      try solve [eauto]; try (intros; congruence).
Qed.

(** The [try] block raises the perfect-separation error only when [fit]
    does. *)
Lemma roc_try_separation L tmp model ov pv s s1 :
  roc_try L tmp model ov pv s = (inl PerfectSeparationError, s1) ->
  fit model (X_of pv tmp) (y_of ov tmp) = inl PerfectSeparationError.
Proof.
  intros H. destruct (roc_try_cases L tmp model ov pv s) as (res & E & Hc).
  rewrite H in E. injection E as <- _.
  destruct Hc as [Hc|(_ & [Hc|Hc])]; [exact Hc|discriminate..].
Qed.


Lemma clamp_last t t' : clamp t = inr t' -> last t' PrimFloat.nan = 1%float.
Proof.
  unfold clamp. destruct t as [|x rest]; [discriminate|].
  cbn [set_item set_last]. intros H. injection H as <-. apply last_last.
Qed.

(** *** Errors of [fit] *)

(** An exception of [fit] other than the perfect-separation error leaves
    [computeROC] and [computeLOOROC] as it is, right after that call of
    [fit] and with nothing printed. *)
Theorem fit_error_propagates L df model ov pv s e :
  let tmp := dropna (ov :: pv) df in
  let X := X_of pv tmp in
  let y := y_of ov tmp in
  fit model X y = inl e -> e <> PerfectSeparationError ->
  computeROC L df model ov pv s = (inl e, s ++ [Fit X y]) /\
  computeLOOROC L df model ov pv s = (inl e, s ++ [Fit X y]).
Proof.
  intros tmp X y Hfit Hne. split.
  - rewrite computeROC_parts. cbv zeta. fold tmp.
    unfold bind at 1. unfold try_except. unfold roc_try. cbv zeta.
    fold X. fold y. unfold bind at 1. unfold call_fit at 1. rewrite Hfit.
    destruct e; try reflexivity. now elim Hne.
  - unfold computeLOOROC. fold tmp. fold X. fold y.
    unfold bind at 1. unfold try_except. unfold bind at 1.
    unfold call_fit at 1. rewrite Hfit.
    destruct e; try reflexivity. now elim Hne.
Qed.

(** The sample frame with the classifier whose [fit] fails otherwise. *)
Lemma fit_error_propagates_witness :
  computeROC libs frame broken outcome predictors [] =
    (inl (OtherError "LinAlgError"),
     [] ++ [Fit (X_of predictors (dropna (outcome :: predictors) frame))
                (y_of outcome (dropna (outcome :: predictors) frame))]) /\
  computeLOOROC libs frame broken outcome predictors [] =
    (inl (OtherError "LinAlgError"),
     [] ++ [Fit (X_of predictors (dropna (outcome :: predictors) frame))
                (y_of outcome (dropna (outcome :: predictors) frame))]).
Proof.
  apply (fit_error_propagates libs frame broken outcome predictors []);
    [reflexivity|discriminate].
Defined.

(** *** What [computeROC] returns *)

Lemma computeROC_split L df model ov pv s r s' :
  computeROC L df model ov pv s = (inr r, s') ->
  let tmp := dropna (ov :: pv) df in
  exists v s1,
    try_except (roc_try L tmp model ov pv) (roc_except df tmp ov pv) s
      = (inr v, s1) /\
    roc_finish tmp v s1 = (inr r, s').
Proof.
  rewrite computeROC_parts. cbv zeta. intros H.
  apply bind_inr in H. exact H.
Qed.

(** Every result of [computeROC] has the probabilities of the rows without
    missing values, one for each and under their identifiers, in a series
    named [Prob]; an accuracy of at most 1; a curve whose last
    true-positive rate is 1, and whose first is 0 when it has two points or
    more; and, when it has a fitted model, one that answers to
    [predict_proba]. *)
Theorem computeROC_result L df model ov pv s r s' :
  computeROC L df model ov pv s = (inr r, s') ->
  let tmp := dropna (ov :: pv) df in
  s_index (r_prob r) = index_of tmp /\
  length (s_values (r_prob r)) = length tmp /\
  s_name (r_prob r) = Some Prob /\
  (r_acc r <=? 1)%float = true /\
  last (r_tpr r) PrimFloat.nan = 1%float /\
  (2 <= length (r_tpr r) -> hd PrimFloat.nan (r_tpr r) = 0%float) /\
  (forall g, r_results r = Some g -> exists pp, predict_proba g = Some pp).
Proof.
  intros H tmp.
  destruct (computeROC_split _ _ _ _ _ _ _ _ H) as (v & s1 & Htry & Hfin).
  fold tmp in Htry, Hfin.
  destruct v as [[[[[fpr tpr] auc_] acc] results] prob].
  unfold roc_finish in Hfin.
  step Hfin as u Hacc. step Hfin as ps Eps. leaf Hfin Er. subst r.
  cbn [r_prob r_acc r_tpr r_results].
  assert (Hps : s_index ps = index_of tmp /\
                length (s_values ps) = length tmp /\ s_name ps = Some Prob).
  { unfold new_series in Eps. destruct prob as [pv0|]; [|discriminate].
    destruct (Nat.eqb_spec (length pv0) (length (index_of tmp))) as [El|];
      [|discriminate].
    injection Eps as <-. cbn. rewrite El, index_of_length. auto. }
  destruct Hps as (Hi & Hl & Hn).
  do 4 (split; [assumption|]).
  apply try_except_inr in Htry. destruct Htry as [Hb|(s2 & _ & Hh)].
  - destruct (roc_try_cases L tmp model ov pv s) as (res & E & Hc).
    rewrite Hb in E. injection E as <- _.
    destruct Hc as (f & pp & tpr0 & th & _ & Hres & _ & _ & _ & _ & _ & _ & Hcl).
    split; [now apply (clamp_last tpr0)|]. split.
    + intros Hlen. rewrite (clamp_length _ _ Hcl) in Hlen.
      now destruct (clamp_ends _ _ Hcl Hlen).
    + intros g Hg. rewrite Hres in Hg. injection Hg as <-. cbn. eauto.
  - unfold roc_except in Hh. step Hh as u0 Hp. step Hh as t5 Et. leaf Hh Ev.
    injection Ev as <- <- <- <- <- <-. cbn in Et. injection Et as <-.
    split; [reflexivity|]. split; [reflexivity|]. discriminate.
Qed.

(** The sample frame with one outcome missing, fitted. *)
Lemma computeROC_result_witness :
  exists r s',
    computeROC libs frame_missing logistic outcome predictors [] = (inr r, s') /\
    s_index (r_prob r) = [10; 11; 12; 13]%Z /\
    length (s_values (r_prob r)) = 4 /\
    s_name (r_prob r) = Some Prob /\
    (r_acc r <=? 1)%float = true /\
    last (r_tpr r) PrimFloat.nan = 1%float /\
    (2 <= length (r_tpr r) -> hd PrimFloat.nan (r_tpr r) = 0%float) /\
    (forall g, r_results r = Some g -> exists pp, predict_proba g = Some pp).
Proof.
  eexists _, _. split; [vm_compute; reflexivity|].
  eapply (computeROC_result libs frame_missing logistic outcome predictors []).
  vm_compute; reflexivity.
Defined.

(** *** Rows with missing values *)

(** Rows with a missing outcome or predictor do not change what
    [computeCVROC] and [computeLOOROC] do; they do not change what
    [computeROC] does either unless [fit] raises the perfect-separation
    error. *)
Theorem incomplete_rows_ignored L df model ov pv :
  let tmp := dropna (ov :: pv) df in
  (forall nFolds s,
     computeCVROC L df model ov pv nFolds s =
     computeCVROC L tmp model ov pv nFolds s) /\
  (forall s, computeLOOROC L df model ov pv s =
             computeLOOROC L tmp model ov pv s) /\
  (fit model (X_of pv tmp) (y_of ov tmp) <> inl PerfectSeparationError ->
   forall s, computeROC L df model ov pv s = computeROC L tmp model ov pv s).
Proof.
  intros tmp. split; [|split].
  - intros nFolds s. unfold computeCVROC. unfold tmp.
    now rewrite dropna_idem.
  - intros s. unfold computeLOOROC. unfold tmp. now rewrite dropna_idem.
  - intros Hfit s. rewrite !computeROC_parts. cbv zeta. unfold tmp.
    rewrite dropna_idem. fold tmp.
    unfold bind. unfold try_except.
    destruct (roc_try L tmp model ov pv s) as [[e|v] s1] eqn:Hb;
      [|reflexivity].
    destruct e; try reflexivity.
    elim Hfit. exact (roc_try_separation _ _ _ _ _ _ _ Hb).
Qed.

Lemma incomplete_rows_ignored_witness :
  (forall nFolds s,
     computeCVROC libs frame_missing logistic outcome predictors nFolds s =
     computeCVROC libs (dropna (outcome :: predictors) frame_missing)
                  logistic outcome predictors nFolds s) /\
  (forall s,
     computeLOOROC libs frame_missing logistic outcome predictors s =
     computeLOOROC libs (dropna (outcome :: predictors) frame_missing)
                   logistic outcome predictors s) /\
  (forall s,
     computeROC libs frame_missing logistic outcome predictors s =
     computeROC libs (dropna (outcome :: predictors) frame_missing)
                logistic outcome predictors s).
Proof.
  destruct (incomplete_rows_ignored libs frame_missing logistic outcome predictors)
    as (H1 & H2 & H3).
  split; [exact H1|]. split; [exact H2|]. apply H3. discriminate.
Defined.

End RocMore.

(* ================================================================= *)
(** ** Counting the fits of the resampling functions *)

Module RocCounts.

Import Roc Sample RocFacts RocParts.
Local Open Scope monad_scope.

Lemma call_fit_inr model X y s f s' :
  call_fit model X y s = (inr f, s') ->
  fit model X y = inr f /\ s' = s ++ [Fit X y].
Proof. unfold call_fit. intros H. injection H as -> <-. now split. Qed.

Lemma fit_calls_print s m : fit_calls (s ++ [Print m]) = fit_calls s.
Proof. rewrite fit_calls_app. cbn. lia. Qed.

Lemma fit_calls_fit s X y : fit_calls (s ++ [Fit X y]) = S (fit_calls s).
Proof. rewrite fit_calls_app. cbn. lia. Qed.

Section CVCounts.

Variables (L : Libs) (df : DataFrame) (model : Classifier)
          (ov : string) (pv : list string).

Let tmp := dropna (ov :: pv) df.

(** A fold calls [fit] once; it leaves the state as it was, or adds one
    fitted model to the results and one to the counter. *)
Lemma cv_fold_effect i f st s st' s' :
  cv_fold L tmp model ov pv i f st s = (inr st', s') ->
  fit_calls s' = S (fit_calls s) /\
  (st' = st \/
   exists res, st_results st' = st_results st ++ [Some res] /\
               st_counter st' = S (st_counter st)).
Proof.
  destruct f as [trainInd testInd]. unfold cv_fold. intros H.
  step H as trainDf E. step H as testDf E'. step H as r Hroc.
  pose proof (computeROC_inr _ _ _ _ _ _ _ _ Hroc) as (_ & Hfc & _).
  destruct (r_results r) as [res|].
  - step H as pp Epp. step H as testProb Etp.
    step H as [[testFPR testTPR] th'] Ecurve.
    step H as col Ecol. step H as tpr' Eset. step H as a Ea.
    step H as sr Esr. leaf H Hst. subst st'. cbn.
    split; [exact Hfc|]. right. eauto.
  - leaf H Hst. subst st'. split; [exact Hfc|]. now left.
Qed.

Lemma cv_loop_effect cv : forall i st s st' s',
  cv_loop L tmp model ov pv i cv st s = (inr st', s') ->
  fit_calls s' = fit_calls s + length cv /\
  exists new,
    st_results st' = st_results st ++ new /\
    st_counter st' = st_counter st + length new /\
    Forall (fun x => x <> None) new.
Proof.
  induction cv as [|f cv IH]; intros i st s st' s' H.
  - cbn in H. leaf H E. subst. cbn. split; [lia|].
    exists []. rewrite app_nil_r. cbn. split; [reflexivity|]. split; [lia|constructor].
  - cbn [cv_loop] in H. step H as st1 Hf.
    apply cv_fold_effect in Hf. destruct Hf as (Hfc & Hst).
    apply IH in H. destruct H as (Hfc' & new & Hres & Hcnt & Hall).
    cbn [length]. split; [lia|].
    destruct Hst as [->|(res & Hr1 & Hc1)].
    + exists new. auto.
    + exists (Some res :: new). rewrite Hres, Hr1, <- app_assoc. cbn [app length].
      split; [reflexivity|]. split; [lia|].
      constructor; [discriminate|exact Hall].
Qed.

(** When [computeCVROC] returns with success it has called [fit] once for
    each fold and returns one fitted model for each fold; when it returns
    without, it has called [fit] once more and returns the one result of
    that last call. *)
Theorem computeCVROC_fits :
  KFold_contract L ->
  forall nFolds s r s',
    computeCVROC L df model ov pv nFolds s = (inr r, s') ->
    (cv_success r = true ->
     fit_calls s' = fit_calls s + nFolds /\
     length (cv_results r) = nFolds /\
     Forall (fun x => x <> None) (cv_results r)) /\
    (cv_success r = false ->
     fit_calls s' = fit_calls s + nFolds + 1 /\
     length (cv_results r) = 1).
Proof.
  intros HK nFolds s r s' H.
  unfold computeCVROC in H. fold tmp in H.
  step H as cv Ecv. step H as st Hloop.
  apply cv_loop_effect in Hloop.
  destruct Hloop as (Hfc & new & Hres & Hcnt & Hall).
  cbn [st_results st_counter app Nat.add] in Hres, Hcnt.
  rewrite (HK _ _ _ Ecv) in Hfc.
  step H as [[[[[meanTPR meanAUC] meanACC] results] probS] success] Hbr.
  step H as u Hacc. leaf H Hr. subst r. cbn [cv_success cv_results].
  destruct (Nat.eqb_spec (st_counter st) nFolds) as [Heq|Hne].
  - step Hbr as m Em. step Hbr as ma Hma.
    destruct (Nat.eqb (st_counter st) 0);
      [unfold raise in Hma; discriminate|leaf Hma Ema].
    step Hbr as mu Emu. step Hbr as ps Eps. step Hbr as u' Eas. leaf Hbr Ebr.
    injection Ebr as <- <- <- <- <- <-.
    split; [|discriminate]. intros _.
    split; [exact Hfc|]. rewrite Hres. split; [lia|exact Hall].
  - step Hbr as u1 Ep1. step Hbr as u2 Ep2. subst.
    step Hbr as single Hsingle. step Hbr as t0 Et0. step Hbr as m Em.
    leaf Hbr Ebr. injection Ebr as <- <- <- <- <- <-.
    split; [discriminate|]. intros _. split; [|reflexivity].
    pose proof (computeROC_inr _ _ _ _ _ _ _ _ Hsingle) as (_ & Hfs & _).
    rewrite Hfs, !fit_calls_print. lia.
Qed.

End CVCounts.

(** Two folds of the sample frame: fitted, and failing. *)
Lemma computeCVROC_fits_witness :
  (exists r s',
     computeCVROC libs frame logistic outcome predictors 2 [] = (inr r, s') /\
     cv_success r = true /\ fit_calls s' = 2 /\ length (cv_results r) = 2) /\
  (exists r s',
     computeCVROC libs frame fragile outcome predictors 2 [] = (inr r, s') /\
     cv_success r = false /\ fit_calls s' = 3 /\ length (cv_results r) = 1).
Proof.
  split.
  - eexists _, _. split; [vm_compute; reflexivity|]. split; [reflexivity|].
    match goal with
    | |- fit_calls ?s' = _ /\ length (cv_results ?r) = _ =>
        pose proof (computeCVROC_fits libs frame logistic outcome predictors
                      kfold_contract 2 [] r s') as H
    end.
    destruct H as (Ht & _); [vm_compute; reflexivity|].
    destruct (Ht eq_refl) as (H1 & H2 & _). split; [exact H1|exact H2].
  - eexists _, _. split; [vm_compute; reflexivity|]. split; [reflexivity|].
    match goal with
    | |- fit_calls ?s' = _ /\ length (cv_results ?r) = _ =>
        pose proof (computeCVROC_fits libs frame fragile outcome predictors
                      kfold_contract 2 [] r s') as H
    end.
    destruct H as (_ & Hf); [vm_compute; reflexivity|].
    exact (Hf eq_refl).
Defined.

End RocCounts.

(* ================================================================= *)
(** ** The completed path of [computeLOOROC] *)

Module RocLOO.

Import Roc Sample RocFacts RocParts RocLOOParts RocCounts.
Local Open Scope monad_scope.

(** *** Assignments to one element *)

Lemma set_item_error a i x e : set_item a i x = inl e -> e = IndexError.
Proof.
  revert i. induction a as [|y a IH]; intros [|j]; cbn; try congruence.
  destruct (set_item a j x) eqn:E; [|discriminate].
  intros H. injection H as <-. now apply (IH j).
Qed.

Lemma set_item_length a i x a' : set_item a i x = inr a' -> length a' = length a.
Proof.
  revert i a'. induction a as [|y a IH]; intros [|j] a'; cbn; try discriminate.
  - intros H. now injection H as <-.
  - destruct (set_item a j x) eqn:E; [discriminate|].
    intros H. injection H as <-. cbn. f_equal. now apply (IH j).
Qed.

Lemma set_item_same a i x a' : set_item a i x = inr a' -> nth_error a' i = Some x.
Proof.
  revert i a'. induction a as [|y a IH]; intros [|j] a'; cbn; try discriminate.
  - intros H. now injection H as <-.
  - destruct (set_item a j x) eqn:E; [discriminate|].
    intros H. injection H as <-. cbn. now apply IH.
Qed.

Lemma set_item_other a i x a' j :
  set_item a i x = inr a' -> j <> i -> nth_error a' j = nth_error a j.
Proof.
  revert i a' j. induction a as [|y a IH]; intros [|i] a' j; cbn; try discriminate.
  - intros H. injection H as <-. destruct j; [congruence|reflexivity].
  - destruct (set_item a i x) eqn:E; [discriminate|].
    intros H. injection H as <-. destruct j as [|j]; [reflexivity|].
    intros Hj. cbn. apply (IH i); [exact E|congruence].
Qed.

Lemma item01_error a e : item01 a = inl e -> e = IndexError.
Proof.
  destruct a as [v|rows]; cbn; [congruence|].
  destruct (nth_item rows 0) eqn:E.
  - intros H. injection H as <-. now apply nth_item_error in E.
  - apply nth_item_error.
Qed.

Lemma nth_item_inr {A} (l : list A) i a :
  nth_item l i = inr a -> nth_error l i = Some a.
Proof. unfold nth_item. destruct (nth_error l i); congruence. Qed.

(** Labels read at the positions [i0], [i0 + 1], ... of an index are that
    part of the index. *)
Lemma labels_in_order {A} (l pre ids : list A) :
  Forall2 (fun j x => nth_error (pre ++ l) j = Some x)
          (seq (length pre) (length l)) ids ->
  ids = l.
Proof.
  revert pre ids. induction l as [|a l IH]; intros pre ids H; cbn in H.
  - now inversion H.
  - inversion H as [|j x js xs Hj Hrest]; subst.
    rewrite nth_error_app2, Nat.sub_diag in Hj by lia. cbn in Hj.
    injection Hj as <-. f_equal.
    apply (IH (pre ++ [a])).
    rewrite <- app_assoc, length_app. cbn [app length].
    now rewrite Nat.add_1_r.
Qed.

(** *** One fold *)

Section LOOFold.

Variables (tmp : DataFrame) (model : Classifier)
          (ov : string) (pv : list string) (wholeProb : vector).

Lemma loo_fold_effect i f st s st' s' :
  loo_fold tmp model ov pv wholeProb i f st s = (inr st', s') ->
  fit_calls s' = S (fit_calls s) /\
  (exists p, set_item (lo_prob st) i p = inr (lo_prob st')) /\
  (exists t0 id, nth_error (snd f) 0 = Some t0 /\
                 nth_error (index_of tmp) t0 = Some id /\
                 lo_ids st' = lo_ids st ++ [id]) /\
  exists res, fold_outcome tmp model ov pv wholeProb i f st st' res.
Proof.
  destruct f as [trainInd testInd]. unfold loo_fold. intros H.
  step H as trainDf Etrain. step H as testDf Etest. step H as o Eo.
  step H as outcome Eout. step H as t0 Et0. step H as id Eid.
  apply bind_inr in H. destruct H as ([results prob] & s1 & Htry & H).
  leaf H Hst. subst st'. cbn [lo_prob lo_ids lo_results snd].
  apply nth_item_inr in Et0, Eid.
  apply try_except_inr in Htry. destruct Htry as [Hb|(s2 & Hb & Hh)].
  - step Hb as res Hfit. apply call_fit_inr in Hfit. destruct Hfit as (Hfit & ->).
    step Hb as pp Epp. step Hb as p Ep. step Hb as prob' Eset. leaf Hb Eb.
    injection Eb as <- <-.
    split; [apply fit_calls_fit|]. split; [eauto|]. split; [eauto|].
    eexists. unfold fold_outcome. cbn [lo_prob lo_results].
    split; [reflexivity|]. split; [|split].
    + split; [discriminate|]. intros (trainDf' & Ei & Hf).
      cbn [fst] in Ei. rewrite Etrain in Ei. injection Ei as <-. congruence.
    + discriminate.
    + intros _. cbn [fst snd].
      exists trainDf, res, testDf, p. split; [exact Etrain|].
      split; [exact Hfit|]. split; [exact Etest|]. split.
      * unfold proba_of, get_predict_proba in *.
        destruct (predict_proba res) as [pp0|] eqn:Epr.
        -- cbn [predict_proba] in *. rewrite Epr in *. injection Epp as <-. exact Ep.
        -- cbn [patch predict_proba] in *. injection Epp as <-. exact Ep.
      * now apply set_item_same in Eset.
  - assert (Hfit : fit model (X_of pv trainDf) (y_of ov trainDf) =
                   inl PerfectSeparationError /\
                   s2 = s ++ [Fit (X_of pv trainDf) (y_of ov trainDf)]).
    { revert Hb. unfold bind at 1. unfold call_fit at 1.
      destruct (fit model _ _) as [e|res] eqn:Ef.
      - intros Hb. injection Hb as -> <-. now split.
      - unfold bind at 1. unfold lift at 1.
        destruct (get_predict_proba _) as [e|pp] eqn:Epp.
        + intros Hb. injection Hb as -> _. exfalso.
          unfold get_predict_proba in Epp.
          destruct (predict_proba res) eqn:Epr; cbn in Epp;
            [rewrite Epr in Epp|]; discriminate.
        + unfold bind at 1. unfold lift at 1.
          destruct (item01 _) as [e|p] eqn:Ep.
          * intros Hb. injection Hb as -> _. now apply item01_error in Ep.
          * unfold bind at 1. unfold lift at 1.
            destruct (set_item (lo_prob st) i p) as [e|pr] eqn:Es.
            -- intros Hb. injection Hb as -> _. now apply set_item_error in Es.
            -- unfold ret. discriminate. }
    destruct Hfit as (Hfit & ->).
    step Hh as u Ep. step Hh as w Ew. step Hh as prob' Eset. leaf Hh Eh.
    injection Eh as <- <-. subst.
    split; [now rewrite fit_calls_print, fit_calls_fit|].
    split; [eauto|]. split; [eauto|].
    exists None. unfold fold_outcome. cbn [lo_prob lo_results].
    split; [reflexivity|]. split; [|split].
    + split; [|reflexivity]. intros _. exists trainDf. now split.
    + intros _. apply nth_item_inr in Ew. apply set_item_same in Eset. congruence.
    + intros Hn. now elim Hn.
Qed.

(** *** The loop *)

(** A fold writes one element of the probabilities, its own. *)
Lemma loo_loop_keeps cv : forall i st s st' s',
  loo_loop tmp model ov pv wholeProb i cv st s = (inr st', s') ->
  length (lo_prob st') = length (lo_prob st) /\
  forall j, j < i -> nth_error (lo_prob st') j = nth_error (lo_prob st) j.
Proof.
  induction cv as [|f cv IH]; intros i st s st' s' H.
  - cbn in H. leaf H E. subst. now split.
  - cbn [loo_loop] in H. step H as st1 Hf.
    apply loo_fold_effect in Hf. destruct Hf as (_ & (p & Hset) & _).
    apply IH in H. destruct H as (Hlen & Hkeep). split.
    + rewrite Hlen. now apply set_item_length in Hset.
    + intros j Hj. rewrite Hkeep by lia.
      apply (set_item_other _ _ _ _ j Hset). lia.
Qed.

Lemma loo_loop_effect cv : forall i st s st' s',
  loo_loop tmp model ov pv wholeProb i cv st s = (inr st', s') ->
  fit_calls s' = fit_calls s + length cv /\
  exists ids results,
    lo_ids st' = lo_ids st ++ ids /\
    lo_results st' = lo_results st ++ results /\
    Forall2 (fun f id => exists t0, nth_error (snd f) 0 = Some t0 /\
                                    nth_error (index_of tmp) t0 = Some id)
            cv ids /\
    length results = length cv /\
    forall j f res, nth_error cv j = Some f -> nth_error results j = Some res ->
                    fold_record tmp model ov pv wholeProb i st' j f res.
Proof.
  induction cv as [|f cv IH]; intros i st s st' s' H.
  - cbn in H. leaf H E. subst. cbn. split; [lia|].
    exists [], []. rewrite !app_nil_r.
    split; [reflexivity|]. split; [reflexivity|]. split; [constructor|].
    split; [reflexivity|]. intros [|j] f res Hj; discriminate.
  - cbn [loo_loop] in H. step H as st1 Hf.
    apply loo_fold_effect in Hf.
    destruct Hf as (Hfc & _ & (t0 & id & Ht0 & Hid & Hids) & res0 & Hr0 & Hiff & Hnone & Hsome).
    pose proof (loo_loop_keeps _ _ _ _ _ _ H) as (_ & Hkeep).
    apply IH in H. destruct H as (Hfc' & ids & results & Hi & Hr & HF & Hlen & Hrec).
    cbn [length]. split; [lia|].
    exists (id :: ids), (res0 :: results).
    rewrite Hi, Hids, Hr, Hr0, <- !app_assoc. cbn [app length].
    split; [reflexivity|]. split; [reflexivity|].
    split; [constructor; eauto|]. split; [lia|].
    intros [|j] f' res Hf' Hres; cbn in Hf', Hres.
    + injection Hf' as <-. injection Hres as <-.
      unfold fold_record. rewrite Nat.add_0_r, (Hkeep i) by lia.
      split; [exact Hiff|]. split; [exact Hnone|exact Hsome].
    + unfold fold_record. replace (i + S j) with (S i + j) by lia.
      exact (Hrec j f' res Hf' Hres).
Qed.

End LOOFold.

(** The identifiers the loop collects over the leave-one-out folds are the
    index of the frame. *)
Lemma loo_ids idx : forall k i0 (ids : list label),
  Forall2 (fun (f : fold) id => exists t0, nth_error (snd f) 0 = Some t0 /\
                                           nth_error idx t0 = Some id)
          (map (fun i => (filter (fun j => negb (Nat.eqb j i)) (seq 0 (i0 + k)), [i]))
               (seq i0 k)) ids ->
  Forall2 (fun j id => nth_error idx j = Some id) (seq i0 k) ids.
Proof.
  intros k i0. generalize (i0 + k) as n. revert i0.
  induction k as [|k IH]; intros i0 n ids H; cbn in H.
  - inversion H. constructor.
  - inversion H as [|f id fs ids' (t0 & Ht0 & Hid) Hrest]; subst.
    cbn in Ht0. injection Ht0 as <-. cbn. constructor; [exact Hid|].
    now apply (IH (S i0) n).
Qed.

(** *** [computeLOOROC] *)

Section LOOCompleted.

Variables (L : Libs) (df : DataFrame) (model : Classifier)
          (ov : string) (pv : list string).

Let tmp := dropna (ov :: pv) df.
Let X := X_of pv tmp.
Let y := y_of ov tmp.

(** What [computeLOOROC] has done when it returns after its loop. *)
Lemma computeLOOROC_cases s r s' :
  computeLOOROC L df model ov pv s = (inr r, s') ->
  (fit model X y = inl PerfectSeparationError /\ cv_success r = false) \/
  (exists wholeRes wholeProb st,
     fit model X y = inr wholeRes /\
     column1 (proba_of wholeRes X) = inr wholeProb /\
     loo_loop tmp model ov pv wholeProb 0 (LeaveOneOut (length tmp))
       (mkLOOState (nans (length tmp)) (nans (length tmp)) [] [])
       (s ++ [Fit X y]) = (inr st, s') /\
     cv_success r = true /\
     cv_results r = lo_results st /\
     cv_prob r = mkSeries (lo_ids st) (lo_prob st) (Some Prob) /\
     length (lo_prob st) = length (lo_ids st)).
Proof.
  unfold computeLOOROC. fold tmp. fold X. fold y. intros H.
  apply bind_inr in H. destruct H as (whole & s1 & Hw & H).
  apply try_except_inr in Hw. destruct Hw as [Hw|(s2 & Hb & Hw)].
  - right. step Hw as wholeRes Hfit. apply call_fit_inr in Hfit.
    destruct Hfit as (Hfit & ->).
    step Hw as pp Epp. step Hw as wholeProb Ewp. leaf Hw Ew. subst whole.
    step H as st Hloop. step H as [[testFPR testTPR] th] Ecurve.
    step H as t0 Et0. step H as a Ea. step H as u Eu. step H as tpr Etpr.
    step H as ps Eps. step H as ua Eas. leaf H Er. subst r.
    exists wholeRes, wholeProb, st. cbn [cv_success cv_results cv_prob].
    split; [exact Hfit|]. split.
    { unfold proba_of, get_predict_proba in *.
      destruct (predict_proba wholeRes) as [pp0|] eqn:Epr.
      - cbn [predict_proba] in *. rewrite Epr in *. injection Epp as <-. exact Ewp.
      - cbn [patch predict_proba] in *. injection Epp as <-. exact Ewp. }
    split; [exact Hloop|]. split; [reflexivity|]. split; [reflexivity|].
    unfold new_series in Eps.
    destruct (Nat.eqb_spec (length (lo_prob st)) (length (lo_ids st))) as [E|E];
      [|discriminate].
    injection Eps as <-. now split.
  - left. assert (Hfit : fit model X y = inl PerfectSeparationError).
    { revert Hb. unfold bind at 1. unfold call_fit at 1.
      destruct (fit model X y) as [e|res] eqn:Ef.
      - intros Hb. now injection Hb as ->.
      - unfold bind at 1. unfold lift at 1.
        destruct (get_predict_proba _) as [e|pp] eqn:Epp.
        + intros Hb. injection Hb as -> _. exfalso.
          unfold get_predict_proba in Epp.
          destruct (predict_proba res) eqn:Epr; cbn in Epp;
            [rewrite Epr in Epp|]; discriminate.
        + unfold bind at 1. unfold lift at 1.
          destruct (column1 _) as [e|p] eqn:Ep.
          * intros Hb. injection Hb as -> _. now apply column1_error in Ep.
          * unfold ret. discriminate. }
    split; [exact Hfit|].
    step Hw as u0 Ep. step Hw as [[testFPR testTPR] th] Ecurve.
    step Hw as t0 Et0. step Hw as tpr Etpr. step Hw as ps Eps.
    step Hw as ua Eas. leaf Hw Ew. subst whole.
    leaf H Er. now subst r.
Qed.

(** The success flag of [computeLOOROC] tells whether the fit on the whole
    dataset converged, whatever the folds did.  With success the function
    has called [fit] once on the whole dataset and once for each row, and
    returns one result for each row and the probabilities indexed as the
    rows without missing values are. *)
Theorem computeLOOROC_completed s r s' :
  computeLOOROC L df model ov pv s = (inr r, s') ->
  (cv_success r = false <-> fit model X y = inl PerfectSeparationError) /\
  (cv_success r = true ->
   fit_calls s' = fit_calls s + 1 + length tmp /\
   length (cv_results r) = length tmp /\
   s_index (cv_prob r) = index_of tmp /\
   length (s_values (cv_prob r)) = length tmp /\
   s_name (cv_prob r) = Some Prob).
Proof.
  intros H. destruct (computeLOOROC_cases _ _ _ H)
    as [(Hfit & Hs)|(wholeRes & wholeProb & st & Hfit & _ & Hloop & Hs & Hres & Hprob & Hlen)].
  - split; [now split|]. intros E. congruence.
  - split; [split; intros E; congruence|]. intros _.
    apply loo_loop_effect in Hloop.
    destruct Hloop as (Hfc & ids & results & Hi & Hr & HF & Hl & _).
    cbn [lo_ids lo_results app] in Hi, Hr.
    assert (Hn : length (LeaveOneOut (length tmp)) = length tmp).
    { unfold LeaveOneOut. now rewrite length_map, length_seq. }
    assert (Hids : lo_ids st = index_of tmp).
    { rewrite Hi. apply (labels_in_order (index_of tmp) [] ids).
      cbn [app length]. rewrite index_of_length.
      apply (loo_ids (index_of tmp) (length tmp) 0). exact HF. }
    rewrite Hprob, Hres. cbn [s_index s_values s_name].
    rewrite Hfc, fit_calls_fit, Hn, Hr, Hl, Hn, Hlen, Hids, index_of_length.
    repeat split; try reflexivity. lia.
Qed.

(** A row that the model cannot be fitted without is given the
    probability that the model fitted to all the rows predicts for it; any
    other row is given the probability predicted for it by the object
    that [fit] returned on the other rows, as it was when returned.  The
    results hold [None] for the former rows only. *)
Theorem computeLOOROC_folds s r s' :
  computeLOOROC L df model ov pv s = (inr r, s') ->
  cv_success r = true ->
  exists wholeRes wholeProb,
    fit model X y = inr wholeRes /\
    column1 (proba_of wholeRes X) = inr wholeProb /\
    forall i row res,
      nth_error tmp i = Some row ->
      nth_error (cv_results r) i = Some res ->
      let train := filter (fun j => negb (Nat.eqb j i)) (seq 0 (length tmp)) in
      (res = None <-> fold_fails tmp model ov pv (train, [i])) /\
      (res = None ->
       nth_error (s_values (cv_prob r)) i = nth_error wholeProb i) /\
      (res <> None ->
       exists trainDf fitted p,
         iloc tmp train = inr trainDf /\
         fit model (X_of pv trainDf) (y_of ov trainDf) = inr fitted /\
         item01 (proba_of fitted (X_of pv [row])) = inr p /\
         nth_error (s_values (cv_prob r)) i = Some p).
Proof.
  intros H Hsucc. destruct (computeLOOROC_cases _ _ _ H)
    as [(_ & Hs)|(wholeRes & wholeProb & st & Hfit & Hwp & Hloop & _ & Hres & Hprob & _)];
    [congruence|].
  exists wholeRes, wholeProb. split; [exact Hfit|]. split; [exact Hwp|].
  intros i row res Hrow Hri train.
  apply loo_loop_effect in Hloop.
  destruct Hloop as (_ & ids & results & _ & Hr & _ & _ & Hrec).
  cbn [lo_results app] in Hr. rewrite Hres, Hr in Hri.
  assert (Hi : i < length tmp) by (apply nth_error_Some; congruence).
  assert (Hf : nth_error (LeaveOneOut (length tmp)) i = Some (train, [i])).
  { unfold LeaveOneOut. rewrite nth_error_map, nth_error_seq.
    destruct (Nat.ltb_spec i (length tmp)); [reflexivity|lia]. }
  destruct (Hrec i _ _ Hf Hri) as (Hiff & Hnone & Hsome).
  rewrite Hprob. cbn [s_values Nat.add] in *.
  split; [exact Hiff|]. split; [exact Hnone|].
  intros Hfd.
  destruct (Hsome Hfd) as (trainDf & fitted & testDf & p & Htr & Hft & Hil & Hit & Hp).
  cbn [fst] in Htr.
  cbn [snd iloc] in Hil. unfold nth_item in Hil. rewrite Hrow in Hil.
  injection Hil as <-. eauto 8.
Qed.

End LOOCompleted.

(** Leave-one-out on the sample frame: with the classifier that converges,
    and with the one that needs three rows. *)
Lemma computeLOOROC_completed_witness :
  exists r s',
    computeLOOROC libs frame logistic outcome predictors [] = (inr r, s') /\
    cv_success r = true /\
    fit_calls s' = 5 /\ length (cv_results r) = 4 /\
    s_index (cv_prob r) = [10; 11; 12; 13]%Z.
Proof.
  eexists _, _. split; [vm_compute; reflexivity|]. split; [reflexivity|].
  match goal with
  | |- fit_calls ?s' = _ /\ length (cv_results ?r) = _ /\ _ =>
      pose proof (computeLOOROC_completed libs frame logistic outcome predictors
                    [] r s') as H
  end.
  destruct H as (_ & Ht); [vm_compute; reflexivity|].
  destruct (Ht eq_refl) as (H1 & H2 & H3 & _).
  split; [exact H1|]. split; [exact H2|exact H3].
Defined.

(** Leave-one-out on three rows.  With the classifier that needs three
    every fold fails, and every row gets the probability of the model
    fitted to the three rows; with the one that converges no fold fails,
    and every row gets the probability of the model fitted to the other
    two. *)
Lemma computeLOOROC_folds_witness :
  (exists r s',
     computeLOOROC libs three_rows fragile outcome predictors [] = (inr r, s') /\
     cv_success r = true /\
     cv_results r = [None; None; None] /\
     exists wholeRes wholeProb,
       fit fragile (X_of predictors three_rows) (y_of outcome three_rows) =
         inr wholeRes /\
       column1 (proba_of wholeRes (X_of predictors three_rows)) = inr wholeProb /\
       forall i row res,
         nth_error three_rows i = Some row ->
         nth_error (cv_results r) i = Some res ->
         (res = None <->
          fold_fails three_rows fragile outcome predictors
            (filter (fun j => negb (Nat.eqb j i)) (seq 0 3), [i])) /\
         (res = None ->
          nth_error (s_values (cv_prob r)) i = nth_error wholeProb i) /\
         (res <> None ->
          exists trainDf fitted p,
            iloc three_rows (filter (fun j => negb (Nat.eqb j i)) (seq 0 3)) =
              inr trainDf /\
            fit fragile (X_of predictors trainDf) (y_of outcome trainDf) =
              inr fitted /\
            item01 (proba_of fitted (X_of predictors [row])) = inr p /\
            nth_error (s_values (cv_prob r)) i = Some p)) /\
  (exists r s' row res trainDf fitted p,
     computeLOOROC libs three_rows logistic outcome predictors [] = (inr r, s') /\
     nth_error three_rows 1 = Some row /\
     nth_error (cv_results r) 1 = Some res /\ res <> None /\
     iloc three_rows [0; 2] = inr trainDf /\
     fit logistic (X_of predictors trainDf) (y_of outcome trainDf) = inr fitted /\
     item01 (proba_of fitted (X_of predictors [row])) = inr p /\
     nth_error (s_values (cv_prob r)) 1 = Some p).
Proof.
  split.
  - eexists _, _. split; [vm_compute; reflexivity|].
    split; [reflexivity|]. split; [reflexivity|].
    eapply (computeLOOROC_folds libs three_rows fragile outcome predictors []).
    + vm_compute; reflexivity.
    + reflexivity.
  - destruct (computeLOOROC libs three_rows logistic outcome predictors [])
      as [[e|r] s'] eqn:E; [vm_compute in E; discriminate|].
    destruct (computeLOOROC_folds libs three_rows logistic outcome predictors
                [] r s' E) as (wholeRes & wholeProb & _ & _ & Hall).
    { vm_compute in E. injection E as <- _. reflexivity. }
    destruct (nth_error three_rows 1) as [row|] eqn:Erow; [|discriminate].
    destruct (nth_error (cv_results r) 1) as [res|] eqn:Eres;
      [|vm_compute in E; injection E as <- _; discriminate].
    destruct (Hall 1 row res Erow Eres) as (Hiff & _ & Hsome).
    assert (Hres : res <> None).
    { intros Hn. apply Hiff in Hn. destruct Hn as (trainDf & _ & Hfit).
      discriminate. }
    destruct (Hsome Hres) as (trainDf & fitted & p & Htr & Hfit & Hit & Hp).
    exists r, s', row, res, trainDf, fitted, p.
    repeat split; assumption.
Defined.

End RocLOO.

(* ================================================================= *)
(** ** The table of [rocStats] *)

Module RocTable.

Import Roc Sample RocFacts.

(** Every position falls in one cell of the table. *)
Lemma table_cells (l : list (float * float)) :
  let count o p :=
    length (filter (fun xy => andb (Bool.eqb (nonzero (fst xy)) o)
                                   (Bool.eqb (nonzero (snd xy)) p)) l) in
  count true true + count true false + count false true + count false false =
  length l.
Proof.
  cbv zeta. induction l as [|[x y] l IH]; [reflexivity|].
  cbn [filter fst snd length].
  destruct (nonzero x), (nonzero y); cbn [Bool.eqb andb length]; lia.
Qed.

(** On vectors of one length the four counts of [rocStats] add up to the
    number of observations, so that the accuracy is the share of the
    diagonal in the table; the series and the tuple hold the same eight
    values. *)
Theorem rocStats_partition obs pred :
  length obs = length pred ->
  let a := table_count true true obs pred in
  let b := table_count true false obs pred in
  let c := table_count false true obs pred in
  let d := table_count false false obs pred in
  a + b + c + d = length obs /\
  exists t,
    rocStats obs pred false = inr (AsTuple t) /\
    rocStats obs pred true =
      inr (AsSeries (combine stats_labels (stats_vec t)) "ROC") /\
    acc t = (of_nat (a + d) / of_nat (a + b + c + d))%float.
Proof.
  intros Hlen a b c d.
  assert (Hsum : a + b + c + d = length obs).
  { unfold a, b, c, d, table_count.
    rewrite (table_cells (combine obs pred)), length_combine. lia. }
  split; [exact Hsum|].
  unfold rocStats. rewrite Hlen, Nat.eqb_refl. cbn [negb].
  destruct (table_counts obs pred) as (-> & -> & -> & ->).
  eexists. split; [reflexivity|]. split; [reflexivity|].
  cbn [acc]. fold a d. now rewrite Hsum, Hlen.
Qed.

(** Two observations, one of them predicted wrongly. *)
Lemma rocStats_partition_witness :
  table_count true true [1; 0]%float [1; 1]%float +
  table_count true false [1; 0]%float [1; 1]%float +
  table_count false true [1; 0]%float [1; 1]%float +
  table_count false false [1; 0]%float [1; 1]%float = 2 /\
  exists t,
    rocStats [1; 0]%float [1; 1]%float false = inr (AsTuple t) /\
    rocStats [1; 0]%float [1; 1]%float true =
      inr (AsSeries (combine stats_labels (stats_vec t)) "ROC") /\
    acc t = (of_nat (1 + 0) / of_nat (1 + 0 + 1 + 0))%float.
Proof.
  apply (rocStats_partition [1; 0]%float [1; 1]%float). reflexivity.
Defined.

End RocTable.

(* ================================================================= *)
(** ** Facts about [plotROC] and [plotCVROC] *)

Module RocPlotFacts.

Import Roc Sample RocFacts RocPlot.
Local Open Scope monad_scope.

Lemma zip3_length {A B C} (a : list A) (b : list B) (c : list C) :
  length (zip3 a b c) = Nat.min (length a) (Nat.min (length b) (length c)).
Proof.
  revert b c. induction a as [|x a IH]; intros [|y b] [|z c]; cbn; try reflexivity.
  now rewrite IH.
Qed.

Lemma curves_app cv1 cv2 : curves (cv1 ++ cv2) = curves cv1 + curves cv2.
Proof. unfold curves. now rewrite filter_app, length_app. Qed.

Lemma curves_curve_calls l : forall i, curves (curve_calls i l) = length l.
Proof.
  unfold curve_calls, curves.
  induction l as [|[[f t] lab] l IH]; intros i; [reflexivity|].
  cbn [length seq combine map filter]. now rewrite IH.
Qed.

Lemma colors_item i : nth_item colors i = if Nat.ltb i 8 then inr i else inl IndexError.
Proof.
  unfold nth_item, colors.
  destruct (Nat.ltb_spec i 8) as [H|H].
  - rewrite nth_error_seq. destruct (Nat.ltb_spec i 8); [reflexivity|lia].
  - rewrite nth_error_seq. destruct (Nat.ltb_spec i 8); [lia|reflexivity].
Qed.

(** *** The loop of [plotROC] *)

(** When the loop ends it has drawn every curve, there were colours for
    all of them and the arrays of each had one length. *)
Lemma plot_curves_inr l : forall i cv u cv',
  plot_curves i l cv = (inr u, cv') ->
  cv' = cv ++ curve_calls i l /\ (l = [] \/ i + length l <= 8) /\
  Forall well_formed l.
Proof.
  induction l as [|[[f t] lab] l IH]; intros i cv u cv' H.
  - cbn in H. injection H as _ <-. unfold curve_calls. cbn.
    rewrite app_nil_r. split; [reflexivity|]. split; [now left|constructor].
  - cbn [plot_curves] in H. rewrite colors_item in H.
    destruct (Nat.ltb_spec i 8) as [Hi|Hi]; [|discriminate].
    destruct (Nat.eqb_spec (length f) (length t)) as [Hft|Hft]; [|discriminate].
    apply IH in H. destruct H as (-> & Hn & Hwf).
    split; [|split].
    + unfold curve_calls. cbn [length seq combine map].
      now rewrite <- app_assoc.
    + right. cbn [length]. destruct Hn as [->|Hn]; cbn [length]; lia.
    + constructor; [exact Hft|exact Hwf].
Qed.

(** With more curves than colours the loop stops at the ninth, after
    eight curves. *)
Lemma plot_curves_palette l : forall i cv,
  Forall well_formed l -> i <= 8 -> 8 < i + length l ->
  plot_curves i l cv = (inl IndexError, cv ++ curve_calls i (firstn (8 - i) l)).
Proof.
  induction l as [|[[f t] lab] l IH]; intros i cv Hwf Hi Hn.
  - cbn in Hn. lia.
  - cbn [plot_curves]. rewrite colors_item.
    destruct (Nat.ltb_spec i 8) as [Hlt|Hge].
    + inversion Hwf as [|c l' Hc Hl]; subst. unfold well_formed in Hc.
      cbn [fst snd] in Hc. rewrite Hc, Nat.eqb_refl.
      cbn [length] in Hn. rewrite (IH (S i)) by (try assumption; lia).
      replace (8 - i) with (S (8 - S i)) by lia.
      cbn [firstn]. unfold curve_calls. cbn [length seq combine map].
      now rewrite <- app_assoc.
    + replace (8 - i) with 0 by lia. cbn [firstn]. unfold curve_calls. cbn.
      now rewrite app_nil_r.
Qed.

(** *** [plotROC] *)

(** [plotROC] needs all of labels, AUCs and accuracies or none of them:
    with some of them it raises [TypeError] before it draws. *)
Theorem plotROC_arguments fprL tprL aucL accL labelL ov cv :
  (labelL = None /\ aucL = None /\ accL = None) \/
  (labelL <> None /\ aucL <> None /\ accL <> None) \/
  plotROC fprL tprL aucL accL labelL ov cv = (inl TypeError, cv).
Proof.
  unfold plotROC, curve_labels.
  destruct labelL, aucL, accL; auto;
    right; left; repeat split; discriminate.
Qed.

(** Without labels [plotROC] draws as many curves as the shorter of its
    two lists has, the curve at position [i] labelled [Model i] in colour
    [i], and then the diagonal, the axes, the title and the legend; it
    returns only when there are at most eight curves whose arrays have one
    length each. *)
Theorem plotROC_unlabelled fprL tprL ov cv u cv' :
  plotROC fprL tprL None None None ov cv = (inr u, cv') ->
  let l := zip3 fprL tprL (map ModelLabel (seq 0 (length fprL))) in
  cv' = cv ++ [Clf; AspectEqual] ++ curve_calls 0 l ++ decorations ov /\
  length l = Nat.min (length fprL) (length tprL) /\
  length l <= 8 /\
  curves cv' = curves cv + length l /\
  Forall well_formed l.
Proof.
  intros H l. unfold plotROC, curve_labels in H. fold l in H.
  destruct (plot_curves 0 l (cv ++ [Clf; AspectEqual])) as [[e|u'] cv1] eqn:E;
    [discriminate|].
  injection H as _ <-.
  apply plot_curves_inr in E. destruct E as (-> & Hn & Hwf).
  assert (Hl : length l = Nat.min (length fprL) (length tprL)).
  { unfold l. rewrite zip3_length, length_map, length_seq. lia. }
  split; [now rewrite <- !app_assoc|]. split; [exact Hl|].
  split; [destruct Hn as [->|Hn]; cbn [length]; lia|].
  split; [|exact Hwf].
  rewrite !curves_app, curves_curve_calls. cbn. lia.
Qed.

(** More than eight curves: [plotROC] draws eight and raises
    [IndexError] before the ninth; the diagonal, the legend and the figure
    are not shown. *)
Theorem plotROC_palette fprL tprL ov cv :
  let l := zip3 fprL tprL (map ModelLabel (seq 0 (length fprL))) in
  Forall well_formed l -> 8 < length l ->
  plotROC fprL tprL None None None ov cv =
  (inl IndexError, cv ++ [Clf; AspectEqual] ++ curve_calls 0 (firstn 8 l)).
Proof.
  intros l Hwf Hn. unfold plotROC, curve_labels. fold l.
  rewrite (plot_curves_palette l 0) by (try assumption; lia).
  now rewrite <- app_assoc.
Qed.

(** With labels, AUCs and accuracies [plotROC] draws as many curves as the
    shortest of its five lists has. *)
Theorem plotROC_labelled fprL tprL aucL accL labelL ov cv u cv' :
  plotROC fprL tprL (Some aucL) (Some accL) (Some labelL) ov cv = (inr u, cv') ->
  let n := Nat.min (Nat.min (length fprL) (length tprL))
                   (Nat.min (length labelL)
                            (Nat.min (length aucL) (length accL))) in
  curves cv' = curves cv + n /\ n <= 8.
Proof.
  intros H n. unfold plotROC, curve_labels in H.
  set (labels := map _ (zip3 labelL aucL accL)) in H.
  destruct (plot_curves 0 (zip3 fprL tprL labels) (cv ++ [Clf; AspectEqual]))
    as [[e|u'] cv1] eqn:E; [discriminate|].
  injection H as _ <-.
  apply plot_curves_inr in E. destruct E as (-> & Hn & _).
  assert (Hl : length (zip3 fprL tprL labels) = n).
  { rewrite zip3_length. unfold labels. rewrite length_map, zip3_length.
    unfold n. lia. }
  rewrite !curves_app, curves_curve_calls, Hl. cbn. split; [lia|].
  destruct Hn as [E|Hn]; [rewrite E in Hl; cbn in Hl|]; lia.
Qed.

(** *** [plotCVROC] *)

(** [plotCVROC] hands [plotROC] its labels without AUCs and accuracies:
    it never returns and never draws, and when the ROC function has
    answered for every set of predictors the exception is the
    [TypeError] of [plotROC]. *)
Theorem plotCVROC_never_plots df model ov predictorsList predictorLabels
    rocFunc s cv :
  exists e s',
    plotCVROC df model ov predictorsList predictorLabels rocFunc s cv =
      (inl e, s', cv) /\
    forall labels lists s1,
      labels = match predictorLabels with
               | None => map (String.concat " + ") predictorsList
               | Some labels => labels
               end ->
      roc_loop rocFunc df model ov labels 0 predictorsList ([], [], []) s =
        (inr lists, s1) ->
      e = TypeError /\ s' = s1.
Proof.
  unfold plotCVROC.
  destruct (roc_loop _ _ _ _ _ _ _ _ s) as [[e|[[fprList tprList] labelList]] s1] eqn:E.
  - exists e, s1. split; [reflexivity|]. intros labels lists s2 -> H.
    rewrite E in H. discriminate.
  - exists TypeError, s1. split; [reflexivity|]. intros labels lists s2 -> H.
    rewrite E in H. now injection H as _ <-.
Qed.

(** *** Instances *)

(** One curve. *)
Lemma plotROC_unlabelled_witness :
  exists cv',
    plotROC [[0; 1]%float] [[0; 1]%float] None None None "" [] = (inr tt, cv') /\
    cv' = [Clf; AspectEqual; PlotCurve [0; 1]%float [0; 1]%float 0 (ModelLabel 0);
           PlotChance; XLim; YLim; XLabel; YLabel; Title (Str "ROC"); Legend; Show].
Proof.
  eexists. split; [reflexivity|].
  exact (proj1 (plotROC_unlabelled [[0; 1]%float] [[0; 1]%float] "" [] tt _ eq_refl)).
Defined.

(** Nine curves. *)
Lemma plotROC_palette_witness :
  plotROC (repeat [0; 1]%float 9) (repeat [0; 1]%float 9) None None None "" [] =
  (inl IndexError,
   [Clf; AspectEqual] ++
   map (fun i => PlotCurve [0; 1]%float [0; 1]%float i (ModelLabel i)) (seq 0 8)).
Proof.
  apply (plotROC_palette (repeat [0; 1]%float 9) (repeat [0; 1]%float 9) "" []).
  - repeat constructor.
  - cbn. lia.
Defined.

(** Two curves and one label: one curve is drawn. *)
Lemma plotROC_labelled_witness :
  exists cv',
    plotROC [[0; 1]%float; [0; 1]%float] [[0; 1]%float; [0; 1]%float]
            (Some [0.5; 0.5]%float) (Some [0.5; 0.5]%float) (Some [Str "a"]) "" [] =
      (inr tt, cv') /\
    curves cv' = 1.
Proof.
  eexists. split; [reflexivity|].
  exact (proj1 (plotROC_labelled
                  [[0; 1]%float; [0; 1]%float] [[0; 1]%float; [0; 1]%float]
                  [0.5; 0.5]%float [0.5; 0.5]%float [Str "a"] "" [] tt _ eq_refl)).
Defined.

(** Leave-one-out on the sample frame answers, and [plotROC] raises. *)
Lemma plotCVROC_never_plots_witness :
  exists s',
    plotCVROC frame logistic outcome [predictors] None (loo_func libs) [] [] =
    (inl TypeError, s', []).
Proof.
  destruct (plotCVROC_never_plots frame logistic outcome [predictors] None
              (loo_func libs) [] []) as (e & s' & Heq & Hall).
  assert (He : e = TypeError).
  { eapply proj1, Hall; [reflexivity|vm_compute; reflexivity]. }
  exists s'. rewrite <- He. exact Heq.
Defined.

End RocPlotFacts.

(* ================================================================= *)
(** ** Facts about [smLogisticRegression] *)

Module RocSMFacts.

Import Roc Sample RocFacts RocParts RocMore RocSM.
Local Open Scope monad_scope.

Lemma exog_of_length fi X : length (exog_of fi X) = length X.
Proof. unfold exog_of, add_constant. destruct fi; [apply length_map|reflexivity]. Qed.

(** The two assignments fill the rows with the complement of the
    prediction and the prediction. *)
Lemma assign_columns (f : float -> float) (v : vector) :
  assign_column 1 (assign_column 0 (repeat [0; 0]%float (length v)) (map f v)) v =
  map (fun p => [f p; p]) v.
Proof.
  unfold assign_column. induction v as [|p v IH]; [reflexivity|].
  cbn [length repeat map combine]. rewrite IH. reflexivity.
Qed.

Lemma sm_predict_proba_rows fi res X :
  sm_predict_proba fi res X =
  map (fun p => [(1 - p)%float; p]) (sm_predict fi res X).
Proof.
  unfold sm_predict_proba. cbv zeta.
  replace (length X) with (length (sm_predict fi res X)).
  - apply assign_columns.
  - unfold sm_predict, glm_predict. now rewrite length_map, exog_of_length.
Qed.

Lemma column1_pairs (g : float -> float) (v : vector) :
  column1 (Arr2 (map (fun p => [g p; p]) v)) = inr v.
Proof.
  cbn [column1]. induction v as [|p v IH]; [reflexivity|].
  cbn [map column1_rows nth_item nth_error]. now rewrite IH.
Qed.

(** [fit] returns the object fitted by the GLM. *)
Lemma sm_fit_inr glm fi X y f :
  fit (smLogisticRegression glm fi) X y = inr f ->
  exists res, glm y (exog_of fi X) = inr res /\ f = fitted fi res.
Proof.
  cbn [fit smLogisticRegression]. cbv zeta.
  destruct (glm y (exog_of fi X)) as [e|res]; [discriminate|].
  intros H. injection H as <-. now exists res.
Qed.

(** The object [fit] returns has the probability interface the
    resampling functions need: column 1 of [predict_proba] is [predict],
    one value for each row, the mean of the model on that row with the
    constant added when the intercept is fitted. *)
Theorem sm_probability_interface glm fi X y f :
  fit (smLogisticRegression glm fi) X y = inr f ->
  exists res pp,
    glm y (exog_of fi X) = inr res /\
    predict_proba f = Some pp /\
    forall X',
      predict f X' = Arr1 (map (mu res) (exog_of fi X')) /\
      column1 (pp X') = inr (map (mu res) (exog_of fi X')) /\
      length (map (mu res) (exog_of fi X')) = length X' /\
      forall row,
        item01 (pp [row]) = inr (mu res (if fi then 1%float :: row else row)).
Proof.
  cbn [fit smLogisticRegression]. cbv zeta.
  destruct (glm y (exog_of fi X)) as [e|res]; [discriminate|].
  intros H. injection H as <-.
  exists res. eexists. split; [reflexivity|]. split; [reflexivity|].
  intros X'. cbn [predict fitted]. split; [reflexivity|]. split; [|split].
  - rewrite sm_predict_proba_rows. apply column1_pairs.
  - now rewrite length_map, exog_of_length.
  - intros row. rewrite sm_predict_proba_rows. destruct fi; reflexivity.
Qed.

(** The fit raises what the GLM raises. *)
Lemma sm_fit_error glm fi X y e :
  fit (smLogisticRegression glm fi) X y = inl e -> glm y (exog_of fi X) = inl e.
Proof.
  cbn [fit smLogisticRegression]. cbv zeta.
  destruct (glm y (exog_of fi X)); [congruence|discriminate].
Qed.

(** [computeROC] with the wrapper: when the GLM converges on the rows
    without missing values, the probabilities are its means on these rows;
    when it raises the perfect-separation error, they are the observed
    outcomes and there is no fitted model.  Nothing else returns. *)
Theorem computeROC_smLogistic L glm fi df ov pv s r s' :
  computeROC L df (smLogisticRegression glm fi) ov pv s = (inr r, s') ->
  let tmp := dropna (ov :: pv) df in
  let exog := exog_of fi (X_of pv tmp) in
  (exists res,
     glm (y_of ov tmp) exog = inr res /\
     r_results r = Some (fitted fi res) /\
     r_prob r = mkSeries (index_of tmp) (map (mu res) exog) (Some Prob)) \/
  (glm (y_of ov tmp) exog = inl PerfectSeparationError /\
   r_results r = None /\
   r_prob r = mkSeries (index_of tmp) (y_of ov df) (Some Prob) /\
   r_auc r = 1%float /\ r_acc r = 1%float).
Proof.
  intros H tmp exog.
  destruct (computeROC_split _ _ _ _ _ _ _ _ H) as (v & s1 & Htry & Hfin).
  fold tmp in Htry, Hfin.
  destruct (roc_try_cases L tmp (smLogisticRegression glm fi) ov pv s)
    as (res0 & Hrt & Hcases).
  cbv zeta in Hrt, Hcases.
  apply try_except_inr in Htry. destruct Htry as [Hb|(s2 & Hb & Hh)].
  - left. rewrite Hrt in Hb. injection Hb as -> <-.
    destruct v as [[[[[fpr tpr] auc_] acc] results] prob].
    destruct Hcases as (f & pp & tpr0 & th & Hfit & Hres & Hor & Hsome & _).
    destruct (sm_fit_inr _ _ _ _ _ Hfit) as (res & Hglm & Hf).
    exists res. split; [exact Hglm|].
    subst f. cbn [predict_proba fitted] in Hsome, Hor.
    destruct Hor as [Hor|(Hor & _)]; [|discriminate].
    destruct (Hsome Hor) as (p & Hp & ->). injection Hor as <-.
    rewrite sm_predict_proba_rows, column1_pairs in Hp. injection Hp as <-.
    unfold roc_finish in Hfin.
    step Hfin as u Hacc. step Hfin as ps Eps. leaf Hfin Er. subst r.
    cbn [r_results r_prob]. split.
    + rewrite Hres. cbn [predict fitted]. f_equal.
    + unfold new_series in Eps.
      destruct (Nat.eqb _ _); [|discriminate]. now injection Eps as <-.
  - right. rewrite Hrt in Hb. injection Hb as -> <-.
    destruct Hcases as [Hfit|((f & Hfit) & [E|E])]; try discriminate.
    apply sm_fit_error in Hfit. split; [exact Hfit|].
    unfold roc_except in Hh.
    step Hh as u Ep. step Hh as tpr Etpr. leaf Hh Ev. subst v.
    unfold roc_finish in Hfin.
    step Hfin as u' Hacc. step Hfin as ps Eps. leaf Hfin Er. subst r.
    cbn [r_results r_prob r_auc r_acc].
    unfold new_series in Eps.
    destruct (Nat.eqb _ _); [|discriminate]. injection Eps as <-.
    repeat split.
Qed.

(** On the sample frame the wrapper converges; on its first two rows it
    does not. *)
Lemma sm_probability_interface_witness :
  exists pp,
    predict_proba (fitted true half) = Some pp /\
    column1 (pp (X_of predictors frame)) = inr [0.5; 0.5; 0.5; 0.5]%float.
Proof.
  destruct (sm_probability_interface sample_glm true (X_of predictors frame)
              (y_of outcome frame) (fitted true half) eq_refl)
    as (res & pp & Hglm & Hpp & Hall).
  exists pp. split; [exact Hpp|].
  destruct (Hall (X_of predictors frame)) as (_ & Hc & _).
  rewrite Hc. vm_compute in Hglm. injection Hglm as <-. reflexivity.
Defined.

Lemma computeROC_smLogistic_witness :
  (exists r s',
     computeROC libs frame (smLogisticRegression sample_glm true)
                outcome predictors [] = (inr r, s') /\
     s_values (r_prob r) = [0.5; 0.5; 0.5; 0.5]%float) /\
  (exists r s',
     computeROC libs (firstn 2 frame) (smLogisticRegression sample_glm true)
                outcome predictors [] = (inr r, s') /\
     r_results r = None /\ s_values (r_prob r) = [0; 1]%float).
Proof.
  split.
  - eexists _, _. split; [vm_compute; reflexivity|].
    match goal with
    | |- s_values (r_prob ?r) = _ =>
        edestruct (computeROC_smLogistic libs sample_glm true frame outcome
                     predictors [] r) as [(res & Hglm & _ & Hp)|(Hglm & _)]
    end.
    + vm_compute; reflexivity.
    + rewrite Hp. vm_compute in Hglm. injection Hglm as <-. reflexivity.
    + vm_compute in Hglm. discriminate.
  - eexists _, _. split; [vm_compute; reflexivity|].
    match goal with
    | |- r_results ?r = _ /\ _ =>
        edestruct (computeROC_smLogistic libs sample_glm true (firstn 2 frame)
                     outcome predictors [] r) as [(res & Hglm & _)|(_ & Hr & Hp & _)]
    end.
    + vm_compute; reflexivity.
    + vm_compute in Hglm. discriminate.
    + split; [exact Hr|]. rewrite Hp. reflexivity.
Defined.

End RocSMFacts.

(* ================================================================= *)
(** ** The accuracy the functions return *)

From Stdlib Require FloatAxioms.

Module RocAccuracy.

Import Roc Sample RocFacts RocParts RocNaN.
Local Open Scope monad_scope.

(** A comparison with a NaN is false. *)
Lemma leb_not_nan (x y : float) :
  (x <=? y)%float = true -> PrimFloat.is_nan x = false.
Proof.
  unfold PrimFloat.is_nan.
  rewrite FloatAxioms.leb_spec, FloatAxioms.eqb_spec.
  unfold SpecFloat.SFleb, SpecFloat.SFeqb.
  destruct (FloatOps.Prim2SF x) as [sx|sx| |sx m e]; cbn.
  - reflexivity.
  - destruct sx; reflexivity.
  - discriminate.
  - intros _. rewrite Z.compare_refl, Pos.compare_cont_refl.
    destruct sx; reflexivity.
Qed.

(** The assertions [acc <= 1] and [meanACC <= 1] fail on a NaN: an
    accuracy that [computeROC] or [computeCVROC] returns is a number, at
    most 1. *)
Theorem accuracy_is_a_number L df model ov pv :
  (forall s r s',
     computeROC L df model ov pv s = (inr r, s') ->
     PrimFloat.is_nan (r_acc r) = false /\ (r_acc r <=? 1)%float = true) /\
  (forall nFolds s r s',
     computeCVROC L df model ov pv nFolds s = (inr r, s') ->
     PrimFloat.is_nan (cv_acc r) = false /\ (cv_acc r <=? 1)%float = true).
Proof.
  split.
  - intros s r s' H.
    destruct (computeROC_inr _ _ _ _ _ _ _ _ H) as (Hacc & _).
    split; [exact (leb_not_nan _ _ Hacc)|exact Hacc].
  - intros nFolds s r s' H. unfold computeCVROC in H.
    step H as cv Ecv. step H as st Hloop.
    step H as [[[[[meanTPR meanAUC] meanACC] results] probS] success] Hbr.
    step H as u Hacc. leaf H Hr. subst r. cbn [cv_acc].
    split; [exact (leb_not_nan _ _ Hacc)|exact Hacc].
Qed.

(** [computeLOOROC] does not check: with an accuracy score that is not a
    number [computeROC] raises [AssertionError], and [computeLOOROC]
    returns the NaN. *)
Lemma accuracy_unchecked_loo :
  fst (computeROC nan_libs frame logistic outcome predictors []) =
    inl AssertionError /\
  exists r s',
    computeLOOROC nan_libs frame logistic outcome predictors [] = (inr r, s') /\
    PrimFloat.is_nan (cv_acc r) = true /\ cv_success r = true.
Proof.
  split; [vm_compute; reflexivity|].
  eexists _, _. split; [vm_compute; reflexivity|]. split; reflexivity.
Qed.

(** On the sample frame the accuracy is a half. *)
Lemma accuracy_is_a_number_witness :
  exists r s',
    computeROC libs frame logistic outcome predictors [] = (inr r, s') /\
    PrimFloat.is_nan (r_acc r) = false /\ (r_acc r <=? 1)%float = true.
Proof.
  eexists _, _. split; [vm_compute; reflexivity|].
  eapply (proj1 (accuracy_is_a_number libs frame logistic outcome predictors) []).
  vm_compute; reflexivity.
Defined.

End RocAccuracy.

(* ================================================================= *)
(** ** The trace of [computeROC] and [computeCVROC] *)

Module RocTraceFacts.

Import Roc Sample RocFacts RocParts RocMore RocTrace.
Local Open Scope monad_scope.

(** When [computeROC] returns it has called [fit] once, on the rows
    without missing values, and printed one line if that raised the
    perfect-separation error. *)
Lemma computeROC_trace L df model ov pv s r s' :
  computeROC L df model ov pv s = (inr r, s') ->
  s' = s ++ roc_events model ov pv (dropna (ov :: pv) df).
Proof.
  intros H.
  destruct (computeROC_split _ _ _ _ _ _ _ _ H) as (v & s1 & Htry & Hfin).
  set (tmp := dropna (ov :: pv) df) in *.
  assert (Hs : s' = s1).
  { destruct v as [[[[[fpr tpr] auc_] acc] results] prob].
    unfold roc_finish in Hfin.
    step Hfin as u Hacc. step Hfin as ps Eps. now leaf Hfin Er. }
  subst s1.
  destruct (roc_try_cases L tmp model ov pv s) as (res0 & Hrt & Hcases).
  cbv zeta in Hrt, Hcases. unfold roc_events.
  apply try_except_inr in Htry. destruct Htry as [Hb|(s2 & Hb & Hh)].
  - rewrite Hrt in Hb. injection Hb as -> <-.
    destruct v as [[[[[fpr tpr] auc_] acc] results] prob].
    destruct Hcases as (f & _ & _ & _ & Hfit & _). now rewrite Hfit.
  - rewrite Hrt in Hb. injection Hb as -> <-.
    destruct Hcases as [Hfit|((f & Hfit) & [E|E])]; try discriminate.
    rewrite Hfit. unfold roc_except in Hh.
    step Hh as u Ep. step Hh as tpr Etpr. leaf Hh Ev.
    rewrite Ep, <- app_assoc. reflexivity.
Qed.

Section CVTrace.

Variables (L : Libs) (df : DataFrame) (model : Classifier)
          (ov : string) (pv : list string).

Let tmp := dropna (ov :: pv) df.

Lemma cv_fold_trace i f st s st' s' :
  cv_fold L tmp model ov pv i f st s = (inr st', s') ->
  s' = s ++ fold_events tmp model ov pv f.
Proof.
  destruct f as [trainInd testInd]. unfold cv_fold, fold_events. intros H.
  cbn [fst].
  step H as trainDf E. step H as testDf E'. step H as r Hroc.
  rewrite E. apply computeROC_trace in Hroc.
  rewrite (dropna_iloc _ _ _ _ E) in Hroc.
  destruct (r_results r) as [res|].
  - step H as pp Epp. step H as testProb Etp.
    step H as [[testFPR testTPR] th'] Ecurve.
    step H as col Ecol. step H as tpr' Eset. step H as a Ea.
    step H as sr Esr. leaf H Hst. exact Hroc.
  - leaf H Hst. exact Hroc.
Qed.

Lemma cv_loop_trace cv : forall i st s st' s',
  cv_loop L tmp model ov pv i cv st s = (inr st', s') ->
  s' = s ++ flat_map (fold_events tmp model ov pv) cv.
Proof.
  induction cv as [|f cv IH]; intros i st s st' s' H.
  - cbn in H. leaf H E. cbn. now rewrite app_nil_r.
  - cbn [cv_loop] in H. step H as st1 Hf.
    apply cv_fold_trace in Hf. apply IH in H. subst.
    cbn [flat_map]. now rewrite app_assoc.
Qed.

(** Folds that do not fail leave their fits only. *)
Lemma no_failure_trace cv :
  (forall f, In f cv -> ~ fold_fails tmp model ov pv f) ->
  flat_map (fold_events tmp model ov pv) cv = training_fits tmp ov pv cv.
Proof.
  unfold training_fits. induction cv as [|f cv IH]; intros Hno; [reflexivity|].
  cbn [flat_map]. rewrite IH by (intros g Hg; apply Hno; now right).
  f_equal. unfold fold_events, roc_events.
  destruct (iloc tmp (fst f)) as [e|trainDf] eqn:E; [reflexivity|].
  destruct (fit model _ _) as [[]|g] eqn:Ef; try reflexivity.
  elim (Hno f (or_introl eq_refl)). exists trainDf. now split.
Qed.

(** The whole trace of [computeCVROC]: the events of the folds in their
    order; with success the fits on the training rows of the folds and
    nothing else, and without, two lines and the events of [computeROC]
    on all the rows. *)
Theorem computeCVROC_trace nFolds s r s' :
  KFold_contract L ->
  computeCVROC L df model ov pv nFolds s = (inr r, s') ->
  exists cv,
    KFold L (length tmp) nFolds = Some cv /\
    (cv_success r = true ->
     s' = s ++ training_fits tmp ov pv cv /\
     forall f, In f cv -> ~ fold_fails tmp model ov pv f) /\
    (cv_success r = false ->
     exists counter,
       counter < nFolds /\
       s' = s ++ flat_map (fold_events tmp model ov pv) cv ++
            [Print (MsgNotAllFolds counter nFolds); Print MsgNoCV] ++
            roc_events model ov pv tmp).
Proof.
  intros HK H.
  destruct (computeCVROC_inr L df model ov pv nFolds s r s' H)
    as (cv & st & s1 & Ecv & Hloop & _ & _ & Hcases).
  fold tmp in Ecv, Hloop, Hcases.
  exists cv. split; [exact Ecv|].
  pose proof (cv_loop_trace _ _ _ _ _ _ Hloop) as Hs1.
  pose proof (cv_loop_counter L df model ov pv cv _ _ _ _ _ Hloop) as (Hle & Hiff).
  rewrite (HK _ _ _ Ecv) in Hle, Hiff. cbn [cv_init st_counter Nat.add] in Hle, Hiff.
  destruct Hcases as [(Hc & Hsucc)|(Hc & Hsucc & single & t0 & Hsingle & _)].
  - split; [|congruence]. intros _.
    assert (Hno : forall f, In f cv -> ~ fold_fails tmp model ov pv f)
      by now apply Hiff.
    split; [|exact Hno].
    rewrite <- (no_failure_trace cv Hno).
    (* the success branch adds nothing to the trace *)
    unfold computeCVROC in H. fold tmp in H.
    step H as cv' Ecv'. rewrite Ecv in Ecv'. injection Ecv' as <-.
    step H as st' Hloop'. unfold cv_init in Hloop. rewrite Hloop in Hloop'.
    injection Hloop' as <- <-.
    step H as [[[[[meanTPR meanAUC] meanACC] results] probS] success] Hbr.
    step H as u Hacc. leaf H Hr.
    rewrite Hc, Nat.eqb_refl in Hbr.
    step Hbr as m Em. step Hbr as ma Hma.
    destruct (Nat.eqb nFolds 0);
      [unfold raise in Hma; discriminate|leaf Hma Ema].
    step Hbr as mu Emu. step Hbr as ps Eps. step Hbr as u' Eas. leaf Hbr Ebr.
    exact Hs1.
  - split; [congruence|]. intros _. exists (st_counter st).
    split; [lia|].
    apply computeROC_trace in Hsingle.
    rewrite Hsingle, Hs1.
    replace (dropna (ov :: pv) tmp) with tmp by (symmetry; apply dropna_idem).
    now rewrite <- !app_assoc.
Qed.

End CVTrace.

(** Two folds of the sample frame with the classifier that converges:
    two fits, on rows 1 and 3 and on rows 0 and 2. *)
Lemma computeCVROC_trace_witness :
  exists r s',
    computeCVROC libs frame logistic outcome predictors 2 [] = (inr r, s') /\
    exists cv,
      kfold 4 2 = Some cv /\ cv_success r = true /\
      s' = [] ++ training_fits frame outcome predictors cv /\
      s' = [Fit [[2]; [4]]%float [1; 1]%float; Fit [[1]; [3]]%float [0; 0]%float].
Proof.
  eexists _, _. split; [vm_compute; reflexivity|].
  match goal with
  | |- exists cv, _ /\ cv_success ?r = true /\ ?s' = _ /\ _ =>
      destruct (computeCVROC_trace libs frame logistic outcome predictors 2 [] r s'
                  kfold_contract) as (cv & Ecv & Ht & _)
  end.
  - vm_compute; reflexivity.
  - exists cv. split; [exact Ecv|]. split; [reflexivity|].
    split; [exact (proj1 (Ht eq_refl))|reflexivity].
Defined.

End RocTraceFacts.

(* ================================================================= *)
(** ** Facts about [lassoVarSelect] *)

Module RocLassoFacts.

Import Roc Sample RocFacts RocLasso.

(** The pairs of a [zip] are the pairs of elements at one position. *)
Lemma In_combine_nth {A B} (l : list A) (m : list B) a b :
  In (a, b) (combine l m) <->
  exists j, nth_error l j = Some a /\ nth_error m j = Some b.
Proof.
  revert m. induction l as [|x l IH]; intros [|y m]; cbn [combine In].
  - split; [intros []|intros ([|j] & H & _); discriminate].
  - split; [intros []|intros ([|j] & H & _); discriminate].
  - split; [intros []|intros ([|j] & _ & H); discriminate].
  - rewrite IH. split.
    + intros [E|(j & Hj)].
      * injection E as -> ->. now exists 0.
      * now exists (S j).
    + intros ([|j] & Ha & Hb); cbn in Ha, Hb.
      * left. congruence.
      * right. now exists j.
Qed.

(** The selected variables are those whose coefficient is not zero. *)
Lemma select_spec pv coef varList :
  select pv coef = inr varList ->
  length coef = length pv /\
  (forall name, In name varList -> In name pv) /\
  (NoDup pv ->
   forall i name, nth_error pv i = Some name ->
     (In name varList <->
      exists c, nth_error coef i = Some c /\ nonzero c = true)).
Proof.
  unfold select. destruct (Nat.eqb_spec (length coef) (length pv)) as [E|E];
    [|discriminate].
  intros H. injection H as <-. split; [exact E|]. split.
  - intros name Hin. apply in_map_iff in Hin.
    destruct Hin as ([n c] & <- & Hf). apply filter_In in Hf.
    destruct Hf as (Hc & _). now apply in_combine_l in Hc.
  - intros Hnd i name Hi. split.
    + intros Hin. apply in_map_iff in Hin.
      destruct Hin as ([n c] & Hn & Hf). cbn in Hn. subst n.
      apply filter_In in Hf. destruct Hf as (Hc & Hnz). cbn in Hnz.
      apply In_combine_nth in Hc. destruct Hc as (j & Hj & Hcj).
      assert (j = i).
      { apply (proj1 (NoDup_nth_error pv) Hnd).
        - apply nth_error_Some. congruence.
        - congruence. }
      subst j. eauto.
    + intros (c & Hc & Hnz). apply in_map_iff. exists (name, c).
      split; [reflexivity|]. apply filter_In. split; [|exact Hnz].
      apply In_combine_nth. eauto.
Qed.

(** What [lassoVarSelect] returns: the variables whose coefficient is not
    zero, in the order of the predictors; the predictions indexed as the
    rows without missing values; and, when [alpha] is given, that [alpha]
    with the lasso fitted on it, whatever [nFolds] and [LOO] are. *)
Theorem lassoVarSelect_selection L K df ov pv nFolds LOO alpha out :
  lassoVarSelect L K df ov pv nFolds LOO alpha = inr out ->
  let tmp := dropna (ov :: pv) df in
  let coef := coef_ (l_results out) in
  length coef = length pv /\
  (forall name, In name (l_varList out) -> In name pv) /\
  (NoDup pv ->
   forall i name, nth_error pv i = Some name ->
     (In name (l_varList out) <->
      exists c, nth_error coef i = Some c /\ nonzero c = true)) /\
  s_index (l_prob out) = index_of tmp /\
  length (s_values (l_prob out)) = length tmp /\
  (forall a, alpha = Some a ->
     l_alpha out = a /\
     Lasso_fit K a (X_of pv tmp) (y_of ov tmp) = inr (l_results out) /\
     forall nFolds' LOO',
       lassoVarSelect L K df ov pv nFolds' LOO' alpha = inr out).
Proof.
  intros H tmp coef. unfold lassoVarSelect in H. fold tmp in H.
  destruct (lasso_model K tmp ov pv nFolds LOO alpha) as [e|[results a0]] eqn:Em;
    [discriminate|].
  destruct (roc_curve L _ _) as [[[fpr tpr] th]|] eqn:Ec; [|discriminate].
  destruct (accuracy_score L _ _) as [acc|] eqn:Ea; [|discriminate].
  destruct (auc L fpr tpr) as [auc_|] eqn:Eu; [|discriminate].
  destruct (select pv (coef_ results)) as [e|varList] eqn:Es; [discriminate|].
  destruct (new_series _ _ _) as [e|probS] eqn:Ep; [discriminate|].
  injection H as <-. unfold coef. cbn [l_results l_varList l_prob l_alpha].
  destruct (select_spec _ _ _ Es) as (Hlen & Hin & Hiff).
  split; [exact Hlen|]. split; [exact Hin|]. split; [exact Hiff|].
  unfold new_series in Ep.
  destruct (lasso_predict results _) as [v|rows] eqn:Ev; [|discriminate].
  destruct (Nat.eqb_spec (length v) (length (index_of tmp))) as [El|El];
    [|discriminate].
  injection Ep as <-. cbn [s_index s_values].
  split; [reflexivity|]. split; [now rewrite El, index_of_length|].
  intros a ->. unfold lasso_model in Em. rewrite orb_true_r in Em. cbv zeta in Em.
  destruct (Lasso_fit K a _ _) as [e|results'] eqn:Ef; [discriminate|].
  injection Em as <- <-. split; [reflexivity|]. split; [reflexivity|].
  intros nFolds' LOO'. unfold lassoVarSelect. fold tmp.
  unfold lasso_model. rewrite orb_true_r. cbv zeta.
  rewrite Ef, Ev, Ec, Ea, Eu, Es. unfold new_series.
  destruct (Nat.eqb_spec (length v) (length (index_of tmp))); [reflexivity|].
  contradiction.
Qed.

(** Two predictors of which the lasso keeps the first; the row with a
    missing value is left out; ten folds and leave-one-out are not used
    when [alpha] is given. *)
Lemma lassoVarSelect_selection_witness :
  exists out,
    lassoVarSelect libs sample_lasso frame2 "y" ["x"; "z"]%string 10 true
                   (Some 0.5%float) = inr out /\
    l_varList out = ["x"%string] /\
    s_index (l_prob out) = [1; 2]%Z /\
    l_alpha out = 0.5%float /\
    lassoVarSelect libs sample_lasso frame2 "y" ["x"; "z"]%string 1 false
                   (Some 0.5%float) = inr out.
Proof.
  eexists. split; [vm_compute; reflexivity|].
  match goal with
  | |- l_varList ?out = _ /\ _ =>
      destruct (lassoVarSelect_selection libs sample_lasso frame2 "y"
                  ["x"; "z"]%string 10 true (Some 0.5%float) out)
        as (_ & _ & _ & Hidx & _ & Ha)
  end.
  - vm_compute; reflexivity.
  - destruct (Ha _ eq_refl) as (Hal & _ & Hany).
    split; [reflexivity|]. split; [exact Hidx|]. split; [exact Hal|].
    exact (Hany 1 false).
Defined.

End RocLassoFacts.
